(** * BCM2708 SPI controller driver (drivers/spi/spi-bcm2708.c)

    A shallow embedding of the driver's transfer engine: the configuration
    resolver [bcm2708_setup_state], the FIFO pump ([bcm2708_rd_fifo],
    [bcm2708_wr_fifo], [bcm2708_spi_interrupt]), the worker
    ([bcm2708_process_transfer], [bcm2708_work]) and the entry points
    [bcm2708_spi_setup] and [bcm2708_spi_transfer].

    C integers are integers of [Z] with their wrap-around written out
    ([u8], [u16], [u32], [int32]); a pointer is an optional address, [None]
    for NULL; memory is a finite map from addresses to bytes; the memory-mapped
    registers are an abstract [Device]; every register access, log line and
    completion callback is recorded in a chronological trace. *)

From Stdlib Require Import ZArith Zquot Lia Bool Btauto List String.
From stdpp Require Import base tactics option list gmap.
Import ListNotations.
Local Open Scope Z_scope.

(** ** Machine integers *)

Definition u8 (x : Z) : Z := x mod 2 ^ 8.
Definition u16 (x : Z) : Z := x mod 2 ^ 16.
Definition u32 (x : Z) : Z := x mod 2 ^ 32.
(** [int]: 32-bit two's complement, wrapping (the kernel is built with
    -fno-strict-overflow). *)
Definition int32 (x : Z) : Z := (x + 2 ^ 31) mod 2 ^ 32 - 2 ^ 31.

(** [x & flag] as a C condition. *)
Definition has_flag (x flag : Z) : bool := negb (Z.land x flag =? 0).

(** ** Constants *)

(** SPI register offsets *)
Definition SPI_CS : Z := 0x00.
Definition SPI_FIFO : Z := 0x04.
Definition SPI_CLK : Z := 0x08.
Definition SPI_DLEN : Z := 0x0c.
Definition SPI_LTOH : Z := 0x10.
Definition SPI_DC : Z := 0x14.

(** Bitfields in CS *)
Definition SPI_CS_LEN_LONG : Z := 0x02000000.
Definition SPI_CS_DMA_LEN : Z := 0x01000000.
Definition SPI_CS_CSPOL2 : Z := 0x00800000.
Definition SPI_CS_CSPOL1 : Z := 0x00400000.
Definition SPI_CS_CSPOL0 : Z := 0x00200000.
Definition SPI_CS_RXF : Z := 0x00100000.
Definition SPI_CS_RXR : Z := 0x00080000.
Definition SPI_CS_TXD : Z := 0x00040000.
Definition SPI_CS_RXD : Z := 0x00020000.
Definition SPI_CS_DONE : Z := 0x00010000.
Definition SPI_CS_LEN : Z := 0x00002000.
Definition SPI_CS_REN : Z := 0x00001000.
Definition SPI_CS_ADCS : Z := 0x00000800.
Definition SPI_CS_INTR : Z := 0x00000400.
Definition SPI_CS_INTD : Z := 0x00000200.
Definition SPI_CS_DMAEN : Z := 0x00000100.
Definition SPI_CS_TA : Z := 0x00000080.
Definition SPI_CS_CSPOL : Z := 0x00000040.
Definition SPI_CS_CLEAR_RX : Z := 0x00000020.
Definition SPI_CS_CLEAR_TX : Z := 0x00000010.
Definition SPI_CS_CPOL : Z := 0x00000008.
Definition SPI_CS_CPHA : Z := 0x00000004.
Definition SPI_CS_CS_10 : Z := 0x00000002.
Definition SPI_CS_CS_01 : Z := 0x00000001.

Definition SPI_TIMEOUT_MS : Z := 150.

(** Modelled from the spec: the mode flags of linux/spi/spi.h (clock phase,
    clock polarity, active-high chip select, no chip select) are not part
    of the driver's file; they carry the values of that header. *)
Definition SPI_CPHA : Z := 0x01.
Definition SPI_CPOL : Z := 0x02.
Definition SPI_CS_HIGH : Z := 0x04.
Definition SPI_NO_CS : Z := 0x40.

(** Modelled from the spec: the errno values of the kernel headers, which
    the driver returns negated. EINVAL stands for the spec's
    InvalidWordWidth, FrequencyTooLow, EmptyMessage and MissingBuffer,
    ESHUTDOWN for ShuttingDown, ETIMEDOUT for Timeout. *)
Definition ENOMEM : Z := 12.
Definition EINVAL : Z := 22.
Definition ESHUTDOWN : Z := 108.
Definition ETIMEDOUT : Z := 110.
Definition EINPROGRESS : Z := 115.

(** ** Configuration resolver *)

Record bcm2708_spi_state := mk_state {
  cs : Z;    (* u32 *)
  cdiv : Z   (* u16 *)
}.

(** Modelled from the spec: the kernel macro DIV_ROUND_UP(n, d), absent from
    the driver's file, is the spec's round-up(bus_hz / requested_hz): the
    quotient rounded towards plus infinity, ((n) + (d) - 1) / (d). *)
Definition DIV_ROUND_UP (n d : Z) : Z := (n + d - 1) / d.

(** Modelled from the spec: the kernel macro roundup_pow_of_two(n) of
    linux/log2.h, absent from the driver's file, is the spec's round up to
    the next power of two: the least power of two that is at least n. *)
Definition roundup_pow_of_two (n : Z) : Z := 2 ^ Z.log2_up n.

(** The divisor part of [bcm2708_setup_state]: [None] is the -EINVAL of a
    frequency that is too slow; otherwise the value of the local
    [int cdiv]. [unsigned long] has 32 bits on the ARM core of the BCM2708;
    the two macros are exact as long as their results fit, which they do
    for bus clocks up to 2^31 Hz. *)
Definition setup_cdiv (bus_hz hz : Z) : option Z :=
  if bus_hz <=? hz then
    Some 2 (* bus_hz / 2 is as fast as we can go *)
  else if negb (hz =? 0) then
    let cdiv := int32 (DIV_ROUND_UP bus_hz hz) in
    (* CDIV must be a power of 2, so round up *)
    let cdiv := int32 (roundup_pow_of_two (u32 cdiv)) in
    if 65536 <? cdiv then None
    else if cdiv =? 65536 then Some 0
    else if cdiv =? 1 then Some 2 (* 1 gets rounded down to 0; == 65536 *)
    else Some cdiv
  else
    Some 0.

(** The control-word part of [bcm2708_setup_state], after the switch on
    [bpw] has set [cs] to 0 (8 bits) or SPI_CS_LEN (9 bits). *)
Definition setup_cs_mode (cs0 csel mode : Z) : Z :=
  let cs := cs0 in
  let cs := if has_flag mode SPI_CPOL then Z.lor cs SPI_CS_CPOL else cs in
  let cs := if has_flag mode SPI_CPHA then Z.lor cs SPI_CS_CPHA else cs in
  if negb (has_flag mode SPI_NO_CS) then
    let cs :=
      if has_flag mode SPI_CS_HIGH then
        Z.lor (Z.lor cs SPI_CS_CSPOL) (u32 (Z.shiftl SPI_CS_CSPOL0 csel))
      else cs in
    Z.lor cs csel
  else
    Z.lor cs (Z.lor SPI_CS_CS_10 SPI_CS_CS_01).

(** [bcm2708_setup_state(master, dev, state, hz, csel, mode, bpw)] with
    [bus_hz = clk_get_rate(bs->clk)]. The result is [inl (-errno)] or
    [inr] of the state the function stores through [state] (a caller that
    passes NULL drops it). [hz] is a u32; [csel], [mode] and [bpw] are u8
    parameters. *)
Definition bcm2708_setup_state (bus_hz hz csel mode bpw : Z)
  : Z + bcm2708_spi_state :=
  let csel := u8 csel in
  let mode := u8 mode in
  let bpw := u8 bpw in
  match setup_cdiv bus_hz hz with
  | None => inl (- EINVAL)
  | Some cdiv =>
    if bpw =? 8 then
      inr (mk_state (setup_cs_mode 0 csel mode) (u16 cdiv))
    else if bpw =? 9 then
      (* Reading in LoSSI mode is a special case. *)
      inr (mk_state (setup_cs_mode (Z.lor 0 SPI_CS_LEN) csel mode) (u16 cdiv))
    else
      inl (- EINVAL)
  end.

(** The divisor the hardware applies for an encoding: 0 stands for 65536. *)
Definition effective_divisor (cdiv : Z) : Z :=
  if cdiv =? 0 then 65536 else cdiv.

(** ** Register interface, memory and trace *)

(** The memory-mapped register window [bs->base] together with the
    platform's interrupt delivery. [readl h reg] is the word a read of
    register [reg] returns and the device after the read; [writel h reg v]
    is the device after a write; [irq_budget h ms] is the number of
    interrupts of this device that the platform delivers to the handler
    before a wait of [ms] milliseconds times out. *)
Class Device (H : Type) := {
  readl : H → Z → Z * H;
  writel : H → Z → Z → H;
  irq_budget : H → Z → nat
}.

Inductive event :=
  | EvRd (reg val : Z)        (* bcm2708_rd *)
  | EvWr (reg val : Z)        (* bcm2708_wr *)
  | EvLog (text : string)     (* printk(KERN_ERR ...), dev_err *)
  | EvDelay (usecs : Z)       (* udelay *)
  | EvQueueWork               (* queue_work *)
  | EvComplete (context status actual_length : Z). (* msg->complete *)

(** Modelled from the spec: struct spi_transfer of linux/spi/spi.h, with
    the fields the driver reads. *)
Record spi_transfer := mk_xfer {
  xfer_tx_buf : option Z;  (* const void * *)
  xfer_rx_buf : option Z;  (* void * *)
  xfer_len : Z;            (* unsigned *)
  xfer_cs_change : bool;
  xfer_bits_per_word : Z;  (* u8 *)
  xfer_delay_usecs : Z;    (* u16 *)
  xfer_speed_hz : Z        (* u32 *)
}.

(** Modelled from the spec: struct spi_device of linux/spi/spi.h. *)
Record spi_device := mk_spi {
  max_speed_hz : Z;        (* u32 *)
  chip_select : Z;         (* u8 *)
  mode : Z;                (* u8 *)
  bits_per_word : Z;       (* u8 *)
  controller_state : option bcm2708_spi_state
}.

(** Modelled from the spec: struct spi_message of linux/spi/spi.h. The
    completion callback is identified by its [context]; a message carries
    the peer record it was submitted for. *)
Record spi_message := mk_msg {
  msg_spi : spi_device;
  transfers : list spi_transfer;
  msg_context : Z;
  msg_status : Z;
  actual_length : Z        (* unsigned *)
}.

Definition set_status (m : spi_message) (s : Z) : spi_message :=
  mk_msg (msg_spi m) (transfers m) (msg_context m) s (actual_length m).
Definition set_actual_length (m : spi_message) (n : Z) : spi_message :=
  mk_msg (msg_spi m) (transfers m) (msg_context m) (msg_status m) n.
Definition set_controller_state (d : spi_device)
    (s : option bcm2708_spi_state) : spi_device :=
  mk_spi (max_speed_hz d) (chip_select d) (mode d) (bits_per_word d) s.

(** The byte at address [a]. *)
Definition load (m : gmap Z Z) (a : Z) : Z := u8 (default 0 (m !! a)).

Section Driver.
Context {H : Type} `{Device H}.

(** struct bcm2708_spi with its environment: the register window [base],
    the rate of [clk], the flag, the queue, the count of the completion
    [done], the cursors of the transfer in flight, and around them the
    memory the cursors point into and the trace. The spinlock is not
    represented: every function below runs as one atomic step. *)
Record world := mk_world {
  base : H;
  clk : Z;                  (* clk_get_rate(bs->clk), unsigned long *)
  stopping : bool;
  queue : list spi_message;
  done : Z;                 (* done.done, unsigned *)
  tx_buf : option Z;        (* const u8 * *)
  rx_buf : option Z;        (* u8 * *)
  len : Z;                  (* int *)
  mem : gmap Z Z;
  trace : list event
}.

Definition set_base (w : world) (h : H) : world :=
  mk_world h (clk w) (stopping w) (queue w) (done w) (tx_buf w) (rx_buf w)
    (len w) (mem w) (trace w).
Definition set_stopping (w : world) (b : bool) : world :=
  mk_world (base w) (clk w) b (queue w) (done w) (tx_buf w) (rx_buf w)
    (len w) (mem w) (trace w).
Definition set_queue (w : world) (q : list spi_message) : world :=
  mk_world (base w) (clk w) (stopping w) q (done w) (tx_buf w) (rx_buf w)
    (len w) (mem w) (trace w).
Definition set_done (w : world) (d : Z) : world :=
  mk_world (base w) (clk w) (stopping w) (queue w) d (tx_buf w) (rx_buf w)
    (len w) (mem w) (trace w).
Definition set_tx_buf (w : world) (p : option Z) : world :=
  mk_world (base w) (clk w) (stopping w) (queue w) (done w) p (rx_buf w)
    (len w) (mem w) (trace w).
Definition set_rx_buf (w : world) (p : option Z) : world :=
  mk_world (base w) (clk w) (stopping w) (queue w) (done w) (tx_buf w) p
    (len w) (mem w) (trace w).
Definition set_len (w : world) (n : Z) : world :=
  mk_world (base w) (clk w) (stopping w) (queue w) (done w) (tx_buf w)
    (rx_buf w) n (mem w) (trace w).
Definition set_mem (w : world) (m : gmap Z Z) : world :=
  mk_world (base w) (clk w) (stopping w) (queue w) (done w) (tx_buf w)
    (rx_buf w) (len w) m (trace w).
Definition emit (w : world) (e : event) : world :=
  mk_world (base w) (clk w) (stopping w) (queue w) (done w) (tx_buf w)
    (rx_buf w) (len w) (mem w) (trace w ++ [e]).

(** ** Register access *)

Definition bcm2708_rd (w : world) (reg : Z) : Z * world :=
  let v := u32 (fst (readl (base w) reg)) in
  (v, emit (set_base w (snd (readl (base w) reg))) (EvRd reg v)).

Definition bcm2708_wr (w : world) (reg val : Z) : world :=
  emit (set_base w (writel (base w) reg (u32 val))) (EvWr reg (u32 val)).

(** ** FIFO pump *)

(** The body of the loop of [bcm2708_rd_fifo]. *)
Definition rd_fifo_step (w : world) : world :=
  let '(v, w) := bcm2708_rd w SPI_FIFO in
  let byte := u8 v in
  match rx_buf w with
  | Some p => set_rx_buf (set_mem w (<[p := byte]> (mem w))) (Some (p + 1))
  | None => w
  end.

Fixpoint rd_fifo_loop (n : nat) (w : world) : world :=
  match n with
  | O => w
  | S n' => rd_fifo_loop n' (rd_fifo_step w)
  end.

(** [while (len--)] on an [int] runs its body [len] times, counted modulo
    2^32. *)
Definition bcm2708_rd_fifo (w : world) (n : Z) : world :=
  rd_fifo_loop (Z.to_nat (u32 n)) w.

(** The body of the LoSSI loop of [bcm2708_wr_fifo]; the 16-bit load is
    little-endian, as on the ARM core of the BCM2708. *)
Definition wr_fifo_lossi_step (w : world) : world :=
  let val :=
    match tx_buf w with
    | Some p => load (mem w) p + 2 ^ 8 * load (mem w) (p + 1)
    | None => 0
    end in
  let w :=
    match tx_buf w with
    | Some p => set_tx_buf w (Some (p + 2))
    | None => w
    end in
  let w := bcm2708_wr w SPI_FIFO val in
  set_len w (int32 (len w - 2)).

Fixpoint wr_fifo_lossi_loop (n : nat) (w : world) : world :=
  match n with
  | O => w
  | S n' => wr_fifo_lossi_loop n' (wr_fifo_lossi_step w)
  end.

(** The body of the byte loop of [bcm2708_wr_fifo]. *)
Definition wr_fifo_step (w : world) : world :=
  let byte :=
    match tx_buf w with
    | Some p => load (mem w) p
    | None => 0
    end in
  let w :=
    match tx_buf w with
    | Some p => set_tx_buf w (Some (p + 1))
    | None => w
    end in
  let w := bcm2708_wr w SPI_FIFO byte in
  set_len w (int32 (len w - 1)).

Fixpoint wr_fifo_loop (n : nat) (w : world) : world :=
  match n with
  | O => w
  | S n' => wr_fifo_loop n' (wr_fifo_step w)
  end.

Definition bcm2708_wr_fifo (w : world) (n : Z) : world :=
  let n := if len w <? n then len w else n in
  let '(c, w) := bcm2708_rd w SPI_CS in
  if has_flag c SPI_CS_LEN then
    (* LoSSI mode *)
    if negb (Z.rem n 2 =? 0) then
      set_len
        (emit w (EvLog "bcm2708_wr_fifo: length must be even, skipping."))
        0
    else
      (* [while (len) { ...; len -= 2; }] on an even [int] *)
      wr_fifo_lossi_loop (Z.to_nat (u32 n / 2)) w
  else
    wr_fifo_loop (Z.to_nat (u32 n)) w.

(** ** Interrupt handler *)

Inductive outcome (A : Type) :=
  | Ret (a : A)
  | OutOfFuel    (* a hardware-controlled loop did not end within the fuel *)
  | Fault.       (* NULL dereference *)
Global Arguments Ret {A} a.
Global Arguments OutOfFuel {A}.
Global Arguments Fault {A}.

Global Instance outcome_bind : MBind outcome := λ A B k m,
  match m with
  | Ret a => k a
  | OutOfFuel => OutOfFuel
  | Fault => Fault
  end.

(** [while (cs & SPI_CS_RXD) { bcm2708_rd_fifo(bs, 1); cs = rd(SPI_CS); }]:
    the hardware decides how long the loop runs. *)
Fixpoint drain_rx (fuel : nat) (c : Z) (w : world) : outcome world :=
  if has_flag c SPI_CS_RXD then
    match fuel with
    | O => OutOfFuel
    | S fuel' =>
      let w := bcm2708_rd_fifo w 1 in
      let '(c, w) := bcm2708_rd w SPI_CS in
      drain_rx fuel' c w
    end
  else Ret w.

(** [complete(&bs->done)] *)
Definition complete (w : world) : world := set_done w (u32 (done w + 1)).

Definition bcm2708_spi_interrupt (fuel : nat) (w : world) : outcome world :=
  let '(c, w) := bcm2708_rd w SPI_CS in
  if has_flag c SPI_CS_DONE then
    if negb (len w =? 0) then (* first interrupt in a transfer *)
      (* fill the TX fifo with up to 16 bytes *)
      Ret (bcm2708_wr_fifo w 16)
    else (* transfer complete *)
      (* disable interrupts *)
      let c := Z.land c (Z.lnot (Z.lor SPI_CS_INTR SPI_CS_INTD)) in
      let w := bcm2708_wr w SPI_CS c in
      (* drain RX FIFO *)
      w ← drain_rx fuel c w;
      (* wake up our bh *)
      Ret (complete w)
  else if has_flag c SPI_CS_RXR then
    (* read 12 bytes of data *)
    let w := bcm2708_rd_fifo w 12 in
    (* write up to 12 bytes *)
    Ret (bcm2708_wr_fifo w 12)
  else Ret w.

(** ** Worker *)

(** [wait_for_completion_timeout(&bs->done, ...)]: the handler runs for
    each interrupt delivered before the timeout; the wait ends as soon as
    the completion has been raised. The result is 0 on timeout and
    otherwise positive; the driver only tests it against 0. *)
Fixpoint wait_loop (fuel irqs : nat) (w : world) : outcome (Z * world) :=
  if 0 <? done w then Ret (1, set_done w (done w - 1))
  else
    match irqs with
    | O => Ret (0, w)
    | S irqs' =>
      w ← bcm2708_spi_interrupt fuel w;
      wait_loop fuel irqs' w
    end.

Definition wait_for_completion_timeout (fuel : nat) (w : world) (ms : Z)
  : outcome (Z * world) :=
  wait_loop fuel (irq_budget (base w) ms) w.

(** The state a transfer runs with: resolved from its overrides, or the
    peer's cached [controller_state]. *)
Definition transfer_state (w : world) (spi : spi_device)
    (xfer : spi_transfer) : outcome (Z + bcm2708_spi_state) :=
  if negb (xfer_bits_per_word xfer =? 0) || negb (xfer_speed_hz xfer =? 0)
  then
    Ret (bcm2708_setup_state (clk w)
           (if negb (xfer_speed_hz xfer =? 0) then xfer_speed_hz xfer
            else max_speed_hz spi)
           (chip_select spi) (mode spi)
           (if negb (xfer_bits_per_word xfer =? 0)
            then xfer_bits_per_word xfer else bits_per_word spi))
  else
    match controller_state spi with
    | Some st => Ret (inr st)
    | None => Fault
    end.

(** The arming sequence of [bcm2708_process_transfer]: the cursors are
    set, then the divisor and the control word are written. *)
Definition arm (w : world) (stp : bcm2708_spi_state) (xfer : spi_transfer)
  : world :=
  let w := set_done w 0 in (* reinit_completion *)
  let w := set_tx_buf w (xfer_tx_buf xfer) in
  let w := set_rx_buf w (xfer_rx_buf xfer) in
  let w := set_len w (int32 (xfer_len xfer)) in
  let c :=
    Z.lor (Z.lor (Z.lor (cs stp) SPI_CS_INTR) SPI_CS_INTD) SPI_CS_TA in
  let w := bcm2708_wr w SPI_CLK (cdiv stp) in
  bcm2708_wr w SPI_CS c.

(** [bcm2708_process_transfer(bs, msg, xfer)]; [is_last] is
    [list_is_last(&xfer->transfer_list, &msg->transfers)]. The result is
    the returned status with the message (whose [actual_length] the
    function updates). *)
Definition bcm2708_process_transfer (fuel : nat) (w : world)
    (msg : spi_message) (xfer : spi_transfer) (is_last : bool)
  : outcome (Z * spi_message * world) :=
  let spi := msg_spi msg in
  if stopping w then Ret (- ESHUTDOWN, msg, w)
  else
    r ← transfer_state w spi xfer;
    match r with
    | inl ret => Ret (ret, msg, w)
    | inr stp =>
      let w := arm w stp xfer in
      '(ret, w) ← wait_for_completion_timeout fuel w SPI_TIMEOUT_MS;
      if ret =? 0 then
        Ret (- ETIMEDOUT, msg, emit w (EvLog "transfer timed out"))
      else
        let w :=
          if negb (xfer_delay_usecs xfer =? 0)
          then emit w (EvDelay (xfer_delay_usecs xfer)) else w in
        let w :=
          if is_last || xfer_cs_change xfer
          then (* clear TA and interrupt flags *)
            bcm2708_wr w SPI_CS (cs stp)
          else w in
        let msg :=
          set_actual_length msg
            (u32 (actual_length msg + (xfer_len xfer - len w))) in
        Ret (0, msg, w)
    end.

(** [list_for_each_entry(xfer, &msg->transfers, transfer_list)] of
    [bcm2708_work], from the transfer at the head of [xs] on; [status] is
    the local variable of [bcm2708_work]. *)
Fixpoint transfers_loop (fuel : nat) (w : world) (msg : spi_message)
    (xs : list spi_transfer) (status : Z)
  : outcome (Z * spi_message * world) :=
  match xs with
  | [] => Ret (status, msg, w)
  | xfer :: rest =>
    '(status, msg, w) ←
      bcm2708_process_transfer fuel w msg xfer
        (match rest with [] => true | _ => false end);
    if negb (status =? 0) then Ret (status, msg, w)
    else transfers_loop fuel w msg rest status
  end.

(** The end of the loop body of [bcm2708_work]: the status is stored in
    the message and its completion callback is called. *)
Definition message_done (w : world) (msg : spi_message) (status : Z)
  : world :=
  let msg := set_status msg status in
  emit w (EvComplete (msg_context msg) (msg_status msg) (actual_length msg)).

(** The while loop of [bcm2708_work] over the queue [q] of the controller;
    no function called in the body changes the queue, so the loop takes
    the messages of [q] one after the other. *)
Fixpoint work_loop (fuel : nat) (q : list spi_message) (status : Z)
    (w : world) : outcome world :=
  match q with
  | [] => Ret w
  | msg :: q' =>
    let w := set_queue w q' in (* list_del_init *)
    '(status, msg, w) ← transfers_loop fuel w msg (transfers msg) status;
    work_loop fuel q' status (message_done w msg status)
  end.

Definition bcm2708_work (fuel : nat) (w : world) : outcome world :=
  work_loop fuel (queue w) 0 w.

(** ** Entry points *)

(** [master->num_chipselect], set by [bcm2708_spi_probe]. *)
Definition num_chipselect : Z := 3.

(** [bcm2708_spi_setup(spi)]; [alloc_ok] tells whether kzalloc succeeds. *)
Definition bcm2708_spi_setup (w : world) (spi : spi_device)
    (alloc_ok : bool) : Z * spi_device :=
  if stopping w then (- ESHUTDOWN, spi)
  else if negb (has_flag (mode spi) SPI_NO_CS)
          && (num_chipselect <? chip_select spi)
  then (- EINVAL, spi)
  else
    let state :=
      match controller_state spi with
      | Some st => Some st
      | None => if alloc_ok then Some (mk_state 0 0) else None
      end in
    match state with
    | None => (- ENOMEM, spi)
    | Some st0 =>
      let spi := set_controller_state spi (Some st0) in
      match bcm2708_setup_state (clk w) (max_speed_hz spi) (chip_select spi)
              (mode spi) (bits_per_word spi) with
      | inl ret => (ret, set_controller_state spi None)
      | inr st => (0, set_controller_state spi (Some st))
      end
    end.

(** The validation loop of [bcm2708_spi_transfer]: 0 when every transfer
    passes, otherwise the value returned from inside the loop. *)
Fixpoint check_transfers (w : world) (spi : spi_device)
    (xs : list spi_transfer) : Z :=
  match xs with
  | [] => 0
  | xfer :: rest =>
    if negb (bool_decide (is_Some (xfer_tx_buf xfer))
             || bool_decide (is_Some (xfer_rx_buf xfer)))
       && negb (xfer_len xfer =? 0)
    then - EINVAL
    else if (xfer_bits_per_word xfer =? 0) || negb (xfer_speed_hz xfer =? 0)
    then check_transfers w spi rest
    else
      match bcm2708_setup_state (clk w)
              (if negb (xfer_speed_hz xfer =? 0) then xfer_speed_hz xfer
               else max_speed_hz spi)
              (chip_select spi) (mode spi)
              (if negb (xfer_bits_per_word xfer =? 0)
               then xfer_bits_per_word xfer else bits_per_word spi) with
      | inl ret => ret
      | inr _ => check_transfers w spi rest
      end
  end.

(** [bcm2708_spi_transfer(spi, msg)] *)
Definition bcm2708_spi_transfer (w : world) (spi : spi_device)
    (msg : spi_message) : Z * world :=
  match transfers msg with
  | [] => (- EINVAL, w)
  | _ :: _ =>
    if stopping w then (- ESHUTDOWN, w)
    else
      let ret := check_transfers w spi (transfers msg) in
      if negb (ret =? 0) then (ret, w)
      else
        let msg := set_actual_length (set_status msg (- EINPROGRESS)) 0 in
        (0, emit (set_queue w (queue w ++ [msg])) EvQueueWork)
  end.

(** The part of [bcm2708_spi_probe] that initialises the controller. *)
Definition bcm2708_spi_probe (h : H) (rate : Z) (m : gmap Z Z) : world :=
  bcm2708_wr (mk_world h rate false [] 0 None None 0 m [])
    SPI_CS (Z.lor (Z.lor SPI_CS_REN SPI_CS_CLEAR_RX) SPI_CS_CLEAR_TX).

(** The part of [bcm2708_spi_remove] that blocks queue progress. *)
Definition remove_block (w : world) : world :=
  bcm2708_wr (set_stopping w true)
    SPI_CS (Z.lor SPI_CS_CLEAR_RX SPI_CS_CLEAR_TX).

(** [bcm2708_spi_remove(pdev)] up to [flush_work_sync], which waits until
    the worker has gone through the queue. *)
Definition bcm2708_spi_remove (fuel : nat) (w : world) : outcome world :=
  bcm2708_work fuel (remove_block w).

(** ** Specification vocabulary *)

(** The [n] bytes at the tx cursor [p]: zeros when there is no tx buffer. *)
Definition tx_bytes (m : gmap Z Z) (p : option Z) (n : nat) : list Z :=
  match p with
  | Some a => (λ i : nat, load m (a + Z.of_nat i)) <$> seq 0 n
  | None => replicate n 0
  end.

(** The 16-bit units of wide mode, low byte first. *)
Fixpoint wide_words (bytes : list Z) : list Z :=
  match bytes with
  | lo :: hi :: rest => (lo + 2 ^ 8 * hi) :: wide_words rest
  | _ => []
  end.

(** Memory after the bytes [l] have been stored from address [p] on. *)
Fixpoint store_bytes (m : gmap Z Z) (p : Z) (l : list Z) : gmap Z Z :=
  match l with
  | [] => m
  | b :: l' => store_bytes (<[p := b]> m) (p + 1) l'
  end.

(** What [n] successive reads of the FIFO register return. *)
Fixpoint fifo_reads (n : nat) (h : H) : list Z * H :=
  match n with
  | O => ([], h)
  | S n' =>
    let '(l, h') := fifo_reads n' (snd (readl h SPI_FIFO)) in
    (u32 (fst (readl h SPI_FIFO)) :: l, h')
  end.

(** The reads of the drain loop entered with status word [c]: pairs of a
    FIFO word and the status word read after it, as long as the status
    shows receive data, for at most [k] rounds. *)
Fixpoint drain_reads (k : nat) (h : H) (c : Z) : list (Z * Z) :=
  if has_flag c SPI_CS_RXD then
    match k with
    | O => []
    | S k' =>
      let h1 := snd (readl h SPI_FIFO) in
      let c' := u32 (fst (readl h1 SPI_CS)) in
      (u32 (fst (readl h SPI_FIFO)), c')
        :: drain_reads k' (snd (readl h1 SPI_CS)) c'
    end
  else [].

(** The device shows an empty receive FIFO after at most [k] reads. *)
Fixpoint rxd_clears (k : nat) (h : H) (c : Z) : bool :=
  if has_flag c SPI_CS_RXD then
    match k with
    | O => false
    | S k' =>
      let h1 := snd (readl h SPI_FIFO) in
      rxd_clears k' (snd (readl h1 SPI_CS)) (u32 (fst (readl h1 SPI_CS)))
    end
  else true.

Definition drains_within (B : nat) : Prop :=
  ∀ (h : H) (c : Z), rxd_clears B h c = true.

(** The status reads of the drain loop as trace events. *)
Definition drain_events (rs : list (Z * Z)) : list event :=
  rs ≫= λ r, [EvRd SPI_FIFO (fst r); EvRd SPI_CS (snd r)].

(** What a push of up to [req] bytes, asked for in world [w], has done in
    world [w']: the status word [c] is read for the word mode; then in
    byte mode the bytes at the tx cursor are written to the FIFO; in wide
    mode they are written as 16-bit units when their number is even, and
    otherwise nothing is written and the remaining length becomes 0. *)
Definition push_post (w : world) (req : Z) (w' : world) : Prop :=
  let n := Z.min req (len w) in
  let c := u32 (fst (readl (base w) SPI_CS)) in
  let bytes := tx_bytes (mem w) (tx_buf w) (Z.to_nat n) in
  mem w' = mem w ∧ rx_buf w' = rx_buf w ∧ done w' = done w ∧
  if has_flag c SPI_CS_LEN then
    if Z.even n then
      trace w' =
        trace w ++ EvRd SPI_CS c :: (EvWr SPI_FIFO <$> wide_words bytes)
      ∧ len w' = len w - n
      ∧ tx_buf w' = (λ p, p + n) <$> tx_buf w
    else
      trace w' =
        trace w
        ++ [EvRd SPI_CS c;
            EvLog "bcm2708_wr_fifo: length must be even, skipping."]
      ∧ len w' = 0
      ∧ tx_buf w' = tx_buf w
  else
    trace w' = trace w ++ EvRd SPI_CS c :: (EvWr SPI_FIFO <$> bytes)
    ∧ len w' = len w - n
    ∧ tx_buf w' = (λ p, p + n) <$> tx_buf w.

(** What a pull of [n] FIFO words, started in world [w], has done in world
    [w']: the low byte of each word went to the rx cursor, if there is
    one. *)
Definition pull_post (w : world) (n : nat) (w' : world) : Prop :=
  let vs := fst (fifo_reads n (base w)) in
  length vs = n
  ∧ trace w' = trace w ++ (EvRd SPI_FIFO <$> vs)
  ∧ base w' = snd (fifo_reads n (base w))
  ∧ mem w' =
      match rx_buf w with
      | Some p => store_bytes (mem w) p (u8 <$> vs)
      | None => mem w
      end
  ∧ rx_buf w' = (λ p, p + Z.of_nat n) <$> rx_buf w
  ∧ tx_buf w' = tx_buf w ∧ len w' = len w ∧ done w' = done w.

(** What the end of a transfer, entered in world [w] with the status word
    [c] just written back, has done in world [w'] when the receive FIFO
    empties after [k] reads: the words were pulled one at a time, the last
    status read shows no receive data, and the completion is raised. *)
Definition drain_post (k : nat) (w : world) (c : Z) (w' : world) : Prop :=
  let rs := drain_reads k (base w) c in
  trace w' = trace w ++ drain_events rs
  ∧ has_flag (List.last (snd <$> rs) c) SPI_CS_RXD = false
  ∧ mem w' =
      match rx_buf w with
      | Some p => store_bytes (mem w) p (u8 ∘ fst <$> rs)
      | None => mem w
      end
  ∧ rx_buf w' = (λ p, p + Z.of_nat (length rs)) <$> rx_buf w
  ∧ tx_buf w' = tx_buf w ∧ len w' = len w
  ∧ done w' = u32 (done w + 1).

(** The completion callbacks of a trace: context, status, actual length. *)
Fixpoint completions (t : list event) : list (Z * Z * Z) :=
  match t with
  | [] => []
  | EvComplete ctx st al :: t' => (ctx, st, al) :: completions t'
  | _ :: t' => completions t'
  end.

(** The values written to register [reg] in a trace. *)
Fixpoint writes_to (reg : Z) (t : list event) : list Z :=
  match t with
  | [] => []
  | EvWr r v :: t' =>
    if r =? reg then v :: writes_to reg t' else writes_to reg t'
  | _ :: t' => writes_to reg t'
  end.

(** Two worlds that differ only in what the pump may change: the clock
    rate, the flag, the queue, the completion callbacks so far and the
    writes of the divisor register are the same. *)
Definition same_ctl (w w' : world) : Prop :=
  clk w' = clk w ∧ stopping w' = stopping w ∧ queue w' = queue w
  ∧ completions (trace w') = completions (trace w)
  ∧ writes_to SPI_CLK (trace w') = writes_to SPI_CLK (trace w).

(** The number of transfers armed in a trace: each arming writes the
    divisor register once, and nothing else writes it. *)
Definition armed (t : list event) : nat := length (writes_to SPI_CLK t).

(** The messages [bcm2708_spi_transfer] lets into the queue have a
    transfer; a peer is configured once [bcm2708_spi_setup] has stored its
    state. *)
Definition queued_ok (m : spi_message) : Prop :=
  transfers m ≠ [] ∧ is_Some (controller_state (msg_spi m)).

(** The loop over the transfers of a message in the words of the
    specification, to be compared with [transfers_loop].
    [spec_passed fuel w m pre m' w']: the transfers of [pre] were
    attempted in list order, each from the world and the message the one
    before it left, none of them as the last of its message, and each
    ended with status 0; they left the message [m'] and the world [w']. *)
Inductive spec_passed (fuel : nat)
  : world → spi_message → list spi_transfer → spi_message → world → Prop :=
  | passed_none w m : spec_passed fuel w m [] m w
  | passed_next w m x pre m1 w1 m' w' :
      bcm2708_process_transfer fuel w m x false = Ret (0, m1, w1) →
      spec_passed fuel w1 m1 pre m' w' →
      spec_passed fuel w m (x :: pre) m' w'.

(** [spec_attempts fuel w m xs r]: the transfers of [xs] before some
    transfer [x] all passed; [x] was attempted next, as the last one
    exactly when nothing follows it; the attempts ended with the result
    [r] of [x]; and something follows [x] only if [x] failed: the first
    transfer that fails stops the later ones, and its error is the final
    status. *)
Definition spec_attempts (fuel : nat) (w : world) (m : spi_message)
    (xs : list spi_transfer) (r : Z * spi_message * world) : Prop :=
  ∃ pre x post mx wx,
    xs = pre ++ x :: post
    ∧ spec_passed fuel w m pre mx wx
    ∧ bcm2708_process_transfer fuel wx mx x
        (match post with [] => true | _ => false end) = Ret r
    ∧ (r.1.1 = 0 → post = []).

(** The worker in the words of the specification, to be compared with
    [work_loop]. [spec_serves fuel w q results w']: the messages of [q]
    were served in queue order; each was taken off the queue, then its
    transfers were attempted, then its completion callback was called
    once, with the status and the actual length the attempts ended with;
    [results] are the callbacks in the order of the calls. *)
Inductive spec_serves (fuel : nat)
  : world → list spi_message → list (Z * Z * Z) → world → Prop :=
  | serves_none w : spec_serves fuel w [] [] w
  | serves_next w m q st m' w1 results w' :
      spec_attempts fuel (set_queue w q) m (transfers m) (st, m', w1) →
      spec_serves fuel
        (emit w1 (EvComplete (msg_context m) st (actual_length m')))
        q results w' →
      spec_serves fuel w (m :: q)
        ((msg_context m, st, actual_length m') :: results) w'.

End Driver.

(** ** Devices *)

(** A scripted device: the reads return the words of a list one after the
    other (and 0 once the list is used up), whatever the register; writes
    change nothing. *)
Record script_dev := mk_script { sd_reads : list Z; sd_irqs : nat }.

Global Instance script_device : Device script_dev := {|
  readl h reg :=
    (default 0 (head (sd_reads h)), mk_script (tail (sd_reads h)) (sd_irqs h));
  writel h reg v := h;
  irq_budget h ms := sd_irqs h
|}.

(** A loopback device with a FIFO of 16 words: every word written to the
    FIFO register comes back in the receive FIFO; the status word shows
    "done", the wide-mode flag as last written, and "receive data" while
    the receive FIFO holds a word. *)
Record loop_dev := mk_loop { ld_wide : bool; ld_rx : list Z; ld_irqs : nat }.

Definition loop_status (h : loop_dev) : Z :=
  Z.lor (Z.lor SPI_CS_DONE (if ld_wide h then SPI_CS_LEN else 0))
    (match take 16 (ld_rx h) with [] => 0 | _ :: _ => SPI_CS_RXD end).

Global Instance loop_device : Device loop_dev := {|
  readl h reg :=
    if reg =? SPI_CS then (loop_status h, h)
    else if reg =? SPI_FIFO then
      (default 0 (head (ld_rx h)),
       mk_loop (ld_wide h) (tail (take 16 (ld_rx h))) (ld_irqs h))
    else (0, h);
  writel h reg v :=
    if reg =? SPI_CS then
      mk_loop (has_flag v SPI_CS_LEN) (ld_rx h) (ld_irqs h)
    else if reg =? SPI_FIFO then
      mk_loop (ld_wide h) (take 16 (ld_rx h ++ [v])) (ld_irqs h)
    else h;
  irq_budget h ms := ld_irqs h
|}.

(** ** Sample inputs *)

(** A status read with "done" and then a mode read with the wide-mode
    flag, for a transfer with 3 bytes left and no buffers. *)
Definition w_wide3 : @world script_dev :=
  mk_world (mk_script [SPI_CS_DONE; SPI_CS_LEN] 0) 250000000 false [] 0
    None None 3 ∅ [].

(** A mode read with the wide-mode flag, for a transfer with 17 bytes
    left and no buffers. *)
Definition w_wide17 : @world script_dev :=
  mk_world (mk_script [SPI_CS_LEN] 0) 250000000 false [] 0
    None None 17 ∅ [].

(** A peer on chip select 0, mode 0, 8 bits, 4 MHz, on a bus clock of
    8 MHz, with the state [bcm2708_spi_setup] stores for it. *)
Definition peer0 : spi_device :=
  mk_spi 4000000 0 0 8 (Some (mk_state 0 2)).

Definition mem3 : gmap Z Z :=
  <[0x1000 := 0x11]> (<[0x1001 := 0x22]> (<[0x1002 := 0x33]> ∅)).

(** The controller after probe, on the loopback device, which delivers
    up to 4 interrupts per wait. *)
Definition w_probe : @world loop_dev :=
  bcm2708_spi_probe (mk_loop false [] 4) 8000000 mem3.

(** Three bytes out of 0x1000 and into 0x2000, no overrides. *)
Definition xfer3 : spi_transfer :=
  mk_xfer (Some 0x1000) (Some 0x2000) 3 false 0 0 0.
Definition msg3 : spi_message := mk_msg peer0 [xfer3] 1 0 0.

(** Three bytes in 9-bit words. *)
Definition xfer_wide3 : spi_transfer :=
  mk_xfer (Some 0x1000) None 3 false 9 0 0.
Definition msg_wide3 : spi_message := mk_msg peer0 [xfer_wide3] 2 0 0.

(** One byte with a speed override of 1 Hz, which no divisor reaches. *)
Definition xfer_slow : spi_transfer :=
  mk_xfer (Some 0x1000) None 1 false 0 0 1.
Definition msg_slow : spi_message := mk_msg peer0 [xfer_slow] 3 0 0.

(** A message without transfers. *)
Definition msg_empty : spi_message := mk_msg peer0 [] 4 0 0.

(** ** Further functions of the driver *)

(** Modelled from the spec: ENXIO of the kernel headers. *)
Definition ENXIO : Z := 6.

(** [bcm2708_spi_cleanup(spi)] *)
Definition bcm2708_spi_cleanup (spi : spi_device) : spi_device :=
  match controller_state spi with
  | Some _ => set_controller_state spi None
  | None => spi
  end.

(** *** Pin multiplexing *)

(** The function-select words behind [gpio]: a map from the word index to
    the word; a word that is not in the map reads as 0. *)
Definition gpio_word (gpio : gmap Z Z) (i : Z) : Z :=
  u32 (default 0 (gpio !! i)).

(** [INP_GPIO(g)]: [*(gpio+((g)/10)) &= ~(7<<(((g)%10)*3))] *)
Definition INP_GPIO (gpio : gmap Z Z) (g : Z) : gmap Z Z :=
  <[Z.quot g 10 :=
      u32 (Z.land (gpio_word gpio (Z.quot g 10))
             (Z.lnot (Z.shiftl 7 (Z.rem g 10 * 3))))]> gpio.

(** [SET_GPIO_ALT(g,a)]:
    [*(gpio+(((g)/10))) |= (((a)<=3?(a)+4:(a)==4?3:2)<<(((g)%10)*3))] *)
Definition SET_GPIO_ALT (gpio : gmap Z Z) (g a : Z) : gmap Z Z :=
  <[Z.quot g 10 :=
      u32 (Z.lor (gpio_word gpio (Z.quot g 10))
             (Z.shiftl (if a <=? 3 then a + 4 else if a =? 4 then 3 else 2)
                (Z.rem g 10 * 3)))]> gpio.

(** The body of the loop of [bcm2708_init_pinmode]. *)
Definition init_pin (gpio : gmap Z Z) (pin : Z) : gmap Z Z :=
  (* set mode to GPIO input first, then to ALT 0 *)
  SET_GPIO_ALT (INP_GPIO gpio pin) pin 0.

(** [bcm2708_init_pinmode()] on the function-select words: SPI is on GPIO
    7..11. *)
Definition bcm2708_init_pinmode (gpio : gmap Z Z) : gmap Z Z :=
  foldl init_pin gpio [7; 8; 9; 10; 11].

(** The function-select field of pin [g]. *)
Definition fsel (gpio : gmap Z Z) (g : Z) : Z :=
  Z.land (Z.shiftr (gpio_word gpio (g / 10)) (g mod 10 * 3)) 7.

(** *** Probe and remove *)

(** The kernel services [bcm2708_spi_probe] and [bcm2708_spi_remove]
    call. *)
Inductive kfun :=
  | platform_get_resource | platform_get_irq | clk_get | init_pinmode
  | spi_alloc_master | ioremap | create_singlethread_workqueue
  | request_irq | clk_prepare_enable | spi_register_master
  | free_irq | clk_disable_unprepare | destroy_workqueue | iounmap
  | spi_master_put | clk_put | flush_work_sync | spi_unregister_master.

Global Instance kfun_eq_dec : EqDecision kfun.
Proof. solve_decision. Defined.

(** A call with whether it succeeded. *)
Definition kcall : Type := kfun * bool.

(** What the platform answers to probe: whether the memory resource is
    there, the interrupt number, the clock (an error pointer's errno or
    the rate), whether the master, the mapping and the workqueue can be
    had, and the results of request_irq and spi_register_master. *)
Record platform := mk_platform {
  plat_regs : bool;
  plat_irq : Z;
  plat_clk : Z + Z;
  plat_master : bool;
  plat_ioremap : bool;
  plat_workq : bool;
  plat_request_irq : Z;
  plat_register : Z
}.

(** The service that gives back what an acquiring service took, as the
    exit labels of [bcm2708_spi_probe] and the calls of
    [bcm2708_spi_remove] pair them. *)
Definition release_of (f : kfun) : option kfun :=
  match f with
  | clk_get => Some clk_put
  | spi_alloc_master => Some spi_master_put
  | ioremap => Some iounmap
  | create_singlethread_workqueue => Some destroy_workqueue
  | request_irq => Some free_irq
  | clk_prepare_enable => Some clk_disable_unprepare
  | spi_register_master => Some spi_unregister_master
  | _ => None
  end.

(** Drops the most recent acquisition that [rel] gives back. *)
Fixpoint give_back (rel : kfun) (held : list kfun) : list kfun :=
  match held with
  | [] => []
  | f :: held' =>
    if decide (release_of f = Some rel) then held'
    else f :: give_back rel held'
  end.

(** The acquisitions that a sequence of calls leaves outstanding, the most
    recent first. *)
Definition outstanding_step (held : list kfun) (c : kcall) : list kfun :=
  match release_of (fst c) with
  | Some _ => if snd c then fst c :: held else held
  | None => give_back (fst c) held
  end.

Definition outstanding (calls : list kcall) : list kfun :=
  foldl outstanding_step [] calls.

Section Platform.
Context {H : Type} `{Device H}.

(** The exit labels of [bcm2708_spi_probe]; each one falls through to the
    next. *)
Definition out_clk_put : list kcall := [(clk_put, true)].
Definition out_master_put : list kcall :=
  (spi_master_put, true) :: out_clk_put.
Definition out_iounmap : list kcall := (iounmap, true) :: out_master_put.
Definition out_workqueue : list kcall :=
  (destroy_workqueue, true) :: out_iounmap.
Definition out_free_irq : list kcall :=
  (free_irq, true) :: (clk_disable_unprepare, true) :: out_workqueue.

(** [bcm2708_spi_probe(pdev)] with the answers [p] of the platform, the
    register window [h] and the memory [m]: the returned value, the calls
    in order, and the controller when the probe succeeds. *)
Definition bcm2708_spi_probe_pdev (p : platform) (h : H) (m : gmap Z Z)
  : Z * list kcall * option world :=
  if negb (plat_regs p) then
    (- ENXIO, [(platform_get_resource, false)], None)
  else
    let calls := [(platform_get_resource, true)] in
    if plat_irq p <? 0 then
      (plat_irq p, calls ++ [(platform_get_irq, false)], None)
    else
      let calls := calls ++ [(platform_get_irq, true)] in
      match plat_clk p with
      | inl err => (err, calls ++ [(clk_get, false)], None)
      | inr rate =>
        let calls := calls ++ [(clk_get, true); (init_pinmode, true)] in
        if negb (plat_master p) then
          (- ENOMEM, calls ++ (spi_alloc_master, false) :: out_clk_put, None)
        else
          let calls := calls ++ [(spi_alloc_master, true)] in
          if negb (plat_ioremap p) then
            (- ENOMEM, calls ++ (ioremap, false) :: out_master_put, None)
          else
            let calls := calls ++ [(ioremap, true)] in
            if negb (plat_workq p) then
              (- ENOMEM,
               calls ++ (create_singlethread_workqueue, false) :: out_iounmap,
               None)
            else
              let calls :=
                calls ++ [(create_singlethread_workqueue, true)] in
              if negb (plat_request_irq p =? 0) then
                (plat_request_irq p,
                 calls ++ (request_irq, false) :: out_workqueue, None)
              else
                let calls :=
                  calls ++ [(request_irq, true); (clk_prepare_enable, true)] in
                (* initialise the hardware *)
                let w := bcm2708_spi_probe h rate m in
                if negb (plat_register p =? 0) then
                  (plat_register p,
                   calls ++ (spi_register_master, false) :: out_free_irq,
                   None)
                else
                  (0, calls ++ [(spi_register_master, true)], Some w)
      end.

(** [bcm2708_spi_remove(pdev)]: the returned value, the calls in order and
    the controller at the end. *)
Definition bcm2708_spi_remove_pdev (fuel : nat) (w : world)
  : outcome (Z * list kcall * world) :=
  (* reset the hardware and block queue progress *)
  w ← bcm2708_spi_remove fuel w;
  Ret (0,
       [(flush_work_sync, true); (clk_disable_unprepare, true);
        (clk_put, true); (free_irq, true); (iounmap, true);
        (spi_unregister_master, true)],
       w).

(** *** More vocabulary *)

(** The device never shows the wide-mode flag. *)
Definition byte_mode : Prop :=
  ∀ h : H, has_flag (u32 (fst (readl h SPI_CS))) SPI_CS_LEN = false.

(** What the pushes between world [w] and world [w'] sent: the values
    [ws] written to the FIFO register are at most as many as the remaining
    length dropped by; in byte mode they are exactly as many, and without
    an rx buffer they are the bytes at the tx cursor, which moves on by
    their number, and memory stays as it is. *)
Definition fifo_sent (w w' : @world H) : Prop :=
  ∃ ws,
    writes_to SPI_FIFO (trace w') = writes_to SPI_FIFO (trace w) ++ ws
    ∧ Z.of_nat (length ws) <= len w - len w'
    ∧ (byte_mode →
       Z.of_nat (length ws) = len w - len w'
       ∧ (rx_buf w = None →
          ws = tx_bytes (mem w) (tx_buf w) (Z.to_nat (len w - len w'))
          ∧ mem w' = mem w ∧ rx_buf w' = None
          ∧ tx_buf w' = (λ p, p + (len w - len w')) <$> tx_buf w)).

End Platform.

(** The control word [bcm2708_process_transfer] arms a transfer with. *)
Definition arm_word (stp : bcm2708_spi_state) : Z :=
  u32 (Z.lor (Z.lor (Z.lor (cs stp) SPI_CS_INTR) SPI_CS_INTD) SPI_CS_TA).

(** A loopback device that is always in byte mode: as [loop_dev], without
    the wide-mode flag. *)
Record byte_dev := mk_byte { bd_rx : list Z; bd_irqs : nat }.

Global Instance byte_device : Device byte_dev | 100 := {|
  readl h reg :=
    if reg =? SPI_CS then
      (Z.lor SPI_CS_DONE
         (match take 16 (bd_rx h) with [] => 0 | _ :: _ => SPI_CS_RXD end),
       h)
    else if reg =? SPI_FIFO then
      (default 0 (head (bd_rx h)),
       mk_byte (tail (take 16 (bd_rx h))) (bd_irqs h))
    else (0, h);
  writel h reg v :=
    if reg =? SPI_FIFO then mk_byte (take 16 (bd_rx h ++ [v])) (bd_irqs h)
    else h;
  irq_budget h ms := bd_irqs h
|}.

(** The completion callbacks of a worker that goes through the queue [q]
    of a stopping controller with [st] in its local status: a message
    with a transfer gets -ESHUTDOWN, a message without one the status the
    message before it left; context and actual length are those of the
    message. *)
Fixpoint shutdown_callbacks (st : Z) (q : list spi_message) : list event :=
  match q with
  | [] => []
  | m :: q' =>
    let st' := match transfers m with [] => st | _ :: _ => - ESHUTDOWN end in
    EvComplete (msg_context m) st' (actual_length m)
      :: shutdown_callbacks st' q'
  end.

(** The lengths of a list of transfers, added up. *)
Definition sum_len (xs : list spi_transfer) : Z :=
  foldr (λ x n, xfer_len x + n) 0 xs.

(** What [bcm2708_spi_transfer] checks on a transfer: a buffer unless the
    length is 0, and a valid width when only the width is overridden. *)
Definition xfer_checked (x : spi_transfer) : Prop :=
  (is_Some (xfer_tx_buf x) ∨ is_Some (xfer_rx_buf x) ∨ xfer_len x = 0)
  ∧ (xfer_bits_per_word x ≠ 0 → xfer_speed_hz x = 0 →
     u8 (xfer_bits_per_word x) = 8 ∨ u8 (xfer_bits_per_word x) = 9).

(** ** More sample inputs *)

(** The controller after probe on the byte-mode loopback device. *)
Definition w_byte : @world byte_dev :=
  bcm2708_spi_probe (mk_byte [] 4) 8000000 mem3.

(** Three bytes out of 0x1000, nothing stored. *)
Definition xfer_tx3 : spi_transfer :=
  mk_xfer (Some 0x1000) None 3 false 0 0 0.
Definition msg_tx3 : spi_message := mk_msg peer0 [xfer_tx3] 5 0 0.

(** A controller whose device never raises a flag and delivers two
    interrupts per wait. *)
Definition w_silent : @world script_dev :=
  bcm2708_spi_probe (mk_script [] 2) 8000000 mem3.

(** Two transfers in one message: the first passes, the second has a
    speed override that no divisor reaches. *)
Definition msg_mixed : spi_message := mk_msg peer0 [xfer3; xfer_slow] 6 0 0.

(** A platform on which every step of probe succeeds, with a bus clock of
    8 MHz. *)
Definition plat_ok : platform :=
  mk_platform true 80 (inr 8000000) true true true 0 0.

(** * Proofs *)

(** ** Machine integers and the resolver *)

Lemma int32_small x : - 2 ^ 31 <= x < 2 ^ 31 → int32 x = x.
Proof. intros Hx. unfold int32. rewrite Z.mod_small by lia. lia. Qed.

Lemma u16_small x : 0 <= x < 2 ^ 16 → u16 x = x.
Proof. intros Hx. unfold u16. apply Z.mod_small. lia. Qed.

Lemma u32_small x : 0 <= x < 2 ^ 32 → u32 x = x.
Proof. intros Hx. unfold u32. apply Z.mod_small. lia. Qed.

Lemma u8_small x : 0 <= x < 2 ^ 8 → u8 x = x.
Proof. intros Hx. unfold u8. apply Z.mod_small. lia. Qed.

Lemma DIV_ROUND_UP_spec n d :
  0 < d → DIV_ROUND_UP n d * d < n + d ∧ n <= DIV_ROUND_UP n d * d.
Proof.
  intros Hd. unfold DIV_ROUND_UP.
  pose proof (Z.div_mod (n + d - 1) d ltac:(lia)) as E.
  pose proof (Z.mod_pos_bound (n + d - 1) d Hd) as B.
  nia.
Qed.

Lemma DIV_ROUND_UP_least n d q :
  0 < d → n <= q * d → DIV_ROUND_UP n d <= q.
Proof.
  intros Hd Hq. destruct (DIV_ROUND_UP_spec n d Hd) as [Hlt _]. nia.
Qed.

Lemma roundup_pow_of_two_ge n : 0 < n → n <= roundup_pow_of_two n.
Proof.
  intros Hn. unfold roundup_pow_of_two.
  apply Z.log2_up_le_pow2; [done | lia].
Qed.

Lemma roundup_pow_of_two_least n j :
  0 < n → 0 <= j → n <= 2 ^ j → roundup_pow_of_two n <= 2 ^ j.
Proof.
  intros Hn Hj Hle. unfold roundup_pow_of_two.
  apply Z.pow_le_mono_r; [lia |].
  by apply Z.log2_up_le_pow2.
Qed.

Lemma roundup_pow_of_two_le_pow n j :
  0 < n → 0 <= j → n <= 2 ^ j → Z.log2_up n <= j.
Proof. intros. by apply Z.log2_up_le_pow2. Qed.

(** The value of the local [cdiv] for a request below the bus clock. *)
Lemma setup_cdiv_slow bus_hz hz :
  0 < hz < bus_hz → bus_hz <= 2 ^ 30 →
  let d := roundup_pow_of_two (DIV_ROUND_UP bus_hz hz) in
  2 <= d <= 2 ^ 30 ∧
  setup_cdiv bus_hz hz =
    if 65536 <? d then None else if d =? 65536 then Some 0 else Some d.
Proof.
  intros Hhz Hbus d.
  destruct (DIV_ROUND_UP_spec bus_hz hz ltac:(lia)) as [Hlt Hge].
  assert (Hq : 2 <= DIV_ROUND_UP bus_hz hz <= 2 ^ 30) by nia.
  assert (Hd : 2 <= d <= 2 ^ 30).
  { split.
    - pose proof (roundup_pow_of_two_ge (DIV_ROUND_UP bus_hz hz)). lia.
    - apply roundup_pow_of_two_least; lia. }
  split; [done |].
  unfold setup_cdiv.
  destruct (Z.leb_spec bus_hz hz); [lia |].
  destruct (Z.eqb_spec hz 0); [lia |]. simpl.
  rewrite (int32_small (DIV_ROUND_UP bus_hz hz)) by lia.
  rewrite (u32_small (DIV_ROUND_UP bus_hz hz)) by lia.
  fold d. rewrite (int32_small d) by lia.
  destruct (65536 <? d); [done |].
  destruct (Z.eqb_spec d 65536); [done |].
  destruct (Z.eqb_spec d 1); [lia | done].
Qed.

Lemma u8_range x : 0 <= u8 x < 2 ^ 8.
Proof. unfold u8. apply Z.mod_pos_bound. lia. Qed.

Lemma has_flag_pow2 x n :
  0 <= n → has_flag x (2 ^ n) = Z.testbit x n.
Proof.
  intros Hn. unfold has_flag.
  destruct (Z.testbit x n) eqn:E.
  - destruct (Z.eqb_spec (Z.land x (2 ^ n)) 0) as [E0|]; [| done].
    assert (Z.testbit (Z.land x (2 ^ n)) n = true) as E1.
    { rewrite Z.land_spec, E, Z.pow2_bits_true; done. }
    rewrite E0, Z.bits_0 in E1. done.
  - destruct (Z.eqb_spec (Z.land x (2 ^ n)) 0) as [|N]; [done |].
    exfalso. apply N. apply Z.bits_inj'. intros m Hm.
    rewrite Z.land_spec, Z.bits_0, Z.pow2_bits_eqb by done.
    destruct (Z.eqb_spec n m) as [->|]; [by rewrite E | by rewrite andb_false_r].
Qed.

Lemma has_flag_LEN x : has_flag x SPI_CS_LEN = Z.testbit x 13.
Proof. apply (has_flag_pow2 x 13). lia. Qed.

Lemma testbit_13_byte x : 0 <= x < 2 ^ 8 → Z.testbit x 13 = false.
Proof.
  intros Hx. destruct (Z.eq_dec x 0) as [->|]; [apply Z.bits_0 |].
  apply Z.bits_above_log2; [lia |].
  apply Z.log2_lt_pow2; lia.
Qed.

Lemma testbit_13_cspol csel :
  0 <= csel → Z.testbit (u32 (Z.shiftl SPI_CS_CSPOL0 csel)) 13 = false.
Proof.
  intros Hc. unfold u32.
  rewrite Z.mod_pow2_bits_low by lia.
  rewrite Z.shiftl_spec by lia.
  destruct (Z.ltb_spec (13 - csel) 0).
  - by apply Z.testbit_neg_r.
  - change SPI_CS_CSPOL0 with (2 ^ 21). apply Z.pow2_bits_false. lia.
Qed.

(** The mode and chip-select bits never touch the wide-mode flag. *)
Lemma setup_cs_mode_LEN c0 csel mode :
  0 <= csel < 2 ^ 8 →
  Z.testbit (setup_cs_mode c0 csel mode) 13 = Z.testbit c0 13.
Proof.
  intros Hc. unfold setup_cs_mode.
  pose proof (testbit_13_byte csel Hc) as Hb.
  pose proof (testbit_13_cspol csel ltac:(lia)) as Hp.
  repeat match goal with
         | |- context [if ?b then _ else _] => destruct b
         end;
    simpl negb; cbv iota;
    repeat rewrite Z.lor_spec; rewrite ?Hb, ?Hp;
    repeat match goal with
           | |- context [Z.testbit ?c 13] =>
             lazymatch c with
             | c0 => fail
             | _ => change (Z.testbit c 13) with false
             end
           end;
    rewrite ?orb_false_r; reflexivity.
Qed.

(** With a valid word width the resolver fails or succeeds with the
    divisor part, and stores its value as it is. *)
Lemma setup_state_cdiv bus_hz hz csel mode bpw :
  u8 bpw = 8 ∨ u8 bpw = 9 →
  match setup_cdiv bus_hz hz with
  | None => bcm2708_setup_state bus_hz hz csel mode bpw = inl (- EINVAL)
  | Some d =>
    ∃ st, bcm2708_setup_state bus_hz hz csel mode bpw = inr st
          ∧ cdiv st = u16 d
  end.
Proof.
  intros Hb. unfold bcm2708_setup_state.
  destruct (setup_cdiv bus_hz hz); [| done].
  destruct Hb as [-> | ->]; simpl; eauto.
Qed.

Lemma roundup_pow_of_two_pow n :
  0 < n → ∃ k, 0 <= k ∧ roundup_pow_of_two n = 2 ^ k.
Proof.
  intros Hn. exists (Z.log2_up n). split; [apply Z.log2_up_nonneg | done].
Qed.

Lemma pow2_le_inv k j : 0 <= k → 2 ^ k <= 2 ^ j → 0 <= j → k <= j.
Proof.
  intros Hk Hle Hj. destruct (Z.le_gt_cases k j); [done |].
  pose proof (Z.pow_lt_mono_r 2 j k ltac:(lia) ltac:(lia) ltac:(lia)). lia.
Qed.

(** A resolver that succeeds was given a valid word width. *)
Lemma setup_state_inr_bpw bus_hz hz csel mode bpw st :
  bcm2708_setup_state bus_hz hz csel mode bpw = inr st →
  u8 bpw = 8 ∨ u8 bpw = 9.
Proof.
  unfold bcm2708_setup_state. destruct (setup_cdiv bus_hz hz); [| done].
  destruct (Z.eqb_spec (u8 bpw) 8); [auto |].
  destruct (Z.eqb_spec (u8 bpw) 9); [auto | done].
Qed.

(** The divisor of a nonzero request below the bus clock: the least power
    of two that brings the bus clock down to the request. *)
Lemma resolver_slow bus_hz hz :
  0 < hz < bus_hz → bus_hz <= 2 ^ 30 →
  ∃ k, 0 <= k ∧ 2 ^ k = roundup_pow_of_two (DIV_ROUND_UP bus_hz hz)
    ∧ 2 <= 2 ^ k
    ∧ bus_hz <= 2 ^ k * hz
    ∧ (∀ j, 0 <= j → bus_hz <= 2 ^ j * hz → 2 ^ k <= 2 ^ j)
    ∧ setup_cdiv bus_hz hz =
        if 65536 <? 2 ^ k then None
        else if 2 ^ k =? 65536 then Some 0 else Some (2 ^ k).
Proof.
  intros Hhz Hbus.
  destruct (setup_cdiv_slow bus_hz hz Hhz Hbus) as [Hd Hc].
  cbv zeta in Hd, Hc.
  destruct (DIV_ROUND_UP_spec bus_hz hz ltac:(lia)) as [Hlt Hge].
  assert (Hq : 0 < DIV_ROUND_UP bus_hz hz) by nia.
  destruct (roundup_pow_of_two_pow _ Hq) as (k & Hk & Ek).
  pose proof (roundup_pow_of_two_ge _ Hq) as Hqd.
  exists k. rewrite <- Ek. split; [done |]. split; [done |].
  split; [lia |]. split; [nia |]. split; [| done].
  intros j Hj Hle.
  apply roundup_pow_of_two_least; [done | done |].
  apply DIV_ROUND_UP_least; lia.
Qed.

(** C8. For every word width: a width other than 8 and 9 makes the
    resolver fail with -EINVAL; whenever the resolver succeeds the width
    is 8 and the wide-mode flag of the control word is clear, or the width
    is 9 and the flag is set; and with width 8 or 9 the resolver succeeds
    whenever the divisor resolves. *)
Theorem C8_word_width (bus_hz hz csel mode bpw : Z) :
  (u8 bpw ≠ 8 → u8 bpw ≠ 9 →
   bcm2708_setup_state bus_hz hz csel mode bpw = inl (- EINVAL))
  ∧ (∀ st, bcm2708_setup_state bus_hz hz csel mode bpw = inr st →
       (u8 bpw = 8 ∧ has_flag (cs st) SPI_CS_LEN = false)
       ∨ (u8 bpw = 9 ∧ has_flag (cs st) SPI_CS_LEN = true))
  ∧ (∀ d, setup_cdiv bus_hz hz = Some d → u8 bpw = 8 ∨ u8 bpw = 9 →
       ∃ st, bcm2708_setup_state bus_hz hz csel mode bpw = inr st).
Proof.
  unfold bcm2708_setup_state. split; [| split].
  - intros H8 H9. destruct (setup_cdiv bus_hz hz); [| done].
    destruct (Z.eqb_spec (u8 bpw) 8); [done |].
    destruct (Z.eqb_spec (u8 bpw) 9); done.
  - intros st. destruct (setup_cdiv bus_hz hz); [| done].
    destruct (Z.eqb_spec (u8 bpw) 8) as [E8|].
    + intros [= <-]. left. split; [done |]. simpl cs.
      rewrite has_flag_LEN, setup_cs_mode_LEN by apply u8_range. done.
    + destruct (Z.eqb_spec (u8 bpw) 9) as [E9|]; [| done].
      intros [= <-]. right. split; [done |]. simpl cs.
      rewrite has_flag_LEN, setup_cs_mode_LEN by apply u8_range. done.
  - intros d -> [-> | ->]; simpl; eauto.
Qed.

Lemma C8_word_width_witness :
  bcm2708_setup_state 250000000 1000000 0 0 7 = inl (- EINVAL)
  ∧ ∃ st, bcm2708_setup_state 250000000 1000000 0 0 9 = inr st.
Proof.
  split.
  - apply (proj1 (C8_word_width 250000000 1000000 0 0 7)); discriminate.
  - apply (proj2 (proj2 (C8_word_width 250000000 1000000 0 0 9)) 256);
      [reflexivity | right; reflexivity].
Defined.

(** C2 (amended). For a bus clock of at most 2^30 Hz, a requested
    frequency that fits a u32 and a valid word width: if the request is at
    least the bus clock the divisor is 2 (this test comes first, also for a
    request of 0); otherwise a request of 0 gives the encoding 0; otherwise
    the divisor is round-up(bus_hz / hz) rounded up to the next power of
    two, the least power of two [d] with [bus_hz <= d * hz]: above 65536
    the resolver fails with -EINVAL, 65536 is stored as 0, 1 would be
    stored as 2, and any other value is stored as it is. *)
Theorem C2_clock_divisor (bus_hz hz csel mode bpw : Z) :
  0 <= bus_hz <= 2 ^ 30 → 0 <= hz < 2 ^ 32 → u8 bpw = 8 ∨ u8 bpw = 9 →
  let r := bcm2708_setup_state bus_hz hz csel mode bpw in
  (bus_hz <= hz → ∃ st, r = inr st ∧ cdiv st = 2)
  ∧ (hz < bus_hz → hz = 0 → ∃ st, r = inr st ∧ cdiv st = 0)
  ∧ (hz < bus_hz → hz ≠ 0 →
     ∃ k, 0 <= k ∧ 2 ^ k = roundup_pow_of_two (DIV_ROUND_UP bus_hz hz)
       ∧ bus_hz <= 2 ^ k * hz
       ∧ (∀ j, 0 <= j → bus_hz <= 2 ^ j * hz → 2 ^ k <= 2 ^ j)
       ∧ (65536 < 2 ^ k → r = inl (- EINVAL))
       ∧ (2 ^ k = 65536 → ∃ st, r = inr st ∧ cdiv st = 0)
       ∧ (2 ^ k = 1 → ∃ st, r = inr st ∧ cdiv st = 2)
       ∧ (1 < 2 ^ k < 65536 → ∃ st, r = inr st ∧ cdiv st = 2 ^ k)).
Proof.
  intros Hbus Hhz Hb r.
  pose proof (setup_state_cdiv bus_hz hz csel mode bpw Hb) as Hr.
  fold r in Hr.
  split; [| split].
  - intros Hfast. unfold setup_cdiv in Hr.
    destruct (Z.leb_spec bus_hz hz); [| lia]. done.
  - intros Hslow ->. unfold setup_cdiv in Hr.
    destruct (Z.leb_spec bus_hz 0); [lia |]. done.
  - intros Hslow Hnz.
    destruct (resolver_slow bus_hz hz ltac:(lia) ltac:(lia))
      as (k & Hk & Ek & H2 & Hge & Hleast & Hc).
    rewrite Hc in Hr. clear Hc.
    exists k. do 4 (split; [done |]).
    split; [| split; [| split]].
    + intros Hbig. destruct (Z.ltb_spec 65536 (2 ^ k)); [done | lia].
    + intros E. rewrite E in Hr. done.
    + lia.
    + intros Hmid. destruct (Z.ltb_spec 65536 (2 ^ k)); [lia |].
      destruct (Z.eqb_spec (2 ^ k) 65536); [lia |].
      destruct Hr as (st & -> & Hst). exists st. split; [done |].
      rewrite Hst. apply u16_small. lia.
Qed.

Lemma C2_clock_divisor_witness :
  ∃ st, bcm2708_setup_state 250000000 500000000 0 0 8 = inr st ∧ cdiv st = 2.
Proof.
  apply (proj1 (C2_clock_divisor 250000000 500000000 0 0 8
                  ltac:(lia) ltac:(lia) ltac:(left; reflexivity))).
  lia.
Defined.

Lemma C2_counterexample :
  bcm2708_setup_state 0 0 0 0 8 = inr (mk_state 0 2) ∧
  ¬ (∃ st, bcm2708_setup_state 0 0 0 0 8 = inr st ∧ cdiv st = 0).
Proof.
  split; [reflexivity |]. intros (st & E & Hc).
  vm_compute in E. injection E as <-. discriminate Hc.
Qed.

(** C6 (amended). Whenever the resolver succeeds, for a bus clock of at
    most 2^30 Hz: the stored divisor is 0 or a power of two from 2 to
    32768, so the divisor the hardware applies is a power of two from 2 to
    65536; for a nonzero request below the bus clock the resulting clock
    is at most the request; for a request of at least the bus clock the
    divisor is 2 and the clock is bus_hz / 2; for a request of 0 the
    encoding is 0 and the clock is bus_hz / 65536. *)
Theorem C6_divisor_range (bus_hz hz csel mode bpw : Z)
    (st : bcm2708_spi_state) :
  0 <= bus_hz <= 2 ^ 30 → 0 <= hz < 2 ^ 32 →
  bcm2708_setup_state bus_hz hz csel mode bpw = inr st →
  (cdiv st = 0 ∨ ∃ k, 1 <= k <= 15 ∧ cdiv st = 2 ^ k)
  ∧ (∃ k, 1 <= k <= 16 ∧ effective_divisor (cdiv st) = 2 ^ k)
  ∧ (0 < hz < bus_hz → bus_hz / effective_divisor (cdiv st) <= hz)
  ∧ (bus_hz <= hz →
     cdiv st = 2 ∧ bus_hz / effective_divisor (cdiv st) = bus_hz / 2)
  ∧ (hz = 0 → 0 < bus_hz →
     cdiv st = 0 ∧ bus_hz / effective_divisor (cdiv st) = bus_hz / 65536).
Proof.
  intros Hbus Hhz Hst.
  pose proof (setup_state_cdiv bus_hz hz csel mode bpw
                (setup_state_inr_bpw _ _ _ _ _ _ Hst)) as Hr.
  rewrite Hst in Hr.
  destruct (Z.le_gt_cases bus_hz hz) as [Hc | Hc].
  - (* as fast as the bus allows *)
    unfold setup_cdiv in Hr. destruct (Z.leb_spec bus_hz hz); [| lia].
    destruct Hr as (st' & [= <-] & E). change (u16 2) with 2 in E. rewrite E.
    split; [right; exists 1; split; [lia | done] |].
    split; [exists 1; split; [lia | done] |].
    split; [lia |]. split; [done |]. lia.
  - destruct (Z.eq_dec hz 0) as [-> | Hnz].
    + (* slowest *)
      unfold setup_cdiv in Hr. destruct (Z.leb_spec bus_hz 0); [lia |].
      simpl in Hr. destruct Hr as (st' & [= <-] & E).
      change (u16 0) with 0 in E. rewrite E.
      split; [by left |].
      split; [exists 16; split; [lia | done] |].
      split; [lia |]. split; [lia |]. done.
    + destruct (resolver_slow bus_hz hz ltac:(lia) ltac:(lia))
        as (k & Hk & Ek & H2 & Hge & Hleast & Hcd).
      rewrite Hcd in Hr. clear Hcd.
      destruct (Z.ltb_spec 65536 (2 ^ k)); [done |].
      destruct (Z.eqb_spec (2 ^ k) 65536) as [E64 | N64].
      * destruct Hr as (st' & [= <-] & E). change (u16 0) with 0 in E.
        rewrite E.
        split; [by left |].
        split; [exists 16; split; [lia | done] |].
        split; [| split; lia].
        intros _. change (effective_divisor 0) with 65536.
        apply Z.div_le_upper_bound; lia.
      * destruct Hr as (st' & [= <-] & E).
        rewrite u16_small in E by lia. rewrite E.
        assert (1 <= k <= 15).
        { split.
          - apply (pow2_le_inv 1 k); lia.
          - assert (k < 16); [| lia].
            apply (Z.pow_lt_mono_r_iff 2); lia. }
        unfold effective_divisor.
        destruct (Z.eqb_spec (2 ^ k) 0); [lia |].
        split; [right; exists k; done |].
        split; [exists k; split; [lia | done] |].
        split; [| split; lia].
        intros _. apply Z.div_le_upper_bound; lia.
Qed.

Lemma C6_divisor_range_witness :
  bcm2708_setup_state 250000000 1000000 0 0 8 = inr (mk_state 0 256) ∧
  250000000 / effective_divisor 256 <= 1000000.
Proof.
  split; [reflexivity |].
  refine (proj1 (proj2 (proj2 (C6_divisor_range 250000000 1000000 0 0 8
            (mk_state 0 256) _ _ _))) _);
    [lia | lia | reflexivity | lia].
Defined.

(** Beyond 2^30 Hz the [int] divisor wraps: a request of 1 Hz on a bus
    clock of 2^31 Hz, which needs a divisor of 2^31, resolves to the
    encoding 0 instead of failing. *)
Example setup_state_wraps :
  bcm2708_setup_state (2 ^ 31) 1 0 0 8 = inr (mk_state 0 0).
Proof. reflexivity. Qed.

(** The example of the specification: 4 MHz on a bus clock of 8 MHz. *)
Example setup_state_8MHz :
  bcm2708_setup_state 8000000 4000000 0 0 8 = inr (mk_state 0 2).
Proof. reflexivity. Qed.

Lemma C6_counterexample :
  bcm2708_setup_state 250000000 0 0 0 8 = inr (mk_state 0 0)
  ∧ ¬ (250000000 <= 0)
  ∧ ¬ (250000000 / effective_divisor 0 <= 0).
Proof.
  split; [reflexivity |]. split; [lia |].
  vm_compute. intros Hc. apply Hc. reflexivity.
Qed.

(** ** Traces and memory *)

Lemma completions_app t1 t2 :
  completions (t1 ++ t2) = completions t1 ++ completions t2.
Proof.
  induction t1 as [| e t1 IH]; [done |].
  destruct e; simpl; rewrite ?IH; done.
Qed.

Lemma completions_rd reg l : completions (EvRd reg <$> l) = [].
Proof. induction l; done. Qed.

Lemma completions_wr reg l : completions (EvWr reg <$> l) = [].
Proof. induction l; done. Qed.

Lemma writes_to_app reg t1 t2 :
  writes_to reg (t1 ++ t2) = writes_to reg t1 ++ writes_to reg t2.
Proof.
  induction t1 as [| e t1 IH]; [done |].
  destruct e; simpl; rewrite ?IH; try done.
  by destruct (_ =? _).
Qed.

Lemma writes_to_rd reg r l : writes_to reg (EvRd r <$> l) = [].
Proof. induction l; done. Qed.

Lemma writes_to_wr_ne reg r l : r ≠ reg → writes_to reg (EvWr r <$> l) = [].
Proof.
  intros Hne. induction l as [| v l IH]; [done |]. simpl.
  destruct (Z.eqb_spec r reg); done.
Qed.

Lemma writes_to_wr_eq reg l : writes_to reg (EvWr reg <$> l) = l.
Proof.
  induction l as [| v l IH]; [done |]. simpl.
  rewrite Z.eqb_refl. by f_equal.
Qed.

Lemma load_range m a : 0 <= load m a < 2 ^ 8.
Proof. unfold load. apply u8_range. Qed.

Lemma u32_load m a : u32 (load m a) = load m a.
Proof. apply u32_small. pose proof (load_range m a). lia. Qed.

Lemma tx_bytes_S m p n :
  tx_bytes m p (S n) =
  match p with
  | Some a => load m a :: tx_bytes m (Some (a + 1)) n
  | None => 0 :: tx_bytes m None n
  end.
Proof.
  destruct p as [a |]; [| done]. unfold tx_bytes.
  rewrite <- cons_seq, fmap_cons, <- fmap_S_seq, <- list_fmap_compose.
  f_equal; [f_equal; lia |].
  apply list_fmap_ext. intros _ i _. simpl. f_equal. lia.
Qed.

Lemma tx_bytes_length m p n : length (tx_bytes m p n) = n.
Proof.
  destruct p; simpl; [by rewrite length_fmap, length_seq | apply length_replicate].
Qed.

Lemma mask_irq_bits c :
  let c0 := Z.land c (Z.lnot (Z.lor SPI_CS_INTR SPI_CS_INTD)) in
  has_flag c0 SPI_CS_INTR = false ∧ has_flag c0 SPI_CS_INTD = false
  ∧ ∀ i, 0 <= i → i ≠ 9 → i ≠ 10 → Z.testbit c0 i = Z.testbit c i.
Proof.
  cbv zeta. split; [| split].
  - rewrite (has_flag_pow2 _ 10), Z.land_spec, Z.lnot_spec by lia.
    apply andb_false_r.
  - rewrite (has_flag_pow2 _ 9), Z.land_spec, Z.lnot_spec by lia.
    apply andb_false_r.
  - intros i Hi H9 H10.
    rewrite Z.land_spec, Z.lnot_spec, Z.lor_spec by lia.
    change SPI_CS_INTR with (2 ^ 10). change SPI_CS_INTD with (2 ^ 9).
    rewrite !Z.pow2_bits_false by lia. apply andb_true_r.
Qed.

(** ** The pump and the worker, for every device *)

Section Proofs.
Context {H : Type} `{Device H}.
Implicit Types w : @world H.

Lemma same_ctl_refl w : same_ctl w w.
Proof. done. Qed.

Lemma same_ctl_trans w1 w2 w3 :
  same_ctl w1 w2 → same_ctl w2 w3 → same_ctl w1 w3.
Proof.
  unfold same_ctl. intros (?&?&?&?&?) (?&?&?&?&?). repeat split; congruence.
Qed.

Lemma wr_fifo_step_spec w :
  let w' := wr_fifo_step w in
  trace w' = trace w ++ (EvWr SPI_FIFO <$> tx_bytes (mem w) (tx_buf w) 1)
  ∧ tx_buf w' = (λ p, p + 1) <$> tx_buf w
  ∧ mem w' = mem w ∧ rx_buf w' = rx_buf w ∧ done w' = done w
  ∧ clk w' = clk w ∧ stopping w' = stopping w ∧ queue w' = queue w
  ∧ len w' = int32 (len w - 1).
Proof.
  unfold wr_fifo_step. destruct (tx_buf w) as [a |] eqn:Etx; simpl.
  - rewrite u32_load. change (Z.of_nat 0) with 0. rewrite Z.add_0_r. done.
  - done.
Qed.

Lemma wr_fifo_loop_spec n : ∀ w,
  let w' := wr_fifo_loop n w in
  trace w' = trace w ++ (EvWr SPI_FIFO <$> tx_bytes (mem w) (tx_buf w) n)
  ∧ tx_buf w' = (λ p, p + Z.of_nat n) <$> tx_buf w
  ∧ mem w' = mem w ∧ rx_buf w' = rx_buf w ∧ done w' = done w
  ∧ clk w' = clk w ∧ stopping w' = stopping w ∧ queue w' = queue w
  ∧ (Z.of_nat n <= len w < 2 ^ 31 → len w' = len w - Z.of_nat n).
Proof.
  induction n as [| n IH]; intros w.
  - simpl. rewrite Z.sub_0_r. destruct (tx_buf w); simpl;
      rewrite ?app_nil_r, ?Z.add_0_r; done.
  - cbv zeta. change (wr_fifo_loop (S n) w) with (wr_fifo_loop n (wr_fifo_step w)).
    destruct (IH (wr_fifo_step w)) as (Ht & Hp & Hm & Hr & Hd & Hc & Hs & Hq & Hl).
    destruct (wr_fifo_step_spec w) as (Ht1 & Hp1 & Hm1 & Hr1 & Hd1 & Hc1 & Hs1 & Hq1 & Hl1).
    rewrite Ht, Hp, Hm, Hr, Hd, Hc, Hs, Hq. clear IH Ht Hp Hm Hr Hd Hc Hs Hq.
    rewrite Ht1, Hp1, Hm1, Hr1, Hd1, Hc1, Hs1, Hq1.
    rewrite (tx_bytes_S _ _ n), <- app_assoc.
    repeat split; try done.
    + f_equal. rewrite (tx_bytes_S _ _ 0). by destruct (tx_buf w).
    + destruct (tx_buf w); simpl; f_equal; lia.
    + intros Hlen. rewrite Hl1, int32_small in Hl by lia. rewrite Hl; lia.
Qed.

Lemma wide_words_tx_bytes_SS m p n :
  wide_words (tx_bytes m p (S (S n))) =
  match p with
  | Some a =>
    (load m a + 2 ^ 8 * load m (a + 1))
      :: wide_words (tx_bytes m (Some (a + 2)) n)
  | None => 0 :: wide_words (tx_bytes m None n)
  end.
Proof.
  rewrite tx_bytes_S. destruct p as [a |].
  - rewrite tx_bytes_S. cbn [wide_words].
    replace (a + 1 + 1) with (a + 2) by lia. done.
  - rewrite tx_bytes_S. done.
Qed.

Lemma wr_fifo_lossi_step_spec w :
  let w' := wr_fifo_lossi_step w in
  trace w' =
    trace w ++ (EvWr SPI_FIFO <$> wide_words (tx_bytes (mem w) (tx_buf w) 2))
  ∧ tx_buf w' = (λ p, p + 2) <$> tx_buf w
  ∧ mem w' = mem w ∧ rx_buf w' = rx_buf w ∧ done w' = done w
  ∧ clk w' = clk w ∧ stopping w' = stopping w ∧ queue w' = queue w
  ∧ len w' = int32 (len w - 2).
Proof.
  rewrite (wide_words_tx_bytes_SS _ _ 0).
  unfold wr_fifo_lossi_step. destruct (tx_buf w) as [a |] eqn:Etx; simpl.
  - rewrite u32_small; [done |].
    pose proof (load_range (mem w) a). pose proof (load_range (mem w) (a + 1)).
    lia.
  - done.
Qed.

Lemma wr_fifo_lossi_loop_spec n : ∀ w,
  let w' := wr_fifo_lossi_loop n w in
  trace w' =
    trace w
    ++ (EvWr SPI_FIFO <$> wide_words (tx_bytes (mem w) (tx_buf w) (2 * n)))
  ∧ tx_buf w' = (λ p, p + 2 * Z.of_nat n) <$> tx_buf w
  ∧ mem w' = mem w ∧ rx_buf w' = rx_buf w ∧ done w' = done w
  ∧ clk w' = clk w ∧ stopping w' = stopping w ∧ queue w' = queue w
  ∧ (2 * Z.of_nat n <= len w < 2 ^ 31 → len w' = len w - 2 * Z.of_nat n).
Proof.
  induction n as [| n IH]; intros w.
  - simpl. rewrite Z.sub_0_r. destruct (tx_buf w); simpl;
      rewrite ?app_nil_r, ?Z.add_0_r; done.
  - cbv zeta.
    change (wr_fifo_lossi_loop (S n) w)
      with (wr_fifo_lossi_loop n (wr_fifo_lossi_step w)).
    destruct (IH (wr_fifo_lossi_step w))
      as (Ht & Hp & Hm & Hr & Hd & Hc & Hs & Hq & Hl).
    destruct (wr_fifo_lossi_step_spec w)
      as (Ht1 & Hp1 & Hm1 & Hr1 & Hd1 & Hc1 & Hs1 & Hq1 & Hl1).
    rewrite Ht, Hp, Hm, Hr, Hd, Hc, Hs, Hq. clear IH Ht Hp Hm Hr Hd Hc Hs Hq.
    rewrite Ht1, Hp1, Hm1, Hr1, Hd1, Hc1, Hs1, Hq1.
    replace (2 * S n)%nat with (S (S (2 * n))) by lia.
    rewrite (wide_words_tx_bytes_SS _ _ (2 * n)), <- app_assoc.
    repeat split; try done.
    + f_equal. rewrite (wide_words_tx_bytes_SS _ _ 0). by destruct (tx_buf w).
    + destruct (tx_buf w); simpl; f_equal; lia.
    + intros Hlen. rewrite Hl1, int32_small in Hl by lia. rewrite Hl; lia.
Qed.

Lemma rd_fifo_step_spec w :
  let v := u32 (fst (readl (base w) SPI_FIFO)) in
  let w' := rd_fifo_step w in
  trace w' = trace w ++ [EvRd SPI_FIFO v]
  ∧ base w' = snd (readl (base w) SPI_FIFO)
  ∧ mem w' =
      match rx_buf w with
      | Some p => <[p := u8 v]> (mem w)
      | None => mem w
      end
  ∧ rx_buf w' = (λ p, p + 1) <$> rx_buf w
  ∧ tx_buf w' = tx_buf w ∧ len w' = len w ∧ done w' = done w
  ∧ clk w' = clk w ∧ stopping w' = stopping w ∧ queue w' = queue w.
Proof.
  unfold rd_fifo_step, bcm2708_rd. simpl.
  destruct (rx_buf w) as [p |] eqn:Erx; simpl; rewrite ?Erx; done.
Qed.

Lemma rd_fifo_loop_spec n : ∀ w,
  let vs := fst (fifo_reads n (base w)) in
  let w' := rd_fifo_loop n w in
  trace w' = trace w ++ (EvRd SPI_FIFO <$> vs)
  ∧ base w' = snd (fifo_reads n (base w))
  ∧ mem w' =
      match rx_buf w with
      | Some p => store_bytes (mem w) p (u8 <$> vs)
      | None => mem w
      end
  ∧ rx_buf w' = (λ p, p + Z.of_nat n) <$> rx_buf w
  ∧ tx_buf w' = tx_buf w ∧ len w' = len w ∧ done w' = done w
  ∧ clk w' = clk w ∧ stopping w' = stopping w ∧ queue w' = queue w.
Proof.
  induction n as [| n IH]; intros w.
  - simpl. destruct (rx_buf w); simpl; rewrite ?app_nil_r, ?Z.add_0_r; done.
  - cbv zeta. change (rd_fifo_loop (S n) w) with (rd_fifo_loop n (rd_fifo_step w)).
    destruct (IH (rd_fifo_step w))
      as (Ht & Hb & Hm & Hr & Hp & Hl & Hd & Hc & Hs & Hq).
    destruct (rd_fifo_step_spec w)
      as (Ht1 & Hb1 & Hm1 & Hr1 & Hp1 & Hl1 & Hd1 & Hc1 & Hs1 & Hq1).
    rewrite Ht, Hb, Hm, Hr, Hp, Hl, Hd, Hc, Hs, Hq.
    clear IH Ht Hb Hm Hr Hp Hl Hd Hc Hs Hq.
    rewrite Ht1, Hb1, Hm1, Hr1, Hp1, Hl1, Hd1, Hc1, Hs1, Hq1.
    cbn [fifo_reads].
    destruct (fifo_reads n (snd (readl (base w) SPI_FIFO))) as [l h'] eqn:El.
    cbn [fst snd]. rewrite <- app_assoc.
    repeat split; try done.
    + by destruct (rx_buf w).
    + destruct (rx_buf w); simpl; f_equal; lia.
Qed.

Lemma bcm2708_rd_spec w reg :
  let v := u32 (fst (readl (base w) reg)) in
  let w' := snd (bcm2708_rd w reg) in
  fst (bcm2708_rd w reg) = v
  ∧ trace w' = trace w ++ [EvRd reg v]
  ∧ base w' = snd (readl (base w) reg)
  ∧ mem w' = mem w ∧ rx_buf w' = rx_buf w ∧ tx_buf w' = tx_buf w
  ∧ len w' = len w ∧ done w' = done w
  ∧ clk w' = clk w ∧ stopping w' = stopping w ∧ queue w' = queue w.
Proof. done. Qed.

Lemma bcm2708_wr_spec w reg val :
  let w' := bcm2708_wr w reg val in
  trace w' = trace w ++ [EvWr reg (u32 val)]
  ∧ base w' = writel (base w) reg (u32 val)
  ∧ mem w' = mem w ∧ rx_buf w' = rx_buf w ∧ tx_buf w' = tx_buf w
  ∧ len w' = len w ∧ done w' = done w
  ∧ clk w' = clk w ∧ stopping w' = stopping w ∧ queue w' = queue w.
Proof. done. Qed.

Lemma fifo_reads_length n : ∀ h : H, length (fst (fifo_reads n h)) = n.
Proof.
  induction n as [| n IH]; intros h; [done |]. cbn [fifo_reads].
  specialize (IH (snd (readl h SPI_FIFO))).
  destruct (fifo_reads n (snd (readl h SPI_FIFO))). simpl in *. lia.
Qed.

Lemma rd_fifo_pull w n :
  0 <= n < 2 ^ 32 →
  pull_post w (Z.to_nat n) (bcm2708_rd_fifo w n).
Proof.
  intros Hn. unfold bcm2708_rd_fifo, pull_post. rewrite u32_small by done.
  destruct (rd_fifo_loop_spec (Z.to_nat n) w)
    as (Ht & Hb & Hm & Hr & Hp & Hl & Hd & _).
  rewrite fifo_reads_length. done.
Qed.

Lemma rem_even n : (Z.rem n 2 =? 0) = Z.even n.
Proof.
  rewrite Zquot.Zrem_even. destruct (Z.even n) eqn:E; [done |].
  destruct n; done.
Qed.

Lemma wr_fifo_push w req :
  0 <= len w < 2 ^ 31 → 0 <= req < 2 ^ 31 →
  push_post w req (bcm2708_wr_fifo w req).
Proof.
  intros Hlen Hreq. unfold push_post, bcm2708_wr_fifo.
  replace (if len w <? req then len w else req) with (Z.min req (len w))
    by (destruct (Z.ltb_spec (len w) req); lia).
  set (n := Z.min req (len w)). assert (Hn : 0 <= n <= len w) by lia.
  destruct (bcm2708_rd_spec w SPI_CS)
    as (Hv & Ht & Hb & Hm & Hr & Hp & Hl & Hd & _).
  destruct (bcm2708_rd w SPI_CS) as [c w1]. cbn [fst snd] in *. subst c.
  set (c := u32 (fst (readl (base w) SPI_CS))).
  rewrite u32_small by lia.
  destruct (has_flag c SPI_CS_LEN).
  - rewrite rem_even. destruct (Z.even n) eqn:En.
    + simpl negb. cbv iota.
      destruct (wr_fifo_lossi_loop_spec (Z.to_nat (n / 2)) w1)
        as (Ht' & Hp' & Hm' & Hr' & Hd' & _ & _ & _ & Hl').
      apply Zeven_bool_iff, Zeven_div2 in En. rewrite Z.div2_div in En.
      assert (E2 : 2 * Z.of_nat (Z.to_nat (n / 2)) = n) by lia.
      assert (E3 : (2 * Z.to_nat (n / 2))%nat = Z.to_nat n) by lia.
      rewrite Ht', Hp', Hm', Hr', Hd', Hl', Ht, Hm, Hr, Hp, Hl, Hd, E2, E3
        by lia.
      rewrite <- app_assoc. done.
    + simpl. rewrite Ht, Hm, Hr, Hp, Hd, <- app_assoc. done.
  - destruct (wr_fifo_loop_spec (Z.to_nat n) w1)
      as (Ht' & Hp' & Hm' & Hr' & Hd' & _ & _ & _ & Hl').
    rewrite Ht', Hp', Hm', Hr', Hd', Hl', Ht, Hm, Hr, Hp, Hl, Hd by lia.
    rewrite <- app_assoc, Z2Nat.id by lia. done.
Qed.

Lemma same_ctl_intro w w' t :
  clk w' = clk w → stopping w' = stopping w → queue w' = queue w →
  trace w' = trace w ++ t → completions t = [] → writes_to SPI_CLK t = [] →
  same_ctl w w'.
Proof.
  intros Hc Hs Hq Ht Hco Hw. unfold same_ctl.
  rewrite Hc, Hs, Hq, Ht, completions_app, writes_to_app, Hco, Hw, !app_nil_r.
  done.
Qed.

Lemma rd_same_ctl w reg : same_ctl w (snd (bcm2708_rd w reg)).
Proof.
  by apply (same_ctl_intro _ _ [EvRd reg (u32 (fst (readl (base w) reg)))]).
Qed.

Lemma wr_same_ctl w reg v : reg ≠ SPI_CLK → same_ctl w (bcm2708_wr w reg v).
Proof.
  intros Hne. apply (same_ctl_intro _ _ [EvWr reg (u32 v)]); try done.
  simpl. destruct (Z.eqb_spec reg SPI_CLK); done.
Qed.

Lemma rd_fifo_same_ctl w n : same_ctl w (bcm2708_rd_fifo w n).
Proof.
  unfold bcm2708_rd_fifo.
  destruct (rd_fifo_loop_spec (Z.to_nat (u32 n)) w)
    as (Ht & _ & _ & _ & _ & _ & _ & Hc & Hs & Hq).
  eapply same_ctl_intro; eauto using completions_rd, writes_to_rd.
Qed.

Lemma wr_fifo_same_ctl w n : same_ctl w (bcm2708_wr_fifo w n).
Proof.
  unfold bcm2708_wr_fifo.
  pose proof (rd_same_ctl w SPI_CS) as H1.
  destruct (bcm2708_rd w SPI_CS) as [c w1]. cbn [snd] in H1.
  eapply same_ctl_trans; [exact H1 |].
  assert (Hne : SPI_FIFO ≠ SPI_CLK) by done.
  destruct (has_flag c SPI_CS_LEN); [destruct (negb _) |].
  - by eapply (same_ctl_intro _ _ [EvLog _]).
  - destruct (wr_fifo_lossi_loop_spec
                (Z.to_nat (u32 (if len w <? n then len w else n) / 2)) w1)
      as (Ht & _ & _ & _ & _ & Hc & Hs & Hq & _).
    eapply same_ctl_intro; eauto using completions_wr, writes_to_wr_ne.
  - destruct (wr_fifo_loop_spec
                (Z.to_nat (u32 (if len w <? n then len w else n))) w1)
      as (Ht & _ & _ & _ & _ & Hc & Hs & Hq & _).
    eapply same_ctl_intro; eauto using completions_wr, writes_to_wr_ne.
Qed.

Lemma completions_drain rs : completions (drain_events rs) = [].
Proof. induction rs as [| [v c] rs IH]; done. Qed.

Lemma writes_to_drain reg rs : writes_to reg (drain_events rs) = [].
Proof. induction rs as [| [v c] rs IH]; done. Qed.

Lemma last_cons {A} (a d : A) l : List.last (a :: l) d = List.last l a.
Proof.
  revert a d. induction l as [| b l IH]; intros a d; [done |].
  change (List.last (a :: b :: l) d) with (List.last (b :: l) d).
  rewrite !IH. done.
Qed.

Lemma drain_rx_spec k : ∀ fuel c w,
  rxd_clears k (base w) c = true → (k ≤ fuel)%nat →
  ∃ w', drain_rx fuel c w = Ret w'
    ∧ (let rs := drain_reads k (base w) c in
       trace w' = trace w ++ drain_events rs
       ∧ has_flag (List.last (snd <$> rs) c) SPI_CS_RXD = false
       ∧ mem w' =
           match rx_buf w with
           | Some p => store_bytes (mem w) p (u8 ∘ fst <$> rs)
           | None => mem w
           end
       ∧ rx_buf w' = (λ p, p + Z.of_nat (length rs)) <$> rx_buf w
       ∧ tx_buf w' = tx_buf w ∧ len w' = len w ∧ done w' = done w)
    ∧ clk w' = clk w ∧ stopping w' = stopping w ∧ queue w' = queue w.
Proof.
  induction k as [| k IH]; intros fuel c w Hclr Hle.
  - simpl in Hclr. destruct (has_flag c SPI_CS_RXD) eqn:Ec; [done |].
    exists w. split; [destruct fuel; simpl; by rewrite Ec |].
    simpl. rewrite Ec. simpl. rewrite app_nil_r, Ec.
    destruct (rx_buf w); simpl; rewrite ?Z.add_0_r; done.
  - cbn [rxd_clears] in Hclr. cbn [drain_reads].
    destruct (has_flag c SPI_CS_RXD) eqn:Ec.
    + destruct fuel as [| fuel]; [lia |].
      cbn [drain_rx]. rewrite Ec.
      change (bcm2708_rd_fifo w 1) with (rd_fifo_step w).
      destruct (rd_fifo_step_spec w)
        as (Ht1 & Hb1 & Hm1 & Hr1 & Hp1 & Hl1 & Hd1 & Hc1 & Hs1 & Hq1).
      set (w1 := rd_fifo_step w) in *.
      destruct (bcm2708_rd_spec w1 SPI_CS)
        as (Hv & Ht2 & Hb2 & Hm2 & Hr2 & Hp2 & Hl2 & Hd2 & Hc2 & Hs2 & Hq2).
      destruct (bcm2708_rd w1 SPI_CS) as [c' w2]. cbn [fst snd] in *.
      rewrite Hb1 in Hv, Hb2. rewrite <- Hv, <- Hb2 in Hclr |- *.
      destruct (IH fuel c' w2 Hclr ltac:(lia))
        as (w' & Hrun & (Ht & Hlast & Hm & Hr & Hp & Hl & Hd) & Hc & Hs & Hq).
      exists w'. split; [done |].
      cbv zeta. rewrite Ht, Hm, Hr, Hp, Hl, Hd, Hc, Hs, Hq.
      rewrite Ht2, Hm2, Hr2, Hp2, Hl2, Hd2, Hc2, Hs2, Hq2.
      rewrite Ht1, Hm1, Hr1, Hp1, Hl1, Hd1, Hc1, Hs1, Hq1.
      rewrite fmap_cons, last_cons. cbn [snd].
      repeat split; try done.
      * rewrite <- !app_assoc, Hb1, <- Hv. done.
      * by destruct (rx_buf w).
      * destruct (rx_buf w); simpl; f_equal; lia.
    + exists w. split; [destruct fuel; simpl; by rewrite Ec |].
      simpl. rewrite app_nil_r, Ec.
      destruct (rx_buf w); simpl; rewrite ?Z.add_0_r; done.
Qed.

Lemma complete_spec w :
  trace (complete w) = trace w ∧ mem (complete w) = mem w
  ∧ rx_buf (complete w) = rx_buf w ∧ tx_buf (complete w) = tx_buf w
  ∧ len (complete w) = len w ∧ done (complete w) = u32 (done w + 1)
  ∧ clk (complete w) = clk w ∧ stopping (complete w) = stopping w
  ∧ queue (complete w) = queue w.
Proof. done. Qed.

(** The three cases of the handler, after its read of the status word. *)
Lemma interrupt_unfold fuel w :
  let c := u32 (fst (readl (base w) SPI_CS)) in
  let w1 := snd (bcm2708_rd w SPI_CS) in
  bcm2708_spi_interrupt fuel w =
  if has_flag c SPI_CS_DONE then
    if negb (len w =? 0) then Ret (bcm2708_wr_fifo w1 16)
    else
      let c0 := Z.land c (Z.lnot (Z.lor SPI_CS_INTR SPI_CS_INTD)) in
      w' ← drain_rx fuel c0 (bcm2708_wr w1 SPI_CS c0); Ret (complete w')
  else if has_flag c SPI_CS_RXR then
    Ret (bcm2708_wr_fifo (bcm2708_rd_fifo w1 12) 12)
  else Ret w1.
Proof. done. Qed.

Lemma interrupt_total B w :
  drains_within B →
  ∃ w', bcm2708_spi_interrupt B w = Ret w' ∧ same_ctl w w'.
Proof.
  intros HB. rewrite interrupt_unfold. cbv zeta.
  pose proof (rd_same_ctl w SPI_CS) as H1.
  set (w1 := snd (bcm2708_rd w SPI_CS)) in *.
  set (c := u32 (fst (readl (base w) SPI_CS))).
  destruct (has_flag c SPI_CS_DONE).
  - destruct (negb (len w =? 0)).
    + eexists. split; [done |].
      eapply same_ctl_trans; [exact H1 | apply wr_fifo_same_ctl].
    + set (c0 := Z.land c _). set (w2 := bcm2708_wr w1 SPI_CS c0).
      destruct (drain_rx_spec B B c0 w2 (HB _ _) ltac:(lia))
        as (w' & -> & (Ht & _) & Hc & Hs & Hq).
      exists (complete w'). split; [done |].
      eapply same_ctl_trans; [exact H1 |].
      eapply same_ctl_trans; [apply (wr_same_ctl w1 SPI_CS c0); done |].
      fold w2. eapply (same_ctl_intro w2 (complete w')); eauto using
        completions_drain, writes_to_drain.
  - destruct (has_flag c SPI_CS_RXR).
    + eexists. split; [done |].
      eapply same_ctl_trans; [exact H1 |].
      eapply same_ctl_trans; [apply rd_fifo_same_ctl | apply wr_fifo_same_ctl].
    + eexists. split; done.
Qed.

(** C1 (amended). An interrupt taken while a transfer is armed (remaining
    length within the non-negative range of an [int]) first reads the
    status word [c]. With "done" set and a nonzero remaining length the
    handler pushes up to 16 bytes ([push_post]): the count is clamped to
    the remaining length, zeros are sent when there is no tx buffer, and
    the remaining length drops by the count pushed; in wide mode an even
    count goes out as 16-bit units and an odd count pushes nothing and
    sets the remaining length to 0. With "done" set and a zero remaining
    length it writes the status word back with the two interrupt-enable
    bits cleared and, when the receive FIFO empties after [k] reads within
    the fuel, pulls the receive FIFO one word at a time into the rx cursor
    until the status shows no receive data, then raises the completion
    ([drain_post]). Otherwise, with "ready" set, it pulls exactly 12 words
    into the rx cursor ([pull_post]) and then pushes up to 12 bytes. *)
Theorem C1_interrupt_cases (fuel : nat) w :
  0 <= len w < 2 ^ 31 →
  let c := u32 (fst (readl (base w) SPI_CS)) in
  let w1 := snd (bcm2708_rd w SPI_CS) in
  (trace w1 = trace w ++ [EvRd SPI_CS c] ∧ len w1 = len w ∧ mem w1 = mem w
   ∧ tx_buf w1 = tx_buf w ∧ rx_buf w1 = rx_buf w ∧ done w1 = done w) ∧
  (has_flag c SPI_CS_DONE = true → len w ≠ 0 →
   ∃ w', bcm2708_spi_interrupt fuel w = Ret w' ∧ push_post w1 16 w') ∧
  (has_flag c SPI_CS_DONE = true → len w = 0 →
   let c0 := Z.land c (Z.lnot (Z.lor SPI_CS_INTR SPI_CS_INTD)) in
   let w2 := bcm2708_wr w1 SPI_CS c0 in
   has_flag c0 SPI_CS_INTR = false ∧ has_flag c0 SPI_CS_INTD = false
   ∧ (∀ i, 0 <= i → i ≠ 9 → i ≠ 10 → Z.testbit c0 i = Z.testbit c i)
   ∧ trace w2 = trace w1 ++ [EvWr SPI_CS (u32 c0)]
   ∧ ∀ k, rxd_clears k (base w2) c0 = true → (k ≤ fuel)%nat →
       ∃ w', bcm2708_spi_interrupt fuel w = Ret w' ∧ drain_post k w2 c0 w') ∧
  (has_flag c SPI_CS_DONE = false → has_flag c SPI_CS_RXR = true →
   ∃ w1' w', bcm2708_spi_interrupt fuel w = Ret w'
             ∧ pull_post w1 12 w1' ∧ push_post w1' 12 w').
Proof.
  intros Hlen c w1.
  pose proof (interrupt_unfold fuel w) as Hi. cbv zeta in Hi.
  fold c w1 in Hi.
  assert (Hl1 : len w1 = len w) by done.
  split; [done |]. split; [| split].
  - intros Hd Hnz. rewrite Hi, Hd.
    destruct (Z.eqb_spec (len w) 0); [done |].
    eexists. split; [done |]. apply wr_fifo_push; [by rewrite Hl1 | lia].
  - intros Hd Hz c0 w2.
    destruct (mask_irq_bits c) as (Hr & Hdn & Hbits). fold c0 in Hr, Hdn, Hbits.
    do 4 (split; [done |]).
    intros k Hk Hfuel. rewrite Hi, Hd, Hz. simpl negb. cbv iota.
    fold c0 w2.
    destruct (drain_rx_spec k fuel c0 w2 Hk Hfuel)
      as (w' & -> & (Ht & Hlast & Hm & Hrx & Htx & Hlen' & Hdone) & _).
    exists (complete w'). split; [done |].
    unfold drain_post. cbv zeta. rewrite <- Ht, <- Hm, <- Hrx, <- Htx.
    rewrite <- Hlen', <- Hdone. done.
  - intros Hd Hr. rewrite Hi, Hd, Hr.
    exists (bcm2708_rd_fifo w1 12). eexists. split; [done |].
    pose proof (rd_fifo_pull w1 12 ltac:(lia)) as Hpull.
    split; [exact Hpull |].
    apply wr_fifo_push; [| lia].
    destruct Hpull as (_ & _ & _ & _ & _ & _ & -> & _). by rewrite Hl1.
Qed.

Lemma drain_rx_same_ctl fuel : ∀ c w w',
  drain_rx fuel c w = Ret w' → same_ctl w w'.
Proof.
  induction fuel as [| fuel IH]; intros c w w'; cbn [drain_rx];
    destruct (has_flag c SPI_CS_RXD); try done.
  - by intros [= <-].
  - pose proof (rd_fifo_same_ctl w 1) as H1.
    pose proof (rd_same_ctl (bcm2708_rd_fifo w 1) SPI_CS) as H2.
    destruct (bcm2708_rd (bcm2708_rd_fifo w 1) SPI_CS) as [c' w2].
    intros Hd. apply IH in Hd. cbn [snd] in H2.
    eapply same_ctl_trans; [exact H1 |].
    eapply same_ctl_trans; [exact H2 | exact Hd].
  - by intros [= <-].
Qed.

Lemma interrupt_same_ctl fuel w w' :
  bcm2708_spi_interrupt fuel w = Ret w' → same_ctl w w'.
Proof.
  rewrite interrupt_unfold. cbv zeta.
  pose proof (rd_same_ctl w SPI_CS) as H1.
  set (w1 := snd (bcm2708_rd w SPI_CS)) in *.
  set (c := u32 (fst (readl (base w) SPI_CS))).
  destruct (has_flag c SPI_CS_DONE).
  - destruct (negb (len w =? 0)).
    + intros [= <-].
      eapply same_ctl_trans; [exact H1 | apply wr_fifo_same_ctl].
    + set (c0 := Z.land c _). set (w2 := bcm2708_wr w1 SPI_CS c0).
      destruct (drain_rx fuel c0 w2) as [w3 | |] eqn:Ed; try done.
      simpl. intros [= <-]. apply drain_rx_same_ctl in Ed.
      eapply same_ctl_trans; [exact H1 |].
      eapply same_ctl_trans; [apply (wr_same_ctl w1 SPI_CS c0); done |].
      eapply same_ctl_trans; [exact Ed | done].
  - destruct (has_flag c SPI_CS_RXR); intros [= <-]; [| done].
    eapply same_ctl_trans; [exact H1 |].
    eapply same_ctl_trans; [apply rd_fifo_same_ctl | apply wr_fifo_same_ctl].
Qed.

Lemma wait_loop_ret fuel irqs : ∀ w r w',
  wait_loop fuel irqs w = Ret (r, w') →
  same_ctl w w' ∧ (r = 0 ∧ done w' <= 0 ∨ r = 1).
Proof.
  induction irqs as [| irqs IH]; intros w r w'; cbn [wait_loop];
    destruct (Z.ltb_spec 0 (done w)).
  - intros [= <- <-]. split; [done | by right].
  - intros [= <- <-]. split; [done | by left].
  - intros [= <- <-]. split; [done | by right].
  - destruct (bcm2708_spi_interrupt fuel w) as [w1 | |] eqn:Ei; try done.
    simpl. intros Hw. apply interrupt_same_ctl in Ei.
    destruct (IH _ _ _ Hw) as [Hs Hr].
    split; [by eapply same_ctl_trans | done].
Qed.

Lemma wait_loop_total B irqs :
  drains_within B → ∀ w, ∃ r w', wait_loop B irqs w = Ret (r, w').
Proof.
  intros HB. induction irqs as [| irqs IH]; intros w; cbn [wait_loop];
    destruct (0 <? done w); eauto.
  destruct (interrupt_total B w HB) as (w1 & -> & _). simpl. apply IH.
Qed.

Lemma arm_spec w stp xfer :
  let w' := arm w stp xfer in
  clk w' = clk w ∧ stopping w' = stopping w ∧ queue w' = queue w
  ∧ completions (trace w') = completions (trace w)
  ∧ writes_to SPI_CLK (trace w') =
      writes_to SPI_CLK (trace w) ++ [u32 (cdiv stp)]
  ∧ done w' = 0 ∧ tx_buf w' = xfer_tx_buf xfer
  ∧ rx_buf w' = xfer_rx_buf xfer ∧ len w' = int32 (xfer_len xfer).
Proof.
  unfold arm. simpl. rewrite !completions_app, !writes_to_app. simpl.
  rewrite !app_nil_r. done.
Qed.

(** What a returning call of [bcm2708_process_transfer] has done. *)
Lemma process_transfer_ret fuel w msg xfer last st msg' w' :
  bcm2708_process_transfer fuel w msg xfer last = Ret (st, msg', w') →
  (clk w' = clk w ∧ stopping w' = stopping w ∧ queue w' = queue w
   ∧ completions (trace w') = completions (trace w))
  ∧ (msg_spi msg' = msg_spi msg ∧ transfers msg' = transfers msg
     ∧ msg_context msg' = msg_context msg)
  ∧ ((st = - ESHUTDOWN ∧ stopping w = true ∧ w' = w ∧ msg' = msg)
     ∨ (st = - EINVAL ∧ stopping w = false ∧ w' = w ∧ msg' = msg)
     ∨ (st = - ETIMEDOUT ∧ stopping w = false ∧ msg' = msg
        ∧ armed (trace w') = S (armed (trace w)))
     ∨ (st = 0 ∧ stopping w = false
        ∧ actual_length msg' =
            u32 (actual_length msg + (xfer_len xfer - len w'))
        ∧ armed (trace w') = S (armed (trace w)))).
Proof.
  unfold bcm2708_process_transfer.
  destruct (stopping w) eqn:Es.
  { intros [= <- <- <-]. split; [done |]. split; [done |]. by left. }
  destruct (transfer_state w (msg_spi msg) xfer) as [[e | stp] | |] eqn:Et;
    try done; simpl.
  { intros [= <- <- <-]. split; [done |]. split; [done |]. right. left.
    split; [| done]. unfold transfer_state in Et.
    destruct (_ || _); [| by destruct (controller_state _)].
    injection Et as Et. unfold bcm2708_setup_state in Et.
    destruct (setup_cdiv _ _); [| congruence].
    repeat destruct (_ =? _); congruence. }
  destruct (arm_spec w stp xfer) as (Hc & Hs & Hq & Hco & Hw & _).
  unfold wait_for_completion_timeout.
  destruct (wait_loop fuel _ (arm w stp xfer)) as [[r wt] | |] eqn:Ew;
    try done; simpl.
  apply wait_loop_ret in Ew. destruct Ew as [(Hc1 & Hs1 & Hq1 & Hco1 & Hw1) Hr].
  assert (Harm : armed (trace wt) = S (armed (trace w))).
  { unfold armed. rewrite Hw1, Hw, length_app. simpl. lia. }
  destruct (Z.eqb_spec r 0) as [-> | Hnz].
  { intros [= <- <- <-]. simpl. rewrite completions_app. simpl.
    rewrite app_nil_r.
    split; [repeat split; congruence |]. split; [done |].
    right. right. left. repeat split; try done.
    unfold armed. simpl. rewrite writes_to_app. simpl. rewrite app_nil_r.
    exact Harm. }
  set (wd := if negb (xfer_delay_usecs xfer =? 0)
             then emit wt (EvDelay (xfer_delay_usecs xfer)) else wt).
  assert (Hwd : clk wd = clk wt ∧ stopping wd = stopping wt
                ∧ queue wd = queue wt
                ∧ completions (trace wd) = completions (trace wt)
                ∧ writes_to SPI_CLK (trace wd) = writes_to SPI_CLK (trace wt)
                ∧ len wd = len wt).
  { unfold wd. destruct (negb _); [| done]. simpl.
    rewrite completions_app, writes_to_app. simpl. rewrite !app_nil_r. done. }
  destruct Hwd as (Hc2 & Hs2 & Hq2 & Hco2 & Hw2 & Hl2).
  set (wc := if last || xfer_cs_change xfer
             then bcm2708_wr wd SPI_CS (cs stp) else wd).
  assert (Hwc : clk wc = clk wd ∧ stopping wc = stopping wd
                ∧ queue wc = queue wd
                ∧ completions (trace wc) = completions (trace wd)
                ∧ writes_to SPI_CLK (trace wc) = writes_to SPI_CLK (trace wd)
                ∧ len wc = len wd).
  { unfold wc. destruct (_ || _); [| done]. simpl.
    rewrite completions_app, writes_to_app. simpl. rewrite !app_nil_r. done. }
  destruct Hwc as (Hc3 & Hs3 & Hq3 & Hco3 & Hw3 & Hl3).
  intros [= <- <- <-].
  split; [repeat split; congruence |]. split; [done |].
  right. right. right. repeat split; try done.
  unfold armed. rewrite Hw3, Hw2. exact Harm.
Qed.

Lemma process_transfer_total B w msg xfer last :
  drains_within B → is_Some (controller_state (msg_spi msg)) →
  ∃ st msg' w',
    bcm2708_process_transfer B w msg xfer last = Ret (st, msg', w').
Proof.
  intros HB [st0 Hst]. unfold bcm2708_process_transfer.
  destruct (stopping w); [eauto |].
  unfold transfer_state. rewrite Hst.
  destruct (negb (xfer_bits_per_word xfer =? 0)
            || negb (xfer_speed_hz xfer =? 0)); simpl.
  - destruct (bcm2708_setup_state _ _ _ _ _) as [e | stp]; [eauto |].
    unfold wait_for_completion_timeout.
    destruct (wait_loop_total B (irq_budget (base (arm w stp xfer))
                SPI_TIMEOUT_MS) HB (arm w stp xfer)) as (r & wt & ->).
    simpl. destruct (r =? 0); eauto.
  - unfold wait_for_completion_timeout.
    destruct (wait_loop_total B (irq_budget (base (arm w st0 xfer))
                SPI_TIMEOUT_MS) HB (arm w st0 xfer)) as (r & wt & ->).
    simpl. destruct (r =? 0); eauto.
Qed.

Lemma transfers_loop_ret fuel xs : ∀ w msg st0 st msg' w',
  transfers_loop fuel w msg xs st0 = Ret (st, msg', w') →
  (clk w' = clk w ∧ stopping w' = stopping w ∧ queue w' = queue w
   ∧ completions (trace w') = completions (trace w))
  ∧ (msg_spi msg' = msg_spi msg ∧ transfers msg' = transfers msg
     ∧ msg_context msg' = msg_context msg).
Proof.
  induction xs as [| x rest IH]; intros w msg st0 st msg' w';
    cbn [transfers_loop].
  - by intros [= <- <- <-].
  - destruct (bcm2708_process_transfer fuel w msg x _)
      as [[[s1 m1] w1] | |] eqn:Ep; try done. simpl.
    apply process_transfer_ret in Ep.
    destruct Ep as ((Hc & Hs & Hq & Hco) & (Hsp & Htr & Hcx) & _).
    destruct (negb (s1 =? 0)).
    + intros [= <- <- <-]. done.
    + intros Hl. apply IH in Hl.
      destruct Hl as ((Hc' & Hs' & Hq' & Hco') & (Hsp' & Htr' & Hcx')).
      repeat split; congruence.
Qed.

Lemma transfers_loop_total B xs :
  drains_within B → ∀ w msg st0,
  is_Some (controller_state (msg_spi msg)) →
  ∃ st msg' w', transfers_loop B w msg xs st0 = Ret (st, msg', w').
Proof.
  intros HB. induction xs as [| x rest IH]; intros w msg st0 Hcfg;
    cbn [transfers_loop]; [eauto |].
  destruct (process_transfer_total B w msg x
              (match rest with [] => true | _ => false end) HB Hcfg)
    as (s1 & m1 & w1 & Ep).
  rewrite Ep. simpl.
  apply process_transfer_ret in Ep. destruct Ep as (_ & (Hsp & _) & _).
  destruct (negb (s1 =? 0)); [eauto |].
  apply IH. by rewrite Hsp.
Qed.

(** The loop over the transfers stops at the first one that fails. *)
Lemma transfers_loop_stops fuel xs : ∀ w msg st0 st msg' w',
  transfers_loop fuel w msg xs st0 = Ret (st, msg', w') → xs ≠ [] →
  (st = 0 ∧ armed (trace w') = (armed (trace w) + length xs)%nat)
  ∨ (st ≠ 0 ∧ ∃ pre x post wx mx,
       xs = pre ++ x :: post
       ∧ armed (trace wx) = (armed (trace w) + length pre)%nat
       ∧ bcm2708_process_transfer fuel wx mx x
           (match post with [] => true | _ => false end)
         = Ret (st, msg', w')).
Proof.
  induction xs as [| x rest IH]; intros w msg st0 st msg' w'; [done |].
  cbn [transfers_loop]. intros Hrun _.
  destruct (bcm2708_process_transfer fuel w msg x _)
    as [[[s1 m1] w1] | |] eqn:Ep; try done. simpl in Hrun.
  destruct (Z.eqb_spec s1 0) as [-> | Hnz]; simpl in Hrun.
  - pose proof (process_transfer_ret _ _ _ _ _ _ _ _ Ep) as (_ & _ & Hcase).
    assert (Harm : armed (trace w1) = S (armed (trace w))).
    { destruct Hcase as [(? & _) | [(? & _) | [(? & _) | (_ & _ & _ & ?)]]];
        done. }
    destruct rest as [| y rest].
    + injection Hrun as <- <- <-. left. split; [done |]. simpl. lia.
    + destruct (IH _ _ _ _ _ _ Hrun ltac:(done))
        as [[-> Ha] | (Hst & pre & x' & post & wx & mx & E & Ha & Hp)].
      * left. split; [done |]. rewrite Ha, Harm. simpl. lia.
      * right. split; [done |].
        exists (x :: pre), x', post, wx, mx. rewrite E.
        split; [done |]. split; [| done]. rewrite Ha, Harm. simpl. lia.
  - injection Hrun as <- <- <-. right. split; [done |].
    exists [], x, rest, w, msg. split; [done |]. split; [| done].
    simpl. lia.
Qed.

Lemma message_done_spec w msg st :
  let w' := message_done w msg st in
  trace w' = trace w ++ [EvComplete (msg_context msg) st (actual_length msg)]
  ∧ completions (trace w') =
      completions (trace w) ++ [(msg_context msg, st, actual_length msg)]
  ∧ queue w' = queue w ∧ stopping w' = stopping w ∧ clk w' = clk w.
Proof.
  unfold message_done. simpl. rewrite completions_app. done.
Qed.

(** What the transfers that passed have done. *)
Lemma spec_passed_ret fuel w m pre m' w' :
  spec_passed fuel w m pre m' w' →
  (clk w' = clk w ∧ stopping w' = stopping w ∧ queue w' = queue w
   ∧ completions (trace w') = completions (trace w))
  ∧ (msg_spi m' = msg_spi m ∧ transfers m' = transfers m
     ∧ msg_context m' = msg_context m)
  ∧ armed (trace w') = (armed (trace w) + length pre)%nat.
Proof.
  induction 1 as [w m | w m x pre m1 w1 m' w' Hp _ IH]; [simpl |].
  { repeat split; done || lia. }
  pose proof (process_transfer_ret _ _ _ _ _ _ _ _ Hp)
    as ((Hc & Hs & Hq & Hco) & (Hsp & Htr & Hcx) & Hcase).
  destruct IH as ((Hc' & Hs' & Hq' & Hco') & (Hsp' & Htr' & Hcx') & Ha).
  split; [repeat split; congruence |]. split; [repeat split; congruence |].
  rewrite Ha. simpl.
  destruct Hcase as [(? & _) | [(? & _) | [(? & _) | (_ & _ & _ & ->)]]];
    try done. lia.
Qed.

(** A transfer that fails arms the controller only if it times out. *)
Lemma process_transfer_fails fuel w msg xfer last st msg' w' :
  bcm2708_process_transfer fuel w msg xfer last = Ret (st, msg', w') →
  st ≠ 0 →
  armed (trace w') =
    (armed (trace w) + if (st =? - ETIMEDOUT)%Z then 1 else 0)%nat.
Proof.
  intros Hp Hst.
  pose proof (process_transfer_ret _ _ _ _ _ _ _ _ Hp) as (_ & _ & Hcase).
  destruct Hcase as [(-> & _ & -> & _) | [(-> & _ & -> & _) |
                    [(-> & _ & _ & ->) | (? & _)]]]; try done; simpl; lia.
Qed.

(** The loop of the code attempts the transfers as the specification
    words it. *)
Lemma transfers_loop_attempts fuel xs : ∀ w m st0 r,
  xs ≠ [] →
  transfers_loop fuel w m xs st0 = Ret r ↔ spec_attempts fuel w m xs r.
Proof.
  induction xs as [| x rest IH]; intros w m st0 r Hne; [done |]. split.
  - cbn [transfers_loop].
    destruct (bcm2708_process_transfer fuel w m x _)
      as [[[s1 m1] w1] | |] eqn:Ep; try done. simpl.
    destruct (Z.eqb_spec s1 0) as [-> | Hnz]; simpl.
    + destruct rest as [| y rest].
      * intros [= <-]. exists [], x, [], m, w.
        repeat split; try done. constructor.
      * intros Hl. apply IH in Hl; [| done].
        destruct Hl as (pre & x' & post & mx & wx & E & Hp & Hx & Hz).
        exists (x :: pre), x', post, mx, wx. rewrite E.
        split; [done |]. split; [| done]. by econstructor.
    + intros [= <-]. exists [], x, rest, m, w.
      split; [done |]. split; [constructor |]. split; [done |].
      simpl. intros ?. done.
  - intros (pre & x' & post & mx & wx & E & Hp & Hx & Hz).
    revert st0 x rest IH Hne E. induction Hp as [w m | w m x0 pre m1 w1 mx wx Hp0 Hp IHp];
      intros st0 x rest IH Hne E.
    + injection E as -> ->. cbn [transfers_loop]. rewrite Hx. simpl.
      destruct r as [[s m'] w']. simpl in *.
      destruct (Z.eqb_spec s 0) as [-> | Hnz]; simpl; [| done].
      by rewrite (Hz eq_refl).
    + injection E as -> ->. cbn [transfers_loop].
      assert (match pre ++ x' :: post with [] => true | _ :: _ => false end
              = false) as -> by (by destruct pre).
      rewrite Hp0. simpl.
      destruct (pre ++ x' :: post) as [| y rest'] eqn:El;
        [by destruct pre |].
      apply (IH w1 m1 0 r ltac:(done)).
      exists pre, x', post, mx, wx. done.
Qed.

(** The worker of the code serves the queue as the specification words
    it, and returns for every queue of messages that have a transfer and
    a configured peer. *)
Lemma work_loop_serves B :
  drains_within B → ∀ q st0 w,
  Forall queued_ok q →
  ∃ w' results,
    work_loop B q st0 w = Ret w'
    ∧ queue w' = match q with [] => queue w | _ => [] end
    ∧ spec_serves B w q results w'
    ∧ completions (trace w') = completions (trace w) ++ results
    ∧ Forall2 (λ m r, r.1.1 = msg_context m) q results.
Proof.
  intros HB. induction q as [| m q IH]; intros st0 w Hq.
  - exists w, []. simpl. rewrite app_nil_r. repeat split; constructor.
  - inversion Hq as [| ? ? [Hne Hcfg] Hq']; subst.
    cbn [work_loop].
    destruct (transfers_loop_total B (transfers m) HB (set_queue w q) m st0
                Hcfg) as (st & m' & w1 & Et).
    rewrite Et. simpl.
    pose proof (transfers_loop_ret _ _ _ _ _ _ _ _ Et)
      as ((Hc & Hs & Hqu & Hco) & (Hsp & Htr & Hcx)).
    assert (Hdone : message_done w1 m' st
                    = emit w1 (EvComplete (msg_context m) st
                                 (actual_length m'))).
    { unfold message_done. simpl. by rewrite Hcx. }
    rewrite Hdone.
    destruct (IH st (emit w1 (EvComplete (msg_context m) st
                                (actual_length m'))) Hq')
      as (w' & results & Hrun & Hqf & Hsv & Hcomp & Hall).
    exists w', ((msg_context m, st, actual_length m') :: results).
    split; [done |]. split.
    { rewrite Hqf. simpl. rewrite Hqu. simpl. by destruct q. }
    split.
    { econstructor; [| exact Hsv].
      by apply (transfers_loop_attempts B (transfers m) _ m st0). }
    split.
    { rewrite Hcomp. simpl. rewrite completions_app, Hco. simpl.
      by rewrite <- app_assoc. }
    constructor; done.
Qed.

(** Whatever serves a queue of messages that have a transfer, as the
    specification words it, is what the worker of the code does. *)
Lemma spec_serves_work fuel w q results w' :
  spec_serves fuel w q results w' →
  Forall (λ m, transfers m ≠ []) q →
  (∀ st0, work_loop fuel q st0 w = Ret w')
  ∧ completions (trace w') = completions (trace w) ++ results.
Proof.
  induction 1 as [w | w m q st m' w1 results w' Ha Hs IH]; intros Hq.
  { split; [done |]. by rewrite app_nil_r. }
  inversion Hq as [| ? ? Hne Hq']; subst.
  destruct (IH Hq') as [Hrun Hco].
  pose proof (λ st0, proj2 (transfers_loop_attempts fuel (transfers m)
                              (set_queue w q) m st0 _ Hne) Ha) as Et.
  pose proof (transfers_loop_ret _ _ _ _ _ _ _ _ (Et 0))
    as ((_ & _ & _ & Hco1) & (_ & _ & Hcx)).
  split.
  - intros st0. cbn [work_loop]. rewrite Et. simpl.
    assert (message_done w1 m' st
            = emit w1 (EvComplete (msg_context m) st (actual_length m')))
      as ->; [| apply Hrun].
    unfold message_done. simpl. by rewrite Hcx.
  - rewrite Hco. simpl. rewrite completions_app, Hco1. simpl.
    by rewrite <- app_assoc.
Qed.

Lemma process_transfer_timeout fuel w msg xfer last stp wt :
  stopping w = false →
  transfer_state w (msg_spi msg) xfer = Ret (inr stp) →
  wait_for_completion_timeout fuel (arm w stp xfer) SPI_TIMEOUT_MS
    = Ret (0, wt) →
  done wt <= 0
  ∧ bcm2708_process_transfer fuel w msg xfer last =
      Ret (- ETIMEDOUT, msg, emit wt (EvLog "transfer timed out")).
Proof.
  intros Hs Ht Hw. split.
  - apply wait_loop_ret in Hw. destruct Hw as [_ [[_ Hd] | Hr]]; done.
  - unfold bcm2708_process_transfer. rewrite Hs, Ht. simpl. rewrite Hw. done.
Qed.

Lemma submit_appends w spi msg w' :
  bcm2708_spi_transfer w spi msg = (0, w') →
  transfers msg ≠ []
  ∧ queue w' =
      queue w ++ [set_actual_length (set_status msg (- EINPROGRESS)) 0].
Proof.
  unfold bcm2708_spi_transfer.
  destruct (transfers msg) as [| x xs] eqn:Et; [intros [= ?] |].
  destruct (stopping w); [intros [= ?] |].
  destruct (Z.eqb_spec (check_transfers w spi (x :: xs)) 0) as [E | N];
    simpl.
  - intros [= <-]. done.
  - intros [= ? ?]. done.
Qed.

(** C3. With a device whose receive FIFO empties within [B] reads and a
    queue of non-empty messages of configured peers, the worker returns
    and leaves the queue empty, and what it does is what the
    specification words ([spec_serves]): the messages are served in queue
    order; each is taken off the queue, then its transfers are attempted,
    then its completion callback is called exactly once, with the status
    and the actual length the attempts ended with; the callbacks the run
    adds to the trace are exactly these, one per message in queue order;
    and no other outcome serves the queue as worded. The loop over the
    transfers of a message returns a result exactly when that result is
    the one of the attempts as the specification words them
    ([spec_attempts]): the transfers are attempted in list order, each
    from where the one before it left, as long as they pass, and the
    first that fails ends the loop with its result. So whenever the
    transfers before a transfer pass and that transfer fails, the loop
    ends in its very result, whatever follows it in the list, and no
    later transfer is armed: the transfers armed are those before it and,
    if it timed out, the failing one itself. A transfer whose completion
    is not raised in the wait of SPI_TIMEOUT_MS = 150 ms fails with
    -ETIMEDOUT; and a successful submit appends the message at the tail
    of the queue. *)
Theorem C3_worker_order (B : nat) w :
  drains_within B → Forall queued_ok (queue w) →
  (∃ w' results,
     bcm2708_work B w = Ret w' ∧ queue w' = []
     ∧ spec_serves B w (queue w) results w'
     ∧ completions (trace w') = completions (trace w) ++ results
     ∧ Forall2 (λ m r, r.1.1 = msg_context m) (queue w) results
     ∧ ∀ results2 w2,
         spec_serves B w (queue w) results2 w2 →
         results2 = results ∧ w2 = w')
  ∧ (∀ wa m xs st0 r, xs ≠ [] →
       transfers_loop B wa m xs st0 = Ret r ↔ spec_attempts B wa m xs r)
  ∧ (∀ wa m pre x post mx wx st0 st m' wb,
       spec_passed B wa m pre mx wx →
       bcm2708_process_transfer B wx mx x
         (match post with [] => true | _ => false end)
       = Ret (st, m', wb) →
       st ≠ 0 →
       transfers_loop B wa m (pre ++ x :: post) st0 = Ret (st, m', wb)
       ∧ armed (trace wb) =
           (armed (trace wa) + length pre
            + if (st =? - ETIMEDOUT)%Z then 1 else 0)%nat)
  ∧ (SPI_TIMEOUT_MS = 150
     ∧ ∀ wa msg xfer last stp wt,
         stopping wa = false →
         transfer_state wa (msg_spi msg) xfer = Ret (inr stp) →
         wait_for_completion_timeout B (arm wa stp xfer) SPI_TIMEOUT_MS
           = Ret (0, wt) →
         done wt <= 0
         ∧ bcm2708_process_transfer B wa msg xfer last =
             Ret (- ETIMEDOUT, msg, emit wt (EvLog "transfer timed out")))
  ∧ (∀ (wa wb : @world H) spi msg,
       bcm2708_spi_transfer wa spi msg = (0, wb) →
       transfers msg ≠ []
       ∧ queue wb =
           queue wa
           ++ [set_actual_length (set_status msg (- EINPROGRESS)) 0]).
Proof.
  intros HB Hq.
  split; [| split; [| split; [| split]]];
    [| | | | intros wa wb spi msg; apply submit_appends].
  - destruct (work_loop_serves B HB (queue w) 0 w Hq)
      as (w' & results & Hrun & Hqf & Hsv & Hco & Hall).
    exists w', results. do 2 (split; [done || by destruct (queue w) |]).
    do 3 (split; [done |]).
    intros results2 w2 Hsv2.
    assert (Hne : Forall (λ m, transfers m ≠ []) (queue w)).
    { eapply Forall_impl; [exact Hq |]. by intros m [? _]. }
    destruct (spec_serves_work _ _ _ _ _ Hsv2 Hne) as [Hrun2 Hco2].
    unfold bcm2708_work in Hrun. rewrite Hrun2 in Hrun.
    injection Hrun as ->. split; [| done].
    rewrite Hco in Hco2. by apply app_inv_head in Hco2.
  - intros wa m xs st0 r Hne. by apply transfers_loop_attempts.
  - intros wa m pre x post mx wx st0 st m' wb Hp Hx Hst. split.
    + apply transfers_loop_attempts; [by destruct pre |].
      exists pre, x, post, mx, wx. by repeat split.
    + destruct (spec_passed_ret _ _ _ _ _ _ Hp) as (_ & _ & Ha).
      rewrite <- Ha.
      exact (process_transfer_fails _ _ _ _ _ _ _ _ Hx Hst).
  - split; [done |]. intros wa msg xfer last stp wt Hs Ht Hw.
    by apply (process_transfer_timeout B wa msg xfer last stp wt).
Qed.

(** C5 (amended). In wide mode (the status word read by the pump has the
    wide-mode flag), whenever the number of bytes to push (the request
    clamped to the remaining length) is odd, the pump sets the remaining
    length to 0, writes no word to the FIFO and logs an error line; and
    the status of a transfer is never a protocol error: it is 0,
    -ESHUTDOWN, -EINVAL or -ETIMEDOUT. *)
Theorem C5_wide_odd_push :
  (∀ w req,
     0 <= len w < 2 ^ 31 → 0 <= req < 2 ^ 31 →
     has_flag (u32 (fst (readl (base w) SPI_CS))) SPI_CS_LEN = true →
     Z.odd (Z.min req (len w)) = true →
     let w' := bcm2708_wr_fifo w req in
     len w' = 0
     ∧ writes_to SPI_FIFO (trace w') = writes_to SPI_FIFO (trace w)
     ∧ trace w' =
         trace w
         ++ [EvRd SPI_CS (u32 (fst (readl (base w) SPI_CS)));
             EvLog "bcm2708_wr_fifo: length must be even, skipping."]
     ∧ tx_buf w' = tx_buf w ∧ mem w' = mem w ∧ done w' = done w)
  ∧ (∀ fuel w msg xfer last st msg' w',
       bcm2708_process_transfer fuel w msg xfer last = Ret (st, msg', w') →
       st = 0 ∨ st = - ESHUTDOWN ∨ st = - EINVAL ∨ st = - ETIMEDOUT).
Proof.
  split.
  - intros w req Hlen Hreq Hc Hodd w'.
    pose proof (wr_fifo_push w req Hlen Hreq) as Hp. fold w' in Hp.
    unfold push_post in Hp. cbv zeta in Hp. rewrite Hc in Hp.
    rewrite <- Z.negb_odd, Hodd in Hp. simpl in Hp.
    destruct Hp as (Hm & _ & Hd & Ht & Hl & Htx).
    repeat split; try done.
    rewrite Ht, writes_to_app. simpl. by rewrite app_nil_r.
  - intros fuel w msg xfer last st msg' w' Hr.
    apply process_transfer_ret in Hr.
    destruct Hr as (_ & _ & [(? & _) | [(? & _) | [(? & _) | (? & _)]]]);
      auto.
Qed.

(** C7 (amended). Once the stopping flag is set (as [remove_block] sets
    it), a submit leaves everything, in particular the queue, unchanged;
    it returns -ESHUTDOWN for a message with at least one transfer and
    -EINVAL for a message without transfers. *)
Theorem C7_submit_after_shutdown w spi msg :
  stopping w = true →
  snd (bcm2708_spi_transfer w spi msg) = w
  ∧ (transfers msg ≠ [] →
     fst (bcm2708_spi_transfer w spi msg) = - ESHUTDOWN)
  ∧ (transfers msg = [] →
     fst (bcm2708_spi_transfer w spi msg) = - EINVAL)
  ∧ (∀ w0 : world, stopping (remove_block w0) = true
                   ∧ queue (remove_block w0) = queue w0).
Proof.
  intros Hs. unfold bcm2708_spi_transfer. rewrite Hs.
  destruct (transfers msg); done.
Qed.

(** C9. For a peer without the no-chip-select flag, while the controller
    is not stopping: the count of chip selects is 3; setup returns -EINVAL
    and leaves the peer as it is when the index is greater than the count;
    with an index of at most the count, also equal to it, setup returns 0
    and stores the resolved state whenever the resolver succeeds and the
    state record is there or can be allocated; and a setup that returns 0
    has an index of at most the count. *)
Theorem C9_chipselect_boundary w spi (alloc_ok : bool) :
  stopping w = false → has_flag (mode spi) SPI_NO_CS = false →
  num_chipselect = 3
  ∧ (num_chipselect < chip_select spi →
     bcm2708_spi_setup w spi alloc_ok = (- EINVAL, spi))
  ∧ (chip_select spi <= num_chipselect →
     ∀ st,
       bcm2708_setup_state (clk w) (max_speed_hz spi) (chip_select spi)
         (mode spi) (bits_per_word spi) = inr st →
       is_Some (controller_state spi) ∨ alloc_ok = true →
       bcm2708_spi_setup w spi alloc_ok
       = (0, set_controller_state spi (Some st)))
  ∧ (∀ spi', bcm2708_spi_setup w spi alloc_ok = (0, spi') →
     chip_select spi <= num_chipselect).
Proof.
  intros Hs Hm. unfold bcm2708_spi_setup. rewrite Hs, Hm. simpl negb.
  rewrite andb_true_l.
  split; [done |]. split; [| split].
  - intros Hgt. destruct (Z.ltb_spec num_chipselect (chip_select spi)); [done | lia].
  - intros Hle st Hst Halloc.
    destruct (Z.ltb_spec num_chipselect (chip_select spi)); [lia |].
    destruct (controller_state spi) as [st0 |] eqn:Ecs.
    + simpl. rewrite Hst. done.
    + destruct Halloc as [[? ?] | ->]; [done |]. simpl. rewrite Hst. done.
  - intros spi'.
    destruct (Z.ltb_spec num_chipselect (chip_select spi)); [| lia].
    intros [= ? ?].
Qed.

(** C10. Once the stopping flag is set (as [remove_block] sets it), every
    transfer the worker comes to fails with -ESHUTDOWN and leaves the world
    as it is, nothing being armed; the loop over the remaining transfers
    of a message, from whatever point, ends with -ESHUTDOWN and the
    message gets exactly one completion callback with that status; and the
    worker gives every queued message its one callback with -ESHUTDOWN, in
    queue order, without any register access. *)
Theorem C10_stopping_fails_transfers (fuel : nat) w :
  stopping w = true →
  (∀ msg xfer last,
     bcm2708_process_transfer fuel w msg xfer last
     = Ret (- ESHUTDOWN, msg, w))
  ∧ (∀ msg xs st0, xs ≠ [] →
       transfers_loop fuel w msg xs st0 = Ret (- ESHUTDOWN, msg, w)
       ∧ trace (message_done w msg (- ESHUTDOWN)) =
           trace w
           ++ [EvComplete (msg_context msg) (- ESHUTDOWN)
                 (actual_length msg)])
  ∧ (Forall (λ m, transfers m ≠ []) (queue w) →
     ∃ w', bcm2708_work fuel w = Ret w' ∧ queue w' = []
       ∧ trace w' =
           trace w
           ++ ((λ m, EvComplete (msg_context m) (- ESHUTDOWN)
                       (actual_length m)) <$> queue w))
  ∧ (∀ w0 : world, stopping (remove_block w0) = true).
Proof.
  intros Hs.
  assert (Hp : ∀ w1 : world, stopping w1 = true → ∀ msg xfer last,
            bcm2708_process_transfer fuel w1 msg xfer last
            = Ret (- ESHUTDOWN, msg, w1)).
  { intros w1 Hs1 msg xfer last. unfold bcm2708_process_transfer.
    by rewrite Hs1. }
  assert (Hl : ∀ w1 : world, stopping w1 = true → ∀ msg xs st0, xs ≠ [] →
            transfers_loop fuel w1 msg xs st0 = Ret (- ESHUTDOWN, msg, w1)).
  { intros w1 Hs1 msg [| x rest] st0 Hne; [done |].
    cbn [transfers_loop]. rewrite Hp by done. done. }
  split; [by apply Hp |]. split; [| split; [| done]].
  - intros msg xs st0 Hne. split; [by apply Hl | done].
  - unfold bcm2708_work. generalize 0 as st0.
    revert Hs. generalize (eq_refl (queue w)).
    generalize (queue w) at 1 3 4 5 as q.
    intros q. revert w. induction q as [| m q IH]; intros w Hq Hs st0 Hall.
    + exists w. simpl. rewrite app_nil_r. done.
    + inversion Hall as [| ? ? Hne Hall']; subst.
      cbn [work_loop]. rewrite Hl by done. simpl.
      destruct (IH (message_done (set_queue w q) m (- ESHUTDOWN))
                  eq_refl Hs (- ESHUTDOWN) Hall') as (w' & Hrun & Hqf & Ht).
      exists w'. split; [done |]. split; [done |].
      rewrite Ht. simpl. rewrite <- app_assoc. done.
Qed.

End Proofs.

(** ** Runs on the sample inputs *)

Lemma C1_interrupt_cases_witness :
  ∃ w', bcm2708_spi_interrupt 0 w_wide3 = Ret w'
        ∧ push_post (snd (bcm2708_rd w_wide3 SPI_CS)) 16 w'.
Proof.
  apply (proj1 (proj2 (C1_interrupt_cases 0 w_wide3 ltac:(simpl; lia))));
    [reflexivity | discriminate].
Defined.

Lemma C1_counterexample :
  ∃ w', bcm2708_spi_interrupt 0 w_wide3 = Ret w'
        ∧ has_flag (u32 (fst (readl (base w_wide3) SPI_CS))) SPI_CS_DONE = true
        ∧ len w_wide3 = 3
        ∧ writes_to SPI_FIFO (trace w') = []
        ∧ len w_wide3 - len w' ≠
            Z.of_nat (length (writes_to SPI_FIFO (trace w'))).
Proof.
  eexists. split; [reflexivity |]. repeat split; done.
Qed.

Example setup_peer0 :
  bcm2708_spi_setup w_probe (mk_spi 4000000 0 0 8 None) true = (0, peer0).
Proof. reflexivity. Qed.

(** The loopback device empties its receive FIFO. *)
Lemma loop_rxd_clears k : ∀ h : loop_dev,
  (length (ld_rx h) ≤ k)%nat → rxd_clears k h (u32 (loop_status h)) = true.
Proof.
  induction k as [| k IH]; intros [wide rx irqs] Hlen; simpl in Hlen.
  - destruct rx; [| simpl in Hlen; lia]. by destruct wide.
  - destruct rx as [| a rx].
    + by destruct wide.
    + cbn [rxd_clears].
      replace (has_flag (u32 (loop_status (mk_loop wide (a :: rx) irqs)))
                 SPI_CS_RXD) with true by (by destruct wide).
      apply (IH (mk_loop wide (take 15 rx) irqs)). simpl.
      rewrite length_take. simpl in Hlen. lia.
Qed.

Lemma loop_drains : @drains_within loop_dev _ 16.
Proof.
  intros [wide rx irqs] c. cbn [rxd_clears].
  destruct (has_flag c SPI_CS_RXD); [| done].
  apply (loop_rxd_clears 15 (mk_loop wide (tail (take 16 rx)) irqs)). simpl.
  assert (Ht : (length (take 16 rx) ≤ 16)%nat) by (rewrite length_take; lia).
  destruct (take 16 rx); simpl in *; lia.
Qed.

Lemma C3_worker_order_witness :
  ∃ w' results,
    bcm2708_work 16 (snd (bcm2708_spi_transfer w_probe peer0 msg3)) = Ret w'
    ∧ queue w' = []
    ∧ spec_serves 16 (snd (bcm2708_spi_transfer w_probe peer0 msg3))
        (queue (snd (bcm2708_spi_transfer w_probe peer0 msg3))) results w'
    ∧ completions (trace w') =
        completions (trace (snd (bcm2708_spi_transfer w_probe peer0 msg3)))
        ++ results.
Proof.
  destruct (proj1 (C3_worker_order 16
                     (snd (bcm2708_spi_transfer w_probe peer0 msg3))
                     loop_drains
                     ltac:(repeat constructor; [discriminate | by eexists])))
    as (w' & results & Hrun & Hq & Hsv & Hco & _).
  exists w', results. done.
Defined.

(** The example of the specification: three bytes on the loopback device
    at 4 MHz on a bus clock of 8 MHz. *)
Example worker_three_bytes :
  ∃ w', bcm2708_work 16 (snd (bcm2708_spi_transfer w_probe peer0 msg3))
        = Ret w'
        ∧ completions (trace w') = [(1, 0, 3)]
        ∧ writes_to SPI_CLK (trace w') = [2]
        ∧ writes_to SPI_FIFO (trace w') = [0x11; 0x22; 0x33]
        ∧ load (mem w') 0x2000 = 0x11 ∧ load (mem w') 0x2001 = 0x22
        ∧ load (mem w') 0x2002 = 0x33.
Proof. eexists. split; [vm_compute; reflexivity |]. vm_compute. done. Qed.

Lemma C5_wide_odd_push_witness :
  len (bcm2708_wr_fifo (snd (bcm2708_rd w_wide3 SPI_CS)) 16) = 0
  ∧ writes_to SPI_FIFO
      (trace (bcm2708_wr_fifo (snd (bcm2708_rd w_wide3 SPI_CS)) 16))
    = writes_to SPI_FIFO (trace (snd (bcm2708_rd w_wide3 SPI_CS))).
Proof.
  pose proof (proj1 (@C5_wide_odd_push script_dev _)
                (snd (bcm2708_rd w_wide3 SPI_CS)) 16
                ltac:(simpl; lia) ltac:(lia) eq_refl eq_refl) as Hw.
  cbv zeta in Hw. split; [exact (proj1 Hw) | exact (proj1 (proj2 Hw))].
Defined.

Lemma C5_counterexample :
  (has_flag (u32 (fst (readl (base w_wide17) SPI_CS))) SPI_CS_LEN = true
   ∧ Z.odd (len w_wide17) = true
   ∧ writes_to SPI_FIFO (trace (bcm2708_wr_fifo w_wide17 16))
     = [0; 0; 0; 0; 0; 0; 0; 0]
   ∧ len (bcm2708_wr_fifo w_wide17 16) = 1)
  ∧ (∃ w', bcm2708_work 16
             (snd (bcm2708_spi_transfer w_probe peer0 msg_wide3)) = Ret w'
           ∧ writes_to SPI_FIFO (trace w') = []
           ∧ completions (trace w') = [(2, 0, 3)]).
Proof.
  split; [repeat split; reflexivity |].
  eexists. split; [vm_compute; reflexivity |]. split; reflexivity.
Qed.

Lemma C7_submit_after_shutdown_witness :
  bcm2708_spi_transfer (remove_block w_probe) peer0 msg3
  = (- ESHUTDOWN, remove_block w_probe).
Proof.
  destruct (C7_submit_after_shutdown (remove_block w_probe) peer0 msg3
              eq_refl) as (Hw & Hr & _).
  rewrite (surjective_pairing (bcm2708_spi_transfer _ _ _)).
  rewrite Hw, Hr; [reflexivity | discriminate].
Defined.

Lemma C7_counterexample :
  stopping (remove_block w_probe) = true
  ∧ fst (bcm2708_spi_transfer (remove_block w_probe) peer0 msg_empty)
    = - EINVAL
  ∧ fst (bcm2708_spi_transfer (remove_block w_probe) peer0 msg_empty)
    ≠ - ESHUTDOWN.
Proof. repeat split; done. Qed.

Lemma C9_chipselect_boundary_witness :
  bcm2708_spi_setup w_probe (mk_spi 4000000 3 0 8 None) true
  = (0, mk_spi 4000000 3 0 8 (Some (mk_state 3 2))).
Proof.
  apply (proj1 (proj2 (proj2
           (C9_chipselect_boundary w_probe (mk_spi 4000000 3 0 8 None) true
              eq_refl eq_refl)))
         ltac:(simpl; unfold num_chipselect; lia) (mk_state 3 2) eq_refl).
  right; reflexivity.
Defined.

Lemma C10_stopping_fails_transfers_witness :
  ∃ w', bcm2708_work 0
          (remove_block (snd (bcm2708_spi_transfer w_probe peer0 msg3)))
        = Ret w'
    ∧ queue w' = []
    ∧ trace w' =
        trace (remove_block (snd (bcm2708_spi_transfer w_probe peer0 msg3)))
        ++ [EvComplete 1 (- ESHUTDOWN) 0].
Proof.
  apply (proj1 (proj2 (proj2
           (C10_stopping_fails_transfers 0
              (remove_block (snd (bcm2708_spi_transfer w_probe peer0 msg3)))
              eq_refl)))).
  repeat constructor. discriminate.
Defined.

(** C4 (failing input). A transfer with a speed override of 1 Hz, which
    the resolver rejects with -EINVAL on a bus clock of 250 MHz, is not
    resolved at submission: [bcm2708_spi_transfer] returns 0 and enqueues
    the message, and the override fails only later, in the worker. *)
Theorem C4_speed_override_not_checked :
  xfer_speed_hz xfer_slow ≠ 0
  ∧ bcm2708_setup_state (clk w_probe) (xfer_speed_hz xfer_slow)
      (chip_select peer0) (mode peer0) (bits_per_word peer0)
    = inl (- EINVAL)
  ∧ (∃ w', bcm2708_spi_transfer w_probe peer0 msg_slow = (0, w')
           ∧ queue w' =
               [set_actual_length (set_status msg_slow (- EINPROGRESS)) 0]
           ∧ ∃ w'', bcm2708_work 16 w' = Ret w''
                    ∧ completions (trace w'') = [(3, - EINVAL, 0)]).
Proof.
  split; [discriminate |]. split; [reflexivity |].
  eexists. split; [reflexivity |]. split; [reflexivity |].
  eexists. split; [vm_compute; reflexivity |]. reflexivity.
Qed.

(** * Further properties *)

(** ** Control word and divisor of the resolver *)

Lemma testbit_u32_shiftl_pow2 n s i :
  0 <= n → 0 <= s → 0 <= i →
  Z.testbit (u32 (Z.shiftl (2 ^ n) s)) i = (i <? 32) && (n + s =? i).
Proof.
  intros Hn Hs Hi. unfold u32.
  destruct (Z.ltb_spec i 32).
  - rewrite Z.mod_pow2_bits_low by lia. rewrite Z.shiftl_spec by lia.
    destruct (Z.ltb_spec (i - s) 0).
    + rewrite Z.testbit_neg_r by lia. symmetry. simpl. apply Z.eqb_neq. lia.
    + rewrite Z.pow2_bits_eqb by lia. simpl.
      destruct (Z.eqb_spec n (i - s)), (Z.eqb_spec (n + s) i); lia || done.
  - rewrite Z.mod_pow2_bits_high by lia. done.
Qed.

Lemma testbit_small x n i : 0 <= x < 2 ^ n → n <= i → Z.testbit x i = false.
Proof.
  intros Hx Hi. destruct (Z.eq_dec x 0) as [-> |]; [apply Z.bits_0 |].
  apply Z.bits_above_log2; [lia |].
  assert (Z.log2 x < n); [| lia].
  apply Z.log2_lt_pow2; lia.
Qed.

(** The control word bit by bit. *)
Lemma setup_cs_mode_bits c0 csel mode i :
  0 <= csel → 0 <= i →
  Z.testbit (setup_cs_mode c0 csel mode) i =
  Z.testbit c0 i
  || (has_flag mode SPI_CPOL && (i =? 3))
  || (has_flag mode SPI_CPHA && (i =? 2))
  || (if has_flag mode SPI_NO_CS then (i <? 2)
      else (has_flag mode SPI_CS_HIGH
            && ((i =? 6) || ((i <? 32) && (21 + csel =? i))))
           || Z.testbit csel i).
Proof.
  intros Hc Hi. unfold setup_cs_mode.
  assert (H3 : Z.testbit (Z.lor SPI_CS_CS_10 SPI_CS_CS_01) i = (i <? 2)).
  { change (Z.lor SPI_CS_CS_10 SPI_CS_CS_01) with (Z.ones 2).
    destruct (Z.ltb_spec i 2).
    - apply Z.ones_spec_low. lia.
    - apply Z.ones_spec_high. lia. }
  assert (Hpol : Z.testbit SPI_CS_CPOL i = (i =? 3)).
  { change SPI_CS_CPOL with (2 ^ 3). rewrite Z.pow2_bits_eqb by lia.
    apply Z.eqb_sym. }
  assert (Hpha : Z.testbit SPI_CS_CPHA i = (i =? 2)).
  { change SPI_CS_CPHA with (2 ^ 2). rewrite Z.pow2_bits_eqb by lia.
    apply Z.eqb_sym. }
  assert (Hcsp : Z.testbit SPI_CS_CSPOL i = (i =? 6)).
  { change SPI_CS_CSPOL with (2 ^ 6). rewrite Z.pow2_bits_eqb by lia.
    apply Z.eqb_sym. }
  assert (Hline : Z.testbit (u32 (Z.shiftl SPI_CS_CSPOL0 csel)) i
                  = (i <? 32) && (21 + csel =? i)).
  { change SPI_CS_CSPOL0 with (2 ^ 21).
    apply testbit_u32_shiftl_pow2; lia. }
  destruct (has_flag mode SPI_CPOL), (has_flag mode SPI_CPHA),
    (has_flag mode SPI_NO_CS), (has_flag mode SPI_CS_HIGH);
    simpl negb; cbv iota;
    rewrite ?Z.lor_spec, <- ?(Z.lor_spec SPI_CS_CS_10 SPI_CS_CS_01), ?H3,
      ?Hpol, ?Hpha, ?Hcsp, ?Hline;
    btauto.
Qed.

(** The control word of a resolver that succeeds. *)
Lemma setup_state_cs bus_hz hz csel mode bpw st :
  bcm2708_setup_state bus_hz hz csel mode bpw = inr st →
  ∃ c0, (c0 = 0 ∨ c0 = 2 ^ 13)
        ∧ cs st = setup_cs_mode c0 (u8 csel) (u8 mode).
Proof.
  unfold bcm2708_setup_state. destruct (setup_cdiv bus_hz hz); [| done].
  destruct (u8 bpw =? 8); [intros [= <-]; exists 0; auto |].
  destruct (u8 bpw =? 9); [intros [= <-]; exists (2 ^ 13); auto | done].
Qed.

Lemma testbit_c0 c0 i :
  c0 = 0 ∨ c0 = 2 ^ 13 → 0 <= i → i ≠ 13 → Z.testbit c0 i = false.
Proof.
  intros [-> | ->] Hi Hne; [apply Z.bits_0 |].
  apply Z.pow2_bits_false. lia.
Qed.

(** The bit [i] of the control word, away from the wide-mode flag. *)
Lemma setup_state_bit bus_hz hz csel mode bpw st i :
  bcm2708_setup_state bus_hz hz csel mode bpw = inr st →
  0 <= i → i ≠ 13 →
  Z.testbit (cs st) i =
  (has_flag (u8 mode) SPI_CPOL && (i =? 3))
  || (has_flag (u8 mode) SPI_CPHA && (i =? 2))
  || (if has_flag (u8 mode) SPI_NO_CS then (i <? 2)
      else (has_flag (u8 mode) SPI_CS_HIGH
            && ((i =? 6) || ((i <? 32) && (21 + u8 csel =? i))))
           || Z.testbit (u8 csel) i).
Proof.
  intros Hst Hi Hne.
  destruct (setup_state_cs _ _ _ _ _ _ Hst) as (c0 & Hc0 & ->).
  pose proof (u8_range csel).
  rewrite setup_cs_mode_bits by lia.
  rewrite (testbit_c0 c0 i) by done. done.
Qed.

(** A bit that no flag of the resolver drives shows the chip-select
    index. *)
Lemma setup_state_free_bit bus_hz hz csel mode bpw st i :
  bcm2708_setup_state bus_hz hz csel mode bpw = inr st →
  3 < i < 21 → i ≠ 6 → i ≠ 13 →
  Z.testbit (cs st) i =
  negb (has_flag (u8 mode) SPI_NO_CS) && Z.testbit (u8 csel) i.
Proof.
  intros Hst Hi H6 H13. pose proof (u8_range csel) as Hr.
  rewrite (setup_state_bit _ _ _ _ _ _ _ Hst) by lia.
  replace (i =? 3) with false by (symmetry; apply Z.eqb_neq; lia).
  replace (i =? 2) with false by (symmetry; apply Z.eqb_neq; lia).
  replace (i =? 6) with false by (symmetry; apply Z.eqb_neq; lia).
  replace (i <? 2) with false by (symmetry; apply Z.ltb_ge; lia).
  replace (21 + u8 csel =? i) with false by (symmetry; apply Z.eqb_neq; lia).
  rewrite !andb_false_r. simpl.
  by destruct (has_flag (u8 mode) SPI_NO_CS).
Qed.

(** X1. Whenever the resolver succeeds for a chip select below 128, or for
    a mode with the no-chip-select flag, the control word it stores has
    "transfer active" and both interrupt enables clear: only the arming
    of a transfer sets them. (A chip select of 128 or more is or-ed into
    the "transfer active" bit.) *)
Theorem setup_state_idle_word bus_hz hz csel mode bpw st :
  u8 csel < 128 ∨ has_flag (u8 mode) SPI_NO_CS = true →
  bcm2708_setup_state bus_hz hz csel mode bpw = inr st →
  has_flag (cs st) SPI_CS_TA = false
  ∧ has_flag (cs st) SPI_CS_INTR = false
  ∧ has_flag (cs st) SPI_CS_INTD = false.
Proof.
  intros Hsel Hst. pose proof (u8_range csel) as Hr.
  rewrite (has_flag_pow2 _ 7), (has_flag_pow2 _ 10), (has_flag_pow2 _ 9)
    by lia.
  rewrite !(setup_state_free_bit _ _ _ _ _ _ _ Hst) by lia.
  rewrite (testbit_small (u8 csel) 8 9), (testbit_small (u8 csel) 8 10)
    by lia.
  rewrite !andb_false_r. split; [| done].
  destruct Hsel as [Hsel | ->]; [| done].
  rewrite (testbit_small (u8 csel) 7 7) by lia. apply andb_false_r.
Qed.

Lemma setup_state_idle_word_witness :
  has_flag (cs (mk_state 11 256)) SPI_CS_TA = false
  ∧ has_flag (cs (mk_state 11 256)) SPI_CS_INTR = false
  ∧ has_flag (cs (mk_state 11 256)) SPI_CS_INTD = false.
Proof.
  apply (setup_state_idle_word 250000000 1000000 0
           (SPI_CPOL + SPI_NO_CS + SPI_CS_HIGH) 8 (mk_state 11 256));
    [right; reflexivity | reflexivity].
Defined.

(** X2. Whenever the resolver succeeds for a chip select of at most 3, or
    for a mode with the no-chip-select flag, the clock polarity and clock
    phase bits of the control word are those of the mode. *)
Theorem setup_state_clock_mode bus_hz hz csel mode bpw st :
  u8 csel <= 3 ∨ has_flag (u8 mode) SPI_NO_CS = true →
  bcm2708_setup_state bus_hz hz csel mode bpw = inr st →
  has_flag (cs st) SPI_CS_CPOL = has_flag (u8 mode) SPI_CPOL
  ∧ has_flag (cs st) SPI_CS_CPHA = has_flag (u8 mode) SPI_CPHA.
Proof.
  intros Hsel Hst. pose proof (u8_range csel) as Hr.
  rewrite (has_flag_pow2 _ 3), (has_flag_pow2 _ 2) by lia.
  rewrite !(setup_state_bit _ _ _ _ _ _ _ Hst) by lia.
  replace (21 + u8 csel =? 3) with false by (symmetry; apply Z.eqb_neq; lia).
  replace (21 + u8 csel =? 2) with false by (symmetry; apply Z.eqb_neq; lia).
  assert (Hb : has_flag (u8 mode) SPI_NO_CS = false →
               Z.testbit (u8 csel) 3 = false ∧ Z.testbit (u8 csel) 2 = false).
  { intros Hno. destruct Hsel as [Hsel | Hsel]; [| congruence].
    split; apply (testbit_small _ 2); lia. }
  destruct (has_flag (u8 mode) SPI_NO_CS).
  - change (3 <? 2) with false. change (2 <? 2) with false.
    change (3 =? 3) with true. change (2 =? 2) with true.
    change (3 =? 2) with false. change (2 =? 3) with false.
    by rewrite !andb_false_r, !andb_true_r, !orb_false_r.
  - destruct (Hb eq_refl) as [-> ->].
    change (3 =? 3) with true. change (2 =? 2) with true.
    change (3 =? 2) with false. change (2 =? 3) with false.
    change (3 =? 6) with false. change (2 =? 6) with false.
    by rewrite !andb_false_r, !andb_true_r, !orb_false_r.
Qed.

Lemma setup_state_clock_mode_witness :
  has_flag (cs (mk_state 9 256)) SPI_CS_CPOL = has_flag (u8 2) SPI_CPOL
  ∧ has_flag (cs (mk_state 9 256)) SPI_CS_CPHA = has_flag (u8 2) SPI_CPHA.
Proof.
  apply (setup_state_clock_mode 250000000 1000000 1 2 8 (mk_state 9 256));
    [left; vm_compute; discriminate | reflexivity].
Defined.

(** X3. The chip select in the control word of a successful resolver.
    Without the no-chip-select flag and for a chip select of at most 3:
    the low two bits are the chip select, and the polarity bit and the
    polarity bit of the line, bit 21 + chip select, are set exactly for an
    active-high mode. With the no-chip-select flag: the low two bits are
    3, the reserved value, and the polarity bit and the polarity bits of
    the three lines are clear, whatever the chip select and the rest of
    the mode. *)
Theorem setup_state_chip_select bus_hz hz csel mode bpw st :
  bcm2708_setup_state bus_hz hz csel mode bpw = inr st →
  (has_flag (u8 mode) SPI_NO_CS = false → u8 csel <= 3 →
   Z.land (cs st) 3 = u8 csel
   ∧ has_flag (cs st) SPI_CS_CSPOL = has_flag (u8 mode) SPI_CS_HIGH
   ∧ Z.testbit (cs st) (21 + u8 csel) = has_flag (u8 mode) SPI_CS_HIGH)
  ∧ (has_flag (u8 mode) SPI_NO_CS = true →
     Z.land (cs st) 3 = 3
     ∧ has_flag (cs st) SPI_CS_CSPOL = false
     ∧ has_flag (cs st) SPI_CS_CSPOL0 = false
     ∧ has_flag (cs st) SPI_CS_CSPOL1 = false
     ∧ has_flag (cs st) SPI_CS_CSPOL2 = false).
Proof.
  intros Hst. pose proof (u8_range csel) as Hr.
  assert (Hlow : ∀ v, 0 <= v <= 3 →
            (∀ i, 0 <= i < 2 → Z.testbit (cs st) i = Z.testbit v i) →
            Z.land (cs st) 3 = v).
  { intros v Hv Hb. apply Z.bits_inj'. intros i Hi.
    rewrite Z.land_spec. change 3 with (Z.ones 2).
    destruct (Z.ltb_spec i 2).
    - rewrite Z.ones_spec_low, andb_true_r by lia. apply Hb. lia.
    - rewrite Z.ones_spec_high, andb_false_r by lia.
      symmetry. apply (testbit_small v 2); lia. }
  split.
  - intros Hno Hsel. split; [| split].
    + apply Hlow; [lia |]. intros i Hi.
      rewrite (setup_state_bit _ _ _ _ _ _ _ Hst), Hno by lia.
      replace (i =? 3) with false by (symmetry; apply Z.eqb_neq; lia).
      replace (i =? 2) with false by (symmetry; apply Z.eqb_neq; lia).
      replace (i =? 6) with false by (symmetry; apply Z.eqb_neq; lia).
      replace (21 + u8 csel =? i) with false
        by (symmetry; apply Z.eqb_neq; lia).
      by rewrite !andb_false_r.
    + rewrite (has_flag_pow2 _ 6) by lia.
      rewrite (setup_state_bit _ _ _ _ _ _ _ Hst), Hno by lia.
      rewrite (testbit_small (u8 csel) 2 6) by lia.
      simpl. btauto.
    + rewrite (setup_state_bit _ _ _ _ _ _ _ Hst), Hno by lia.
      replace (21 + u8 csel =? 3) with false
        by (symmetry; apply Z.eqb_neq; lia).
      replace (21 + u8 csel =? 2) with false
        by (symmetry; apply Z.eqb_neq; lia).
      replace (21 + u8 csel <? 32) with true
        by (symmetry; apply Z.ltb_lt; lia).
      rewrite Z.eqb_refl, (testbit_small (u8 csel) 2 (21 + u8 csel)) by lia.
      btauto.
  - intros Hno. split.
    + apply Hlow; [lia |]. intros i Hi.
      rewrite (setup_state_bit _ _ _ _ _ _ _ Hst), Hno by lia.
      replace (i =? 3) with false by (symmetry; apply Z.eqb_neq; lia).
      replace (i =? 2) with false by (symmetry; apply Z.eqb_neq; lia).
      rewrite !andb_false_r. simpl. change 3 with (Z.ones 2).
      rewrite Z.ones_spec_low by lia. apply Z.ltb_lt. lia.
    + rewrite (has_flag_pow2 _ 6), (has_flag_pow2 _ 21),
        (has_flag_pow2 _ 22), (has_flag_pow2 _ 23) by lia.
      rewrite !(setup_state_bit _ _ _ _ _ _ _ Hst), Hno by lia.
      repeat match goal with
             | |- context [?a <? ?b] =>
               let v := eval vm_compute in (a <? b) in
               change (a <? b) with v
             | |- context [?a =? ?b] =>
               let v := eval vm_compute in (a =? b) in
               change (a =? b) with v
             end.
      repeat split; btauto.
Qed.

Lemma setup_state_chip_select_witness :
  Z.land (cs (mk_state 8388674 256)) 3 = u8 2
  ∧ has_flag (cs (mk_state 8388674 256)) SPI_CS_CSPOL
    = has_flag (u8 4) SPI_CS_HIGH
  ∧ Z.testbit (cs (mk_state 8388674 256)) (21 + u8 2)
    = has_flag (u8 4) SPI_CS_HIGH.
Proof.
  apply (proj1 (setup_state_chip_select 250000000 1000000 2 4 8
                  (mk_state 8388674 256) eq_refl));
    [reflexivity | vm_compute; discriminate].
Defined.

(** The divisor the hardware applies after a resolver that succeeds. *)
Lemma resolver_effective bus_hz hz csel mode bpw st :
  0 <= bus_hz <= 2 ^ 30 → 0 <= hz < 2 ^ 32 →
  bcm2708_setup_state bus_hz hz csel mode bpw = inr st →
  let d := effective_divisor (cdiv st) in
  2 <= d <= 65536
  ∧ ((bus_hz <= hz ∧ d = 2)
     ∨ (hz = 0 ∧ 0 < bus_hz ∧ d = 65536)
     ∨ (0 < hz < bus_hz
        ∧ ∃ k, 0 <= k ∧ d = 2 ^ k ∧ bus_hz <= d * hz
               ∧ ∀ j, 0 <= j → bus_hz <= 2 ^ j * hz → d <= 2 ^ j)).
Proof.
  intros Hbus Hhz Hst.
  pose proof (setup_state_cdiv bus_hz hz csel mode bpw
                (setup_state_inr_bpw _ _ _ _ _ _ Hst)) as Hr.
  rewrite Hst in Hr.
  destruct (Z.le_gt_cases bus_hz hz) as [Hc | Hc].
  - unfold setup_cdiv in Hr. destruct (Z.leb_spec bus_hz hz); [| lia].
    destruct Hr as (st' & [= <-] & E). change (u16 2) with 2 in E.
    rewrite E. change (effective_divisor 2) with 2. cbv zeta.
    split; [lia | auto].
  - destruct (Z.eq_dec hz 0) as [-> | Hnz].
    + unfold setup_cdiv in Hr. destruct (Z.leb_spec bus_hz 0); [lia |].
      simpl in Hr. destruct Hr as (st' & [= <-] & E).
      change (u16 0) with 0 in E. rewrite E.
      change (effective_divisor 0) with 65536. cbv zeta.
      split; [lia |]. right. left. done.
    + destruct (resolver_slow bus_hz hz ltac:(lia) ltac:(lia))
        as (k & Hk & Ek & H2 & Hge & Hleast & Hcd).
      rewrite Hcd in Hr. clear Hcd.
      destruct (Z.ltb_spec 65536 (2 ^ k)); [done |].
      assert (Hd : effective_divisor (cdiv st) = 2 ^ k).
      { destruct (Z.eqb_spec (2 ^ k) 65536) as [E64 | N64].
        - destruct Hr as (st' & [= <-] & E). change (u16 0) with 0 in E.
          rewrite E, E64. done.
        - destruct Hr as (st' & [= <-] & E).
          rewrite u16_small in E by lia. rewrite E.
          unfold effective_divisor.
          destruct (Z.eqb_spec (2 ^ k) 0); [lia | done]. }
      cbv zeta. rewrite Hd. split; [lia |]. right. right.
      split; [lia |]. exists k. done.
Qed.

(** X4. For a bus clock of at most 2^30 Hz a slower request never gets a
    faster clock: of two successful resolutions, the one for the larger
    request has the smaller or the same effective divisor, and so the
    same or a higher clock. *)
Theorem resolver_monotone bus_hz hz1 hz2 csel1 mode1 bpw1 csel2 mode2 bpw2
    st1 st2 :
  0 <= bus_hz <= 2 ^ 30 → 0 <= hz1 → hz1 <= hz2 → hz2 < 2 ^ 32 →
  bcm2708_setup_state bus_hz hz1 csel1 mode1 bpw1 = inr st1 →
  bcm2708_setup_state bus_hz hz2 csel2 mode2 bpw2 = inr st2 →
  effective_divisor (cdiv st2) <= effective_divisor (cdiv st1)
  ∧ bus_hz / effective_divisor (cdiv st1)
    <= bus_hz / effective_divisor (cdiv st2).
Proof.
  intros Hbus H1 H12 H2 Hst1 Hst2.
  assert (Hh1 : 0 <= hz1 < 2 ^ 32) by lia.
  assert (Hh2 : 0 <= hz2 < 2 ^ 32) by lia.
  destruct (resolver_effective _ _ _ _ _ _ Hbus Hh1 Hst1) as [Hr1 Hc1].
  destruct (resolver_effective _ _ _ _ _ _ Hbus Hh2 Hst2) as [Hr2 Hc2].
  assert (Hle : effective_divisor (cdiv st2) <= effective_divisor (cdiv st1)).
  { destruct Hc2
      as [[_ E2] | [(-> & Hpos & E2) | (Hs2 & k2 & _ & E2 & _ & Hl2)]].
    - lia.
    - assert (hz1 = 0) by lia. subst hz1.
      destruct Hc1 as [[? _] | [(_ & _ & E1) | (? & _)]]; lia.
    - destruct Hc1 as [[? _] | [(_ & _ & E1) | (Hs1 & k1 & Hk1 & E1 & Hg1 & _)]].
      + lia.
      + lia.
      + rewrite E1. apply Hl2; [done |]. rewrite <- E1. nia. }
  split; [done |].
  apply Z.div_le_compat_l; lia.
Qed.

Lemma resolver_monotone_witness :
  effective_divisor (cdiv (mk_state 0 256))
  <= effective_divisor (cdiv (mk_state 0 0))
  ∧ 250000000 / effective_divisor (cdiv (mk_state 0 0))
    <= 250000000 / effective_divisor (cdiv (mk_state 0 256)).
Proof.
  apply (resolver_monotone 250000000 0 1000000 0 0 8 0 0 8
           (mk_state 0 0) (mk_state 0 256));
    [lia | lia | lia | lia | reflexivity | reflexivity].
Defined.

(** X5. For a bus clock of at most 2^30 Hz, a request that fits a u32 and
    a valid word width, the resolver fails exactly when the request is
    nonzero and even the largest divisor, 65536, leaves the clock above
    it. *)
Theorem resolver_too_slow bus_hz hz csel mode bpw :
  0 <= bus_hz <= 2 ^ 30 → 0 <= hz < 2 ^ 32 → u8 bpw = 8 ∨ u8 bpw = 9 →
  bcm2708_setup_state bus_hz hz csel mode bpw = inl (- EINVAL)
  ↔ 0 < hz ∧ 65536 * hz < bus_hz.
Proof.
  intros Hbus Hhz Hb.
  pose proof (setup_state_cdiv bus_hz hz csel mode bpw Hb) as Hr.
  destruct (Z.le_gt_cases bus_hz hz) as [Hc | Hc].
  { unfold setup_cdiv in Hr. destruct (Z.leb_spec bus_hz hz); [| lia].
    destruct Hr as (st & -> & _). split; [done | lia]. }
  destruct (Z.eq_dec hz 0) as [-> | Hnz].
  { unfold setup_cdiv in Hr. destruct (Z.leb_spec bus_hz 0); [lia |].
    simpl in Hr. destruct Hr as (st & -> & _). split; [done | lia]. }
  destruct (resolver_slow bus_hz hz ltac:(lia) ltac:(lia))
    as (k & Hk & Ek & H2 & Hge & Hleast & Hcd).
  rewrite Hcd in Hr. clear Hcd.
  destruct (Z.ltb_spec 65536 (2 ^ k)) as [Hbig | Hsmall].
  - split; [| done]. intros _. split; [lia |].
    destruct (Z.lt_ge_cases (65536 * hz) bus_hz) as [| Hfit]; [done |].
    specialize (Hleast 16 ltac:(lia)). change (2 ^ 16) with 65536 in Hleast.
    lia.
  - assert (∃ st, bcm2708_setup_state bus_hz hz csel mode bpw = inr st)
      as [st Est].
    { destruct (2 ^ k =? 65536); destruct Hr as (st & ? & _); eauto. }
    rewrite Est. split; [done |]. intros [_ Hslow]. nia.
Qed.

Lemma resolver_too_slow_witness :
  bcm2708_setup_state 250000000 3814 0 0 8 = inl (- EINVAL)
  ↔ 0 < 3814 ∧ 65536 * 3814 < 250000000.
Proof.
  apply resolver_too_slow; [lia | lia | left; reflexivity].
Defined.

(** ** The pump *)

Lemma store_bytes_outside l : ∀ (m : gmap Z Z) p a,
  a < p ∨ p + Z.of_nat (length l) <= a →
  store_bytes m p l !! a = m !! a.
Proof.
  induction l as [| b l IH]; intros m p a Ha; [done |].
  cbn [store_bytes]. rewrite IH by (simpl in Ha; lia).
  apply lookup_insert_ne. simpl in Ha. lia.
Qed.

Lemma store_bytes_inside l : ∀ (m : gmap Z Z) p (i : nat) b,
  l !! i = Some b → store_bytes m p l !! (p + Z.of_nat i) = Some b.
Proof.
  induction l as [| b0 l IH]; intros m p i b Hi; [done |].
  cbn [store_bytes]. destruct i as [| i].
  - injection Hi as ->. rewrite store_bytes_outside by lia.
    rewrite Z.add_0_r. apply lookup_insert_eq.
  - replace (p + Z.of_nat (S i)) with (p + 1 + Z.of_nat i) by lia.
    by apply IH.
Qed.

Lemma writes_to_log reg s : writes_to reg [EvLog s] = [].
Proof. done. Qed.

Lemma wide_words_length l : (length (wide_words l) ≤ length l)%nat.
Proof.
  assert (Hboth : (length (wide_words l) ≤ length l)%nat
                  ∧ ∀ a, (length (wide_words (a :: l)) ≤ S (length l))%nat).
  { induction l as [| b l [IH1 IH2]].
    - split; [done |]. intros a. simpl. lia.
    - split; [apply IH2 |]. intros a. simpl. lia. }
  apply Hboth.
Qed.

Section MorePumpProofs.
Context {H : Type} `{Device H}.
Implicit Types w : @world H.

(** X6. A pull of [n] FIFO words stays inside its window of memory:
    without an rx buffer memory is unchanged; with the rx cursor at [p],
    every address outside [p, p + n) holds what it held, and the i-th
    address of the window holds the low byte of the i-th word read; the
    rx cursor moves on by [n]; the tx cursor, the remaining length, the
    completion and the writes to the FIFO and control registers are not
    touched. *)
Theorem rd_fifo_window w n :
  0 <= n < 2 ^ 32 →
  let w' := bcm2708_rd_fifo w n in
  let vs := fst (fifo_reads (Z.to_nat n) (base w)) in
  (rx_buf w = None → mem w' = mem w)
  ∧ (∀ p, rx_buf w = Some p →
       (∀ a, a < p ∨ p + n <= a → mem w' !! a = mem w !! a)
       ∧ (∀ (i : nat) v, vs !! i = Some v →
            mem w' !! (p + Z.of_nat i) = Some (u8 v)
            ∧ load (mem w') (p + Z.of_nat i) = u8 v))
  ∧ rx_buf w' = (λ p, p + n) <$> rx_buf w
  ∧ tx_buf w' = tx_buf w ∧ len w' = len w ∧ done w' = done w
  ∧ writes_to SPI_FIFO (trace w') = writes_to SPI_FIFO (trace w)
  ∧ writes_to SPI_CS (trace w') = writes_to SPI_CS (trace w).
Proof.
  intros Hn w' vs.
  destruct (rd_fifo_pull w n Hn) as (Hlen & Ht & _ & Hm & Hr & Htx & Hl & Hd).
  fold w' vs in Hlen, Ht, Hm, Hr, Htx, Hl, Hd.
  split; [| split].
  - intros Hrx. by rewrite Hrx in Hm.
  - intros p Hrx. rewrite Hrx in Hm. rewrite Hm. split.
    + intros a Ha. apply store_bytes_outside.
      rewrite length_fmap, Hlen. lia.
    + intros i v Hi.
      assert (Hs : store_bytes (mem w) p (u8 <$> vs) !! (p + Z.of_nat i)
                   = Some (u8 v)).
      { apply store_bytes_inside. by rewrite list_lookup_fmap, Hi. }
      split; [done |]. unfold load. rewrite Hs. simpl.
      unfold u8. apply Z.mod_mod. lia.
  - rewrite Hr, Htx, Hl, Hd, Ht, !writes_to_app, !writes_to_rd, !app_nil_r.
    repeat split; try done.
    destruct (rx_buf w); simpl; f_equal; lia.
Qed.

(** What a push does, in either word mode. *)
Lemma wr_fifo_effect w req :
  0 <= len w < 2 ^ 31 → 0 <= req < 2 ^ 31 →
  let w' := bcm2708_wr_fifo w req in
  0 <= len w' <= len w
  ∧ (∃ ws, writes_to SPI_FIFO (trace w') = writes_to SPI_FIFO (trace w) ++ ws
           ∧ Z.of_nat (length ws) <= Z.min req (len w)
           ∧ (has_flag (u32 (fst (readl (base w) SPI_CS))) SPI_CS_LEN = false
              → Z.of_nat (length ws) = len w - len w'
                ∧ len w' = len w - Z.min req (len w)
                ∧ ws = tx_bytes (mem w) (tx_buf w)
                         (Z.to_nat (Z.min req (len w)))))
  ∧ writes_to SPI_CS (trace w') = writes_to SPI_CS (trace w)
  ∧ writes_to SPI_CLK (trace w') = writes_to SPI_CLK (trace w)
  ∧ mem w' = mem w ∧ rx_buf w' = rx_buf w ∧ done w' = done w.
Proof.
  intros Hlen Hreq w'.
  pose proof (wr_fifo_push w req Hlen Hreq) as Hp. fold w' in Hp.
  unfold push_post in Hp. cbv zeta in Hp.
  destruct Hp as (Hm & Hr & Hd & Hp).
  set (n := Z.min req (len w)) in *. assert (Hn : 0 <= n <= len w) by lia.
  assert (Hne : SPI_FIFO ≠ SPI_CS) by done.
  assert (Hne' : SPI_FIFO ≠ SPI_CLK) by done.
  destruct (has_flag _ SPI_CS_LEN).
  - destruct (Z.even n).
    + destruct Hp as (Ht & Hl & _). rewrite Ht, Hl.
      split; [lia |]. split; [| by rewrite !writes_to_app; simpl;
        rewrite !writes_to_wr_ne, !app_nil_r by done].
      eexists. split.
      { rewrite writes_to_app. simpl. rewrite writes_to_wr_eq. done. }
      split; [| done].
      pose proof (wide_words_length
                    (tx_bytes (mem w) (tx_buf w) (Z.to_nat n))) as Hw.
      rewrite tx_bytes_length in Hw. lia.
    + destruct Hp as (Ht & Hl & _). rewrite Ht, Hl.
      split; [lia |]. split; [| by rewrite !writes_to_app, !app_nil_r].
      exists []. rewrite writes_to_app. simpl. split; [done |].
      split; [lia | done].
  - destruct Hp as (Ht & Hl & _). rewrite Ht, Hl.
    split; [lia |]. split; [| by rewrite !writes_to_app; simpl;
      rewrite !writes_to_wr_ne, !app_nil_r by done].
    eexists. split.
    { rewrite writes_to_app. simpl. rewrite writes_to_wr_eq. done. }
    rewrite tx_bytes_length. split; [lia |]. intros _.
    split; [lia | done].
Qed.

(** X7. A push never takes more than is left: for a remaining length and
    a request within the non-negative range of an [int], the remaining
    length does not grow and does not become negative, at most
    min(request, remaining length) values are written to the FIFO, and
    nothing is written to the control or the clock register; memory, the
    rx cursor and the completion are not touched. *)
Theorem wr_fifo_bounds w req :
  0 <= len w < 2 ^ 31 → 0 <= req < 2 ^ 31 →
  let w' := bcm2708_wr_fifo w req in
  0 <= len w' <= len w
  ∧ (∃ ws, writes_to SPI_FIFO (trace w') = writes_to SPI_FIFO (trace w) ++ ws
           ∧ Z.of_nat (length ws) <= Z.min req (len w))
  ∧ writes_to SPI_CS (trace w') = writes_to SPI_CS (trace w)
  ∧ writes_to SPI_CLK (trace w') = writes_to SPI_CLK (trace w)
  ∧ mem w' = mem w ∧ rx_buf w' = rx_buf w ∧ done w' = done w.
Proof.
  intros Hlen Hreq w'.
  destruct (wr_fifo_effect w req Hlen Hreq)
    as (Hl & (ws & Hws & Hn & _) & Hrest).
  split; [exact Hl |]. split; [| exact Hrest].
  exists ws. split; [exact Hws | exact Hn].
Qed.

End MorePumpProofs.

Lemma rd_fifo_window_witness :
  mem (bcm2708_rd_fifo w_probe 12) = mem w_probe.
Proof.
  apply (proj1 (rd_fifo_window w_probe 12 ltac:(lia))). reflexivity.
Defined.

Lemma wr_fifo_bounds_witness :
  0 <= len (bcm2708_wr_fifo w_wide17 16) <= len w_wide17.
Proof.
  apply (wr_fifo_bounds w_wide17 16); simpl; lia.
Defined.

(** ** The interrupt handler *)

Lemma tx_bytes_app m p n1 n2 :
  tx_bytes m p (n1 + n2) =
  tx_bytes m p n1 ++ tx_bytes m ((λ a, a + Z.of_nat n1) <$> p) n2.
Proof.
  revert p. induction n1 as [| n1 IH]; intros p.
  - simpl. destruct p; simpl; rewrite ?Z.add_0_r; done.
  - change (S n1 + n2)%nat with (S (n1 + n2)). rewrite !tx_bytes_S.
    destruct p as [a |]; rewrite IH; simpl; [| done].
    replace (a + 1 + Z.of_nat n1) with (a + Z.pos (Pos.of_succ_nat n1))
      by lia.
    done.
Qed.

Lemma has_flag_u32 x n :
  0 <= n < 32 → has_flag (u32 x) (2 ^ n) = has_flag x (2 ^ n).
Proof.
  intros Hn. rewrite !has_flag_pow2 by lia. unfold u32.
  apply Z.mod_pow2_bits_low. lia.
Qed.

Section InterruptProofs.
Context {H : Type} `{Device H}.
Implicit Types w : @world H.

(** What the pump leaves alone, whatever the remaining length. *)
Lemma wr_fifo_frame w n :
  let w' := bcm2708_wr_fifo w n in
  done w' = done w ∧ mem w' = mem w ∧ rx_buf w' = rx_buf w
  ∧ writes_to SPI_CS (trace w') = writes_to SPI_CS (trace w).
Proof.
  unfold bcm2708_wr_fifo.
  destruct (bcm2708_rd_spec w SPI_CS)
    as (_ & Ht & _ & Hm & Hr & _ & _ & Hd & _).
  destruct (bcm2708_rd w SPI_CS) as [c w1]. cbn [snd] in *.
  assert (Hne : SPI_FIFO ≠ SPI_CS) by done.
  destruct (has_flag c SPI_CS_LEN); [destruct (negb _) |].
  - simpl. rewrite Hd, Hm, Hr, Ht, !writes_to_app. simpl.
    by rewrite !app_nil_r.
  - destruct (wr_fifo_lossi_loop_spec
                (Z.to_nat (u32 (if len w <? n then len w else n) / 2)) w1)
      as (Ht' & _ & Hm' & Hr' & Hd' & _).
    rewrite Hd', Hm', Hr', Ht', Hd, Hm, Hr, Ht, !writes_to_app.
    rewrite writes_to_wr_ne by done. simpl. by rewrite !app_nil_r.
  - destruct (wr_fifo_loop_spec
                (Z.to_nat (u32 (if len w <? n then len w else n))) w1)
      as (Ht' & _ & Hm' & Hr' & Hd' & _).
    rewrite Hd', Hm', Hr', Ht', Hd, Hm, Hr, Ht, !writes_to_app.
    rewrite writes_to_wr_ne by done. simpl. by rewrite !app_nil_r.
Qed.

Lemma rd_fifo_frame w n :
  let w' := bcm2708_rd_fifo w n in
  done w' = done w ∧ len w' = len w ∧ tx_buf w' = tx_buf w
  ∧ writes_to SPI_CS (trace w') = writes_to SPI_CS (trace w)
  ∧ writes_to SPI_FIFO (trace w') = writes_to SPI_FIFO (trace w)
  ∧ (rx_buf w = None → mem w' = mem w ∧ rx_buf w' = None).
Proof.
  unfold bcm2708_rd_fifo.
  destruct (rd_fifo_loop_spec (Z.to_nat (u32 n)) w)
    as (Ht & _ & Hm & Hr & Htx & Hl & Hd & _).
  rewrite Ht, Hd, Hl, Htx, Hm, Hr, !writes_to_app, !writes_to_rd, !app_nil_r.
  do 5 (split; [done |]). intros ->. done.
Qed.

(** What the drain loop leaves alone. *)
Lemma drain_rx_frame fuel : ∀ c w w',
  drain_rx fuel c w = Ret w' →
  done w' = done w ∧ len w' = len w ∧ tx_buf w' = tx_buf w
  ∧ writes_to SPI_CS (trace w') = writes_to SPI_CS (trace w)
  ∧ writes_to SPI_FIFO (trace w') = writes_to SPI_FIFO (trace w)
  ∧ (rx_buf w = None → mem w' = mem w ∧ rx_buf w' = None).
Proof.
  induction fuel as [| fuel IH]; intros c w w'; cbn [drain_rx];
    destruct (has_flag c SPI_CS_RXD); try done.
  - by intros [= <-].
  - destruct (rd_fifo_frame w 1) as (Hd1 & Hl1 & Htx1 & Hcs1 & Hf1 & Hrx1).
    set (w1 := bcm2708_rd_fifo w 1) in *.
    destruct (bcm2708_rd_spec w1 SPI_CS)
      as (_ & Ht2 & _ & Hm2 & Hr2 & Htx2 & Hl2 & Hd2 & _).
    destruct (bcm2708_rd w1 SPI_CS) as [c' w2]. cbn [snd] in *.
    intros Hrun. destruct (IH _ _ _ Hrun) as (Hd & Hl & Htx & Hcs & Hf & Hrx).
    rewrite Hd, Hl, Htx, Hcs, Hf, Hd2, Hl2, Htx2, Ht2, !writes_to_app.
    simpl. rewrite !app_nil_r, Hd1, Hl1, Htx1, Hcs1, Hf1.
    do 5 (split; [done |]).
    intros Hno. destruct (Hrx1 Hno) as [Hm1 Hr1].
    destruct (Hrx ltac:(congruence)) as [Hm Hr]. split; congruence.
  - by intros [= <-].
Qed.

(** What one run of the handler does to the cursors, the completion and
    the FIFO. *)
Lemma interrupt_effect fuel w w' :
  0 <= len w < 2 ^ 31 →
  bcm2708_spi_interrupt fuel w = Ret w' →
  0 <= len w' <= len w
  ∧ ((done w' = done w
      ∧ writes_to SPI_CS (trace w') = writes_to SPI_CS (trace w))
     ∨ (len w = 0
        ∧ has_flag (u32 (fst (readl (base w) SPI_CS))) SPI_CS_DONE = true
        ∧ done w' = u32 (done w + 1)
        ∧ ∃ c0,
            writes_to SPI_CS (trace w') = writes_to SPI_CS (trace w) ++ [c0]
            ∧ has_flag c0 SPI_CS_INTR = false
            ∧ has_flag c0 SPI_CS_INTD = false))
  ∧ fifo_sent w w'.
Proof.
  intros Hlen. unfold fifo_sent. rewrite interrupt_unfold. cbv zeta.
  destruct (bcm2708_rd_spec w SPI_CS)
    as (_ & Ht1 & Hb1 & Hm1 & Hr1 & Htx1 & Hl1 & Hd1 & _).
  set (w1 := snd (bcm2708_rd w SPI_CS)) in *.
  set (c := u32 (fst (readl (base w) SPI_CS))) in *.
  assert (Hf1 : writes_to SPI_FIFO (trace w1) = writes_to SPI_FIFO (trace w))
    by (by rewrite Ht1, writes_to_app, app_nil_r).
  assert (Hc1 : writes_to SPI_CS (trace w1) = writes_to SPI_CS (trace w))
    by (by rewrite Ht1, writes_to_app, app_nil_r).
  assert (Hpush : ∀ w2 req, 0 <= req < 2 ^ 31 →
            len w2 = len w → done w2 = done w →
            writes_to SPI_FIFO (trace w2) = writes_to SPI_FIFO (trace w) →
            writes_to SPI_CS (trace w2) = writes_to SPI_CS (trace w) →
            tx_buf w2 = tx_buf w →
            (rx_buf w = None → mem w2 = mem w ∧ rx_buf w2 = None) →
            ∀ w', Ret (bcm2708_wr_fifo w2 req) = Ret w' →
            0 <= len w' <= len w
            ∧ ((done w' = done w
                ∧ writes_to SPI_CS (trace w') = writes_to SPI_CS (trace w))
               ∨ (len w = 0 ∧ has_flag c SPI_CS_DONE = true
                  ∧ done w' = u32 (done w + 1)
                  ∧ ∃ c0,
                      writes_to SPI_CS (trace w')
                      = writes_to SPI_CS (trace w) ++ [c0]
                      ∧ has_flag c0 SPI_CS_INTR = false
                      ∧ has_flag c0 SPI_CS_INTD = false))
            ∧ ∃ ws,
                writes_to SPI_FIFO (trace w')
                = writes_to SPI_FIFO (trace w) ++ ws
                ∧ Z.of_nat (length ws) <= len w - len w'
                ∧ (byte_mode →
                   Z.of_nat (length ws) = len w - len w'
                   ∧ (rx_buf w = None →
                      ws = tx_bytes (mem w) (tx_buf w)
                             (Z.to_nat (len w - len w'))
                      ∧ mem w' = mem w ∧ rx_buf w' = None
                      ∧ tx_buf w' =
                          (λ p, p + (len w - len w')) <$> tx_buf w))).
  { intros w2 req Hreq Hl2 Hd2 Hf2 Hc2 Htx2 Hrx2 w0 [= <-].
    destruct (wr_fifo_effect w2 req ltac:(lia) Hreq)
      as (Hl & (ws & Hws & Hn & Hbyte) & Hcs & _ & Hm & Hr & Hd).
    destruct (wr_fifo_push w2 req ltac:(lia) Hreq) as (_ & _ & _ & Hpp).
    rewrite Hl2 in Hl, Hn, Hbyte.
    split; [lia |]. split; [left; split; congruence |].
    exists ws. split; [congruence |].
    split.
    { destruct (has_flag (u32 (fst (readl (base w2) SPI_CS))) SPI_CS_LEN)
        eqn:Emode.
      - rewrite Hl2 in Hpp. destruct (Z.even (Z.min req (len w))).
        + destruct Hpp as (_ & Hl' & _). lia.
        + destruct Hpp as (Ht' & Hl' & _).
          rewrite Ht', writes_to_app in Hws. simpl in Hws.
          rewrite app_nil_r in Hws.
          assert (ws = []) as ->.
          { apply (app_inv_head (writes_to SPI_FIFO (trace w2))).
            by rewrite app_nil_r. }
          simpl. lia.
      - destruct (Hbyte eq_refl) as (? & _). lia. }
    intros Hbm. destruct (Hbyte (Hbm (base w2))) as (Hlen' & Hl' & Hcontent).
    split; [done |]. intros Hno. destruct (Hrx2 Hno) as [Hm2 Hr2].
    replace (len w - len (bcm2708_wr_fifo w2 req))
      with (Z.min req (len w)) by lia.
    rewrite Hcontent, Hm, Hr, Hm2, Htx2. repeat split; try done.
    destruct (wr_fifo_push w2 req ltac:(lia) Hreq) as (_ & _ & _ & Hq).
    rewrite (Hbm (base w2)), Hl2, Htx2 in Hq. by destruct Hq as (_ & _ & ->). }
  destruct (has_flag c SPI_CS_DONE) eqn:Edone.
  - destruct (Z.eqb_spec (len w) 0) as [Hz | Hnz]; simpl negb; cbv iota.
    + set (c0 := Z.land c _). set (w2 := bcm2708_wr w1 SPI_CS c0).
      destruct (drain_rx fuel c0 w2) as [w3 | |] eqn:Ed; try done.
      simpl. intros [= <-].
      destruct (drain_rx_frame _ _ _ _ Ed)
        as (Hd3 & Hl3 & Htx3 & Hcs3 & Hf3 & Hrx3).
      assert (Hl' : len (complete w3) = 0).
      { change (len (complete w3)) with (len w3). rewrite Hl3.
        change (len w2) with (len w1). congruence. }
      rewrite Hl'. split; [lia |]. split.
      { right. split; [done |]. split; [done |]. split.
        { change (done (complete w3)) with (u32 (done w3 + 1)).
          rewrite Hd3. change (done w2) with (done w1). by rewrite Hd1. }
        exists (u32 c0). change (trace (complete w3)) with (trace w3).
        rewrite Hcs3.
        change (trace w2) with (trace w1 ++ [EvWr SPI_CS (u32 c0)]).
        rewrite writes_to_app, Hc1.
        change (writes_to SPI_CS [EvWr SPI_CS (u32 c0)]) with [u32 c0].
        destruct (mask_irq_bits c) as (Hr & Hdn & _). fold c0 in Hr, Hdn.
        change SPI_CS_INTR with (2 ^ 10) in *.
        change SPI_CS_INTD with (2 ^ 9) in *.
        rewrite !has_flag_u32 by lia. done. }
      exists []. rewrite app_nil_r.
      change (trace (complete w3)) with (trace w3). rewrite Hf3.
      split.
      { unfold w2. simpl. rewrite writes_to_app. simpl.
        rewrite app_nil_r. exact Hf1. }
      split; [simpl; lia |]. intros _. split; [simpl; lia |].
      intros Hno. rewrite Hz. simpl.
      destruct (Hrx3 ltac:(unfold w2; simpl; congruence)) as [Hm3 Hr3].
      change (mem (complete w3)) with (mem w3).
      change (rx_buf (complete w3)) with (rx_buf w3).
      change (tx_buf (complete w3)) with (tx_buf w3).
      rewrite Hm3, Hr3, Htx3. unfold w2. simpl.
      rewrite ?Hm1, ?Htx1.
      repeat split; try done; destruct (tx_buf w); simpl; f_equal; lia.
    + apply Hpush;
        [lia | done | done | done | done | done
        | intros Hno; split; congruence].
  - destruct (has_flag c SPI_CS_RXR).
    + destruct (rd_fifo_frame w1 12) as (Hd2 & Hl2 & Htx2 & Hcs2 & Hf2 & Hrx2).
      apply Hpush;
        [lia | congruence | congruence | congruence | congruence
        | congruence |].
      intros Hno. destruct (Hrx2 ltac:(congruence)) as [? ?].
      split; congruence.
    + intros [= <-]. rewrite Hl1. split; [lia |].
      split; [left; split; congruence |].
      exists []. rewrite app_nil_r, Z.sub_diag. split; [done |].
      split; [simpl; lia |]. intros _. split; [simpl; lia |].
      intros Hno. simpl. rewrite ?Hm1, ?Hr1, ?Htx1.
      repeat split; try done; destruct (tx_buf w); simpl; f_equal; lia.
Qed.

(** X8. One run of the interrupt handler on a remaining length within the
    non-negative range of an [int] never raises the remaining length and
    never makes it negative; it raises the completion only when the
    remaining length was 0 and the status showed "done", and then by
    exactly one; with bytes remaining it leaves the completion and the
    control register alone; and it writes at most as many values to the
    FIFO as the remaining length drops by. *)
Theorem interrupt_completion fuel w w' :
  0 <= len w < 2 ^ 31 →
  bcm2708_spi_interrupt fuel w = Ret w' →
  0 <= len w' <= len w
  ∧ (done w' = done w
     ∨ (len w = 0 ∧ len w' = 0
        ∧ has_flag (u32 (fst (readl (base w) SPI_CS))) SPI_CS_DONE = true
        ∧ done w' = u32 (done w + 1)))
  ∧ (len w ≠ 0 →
     done w' = done w
     ∧ writes_to SPI_CS (trace w') = writes_to SPI_CS (trace w))
  ∧ ∃ ws,
      writes_to SPI_FIFO (trace w') = writes_to SPI_FIFO (trace w) ++ ws
      ∧ Z.of_nat (length ws) <= len w - len w'.
Proof.
  intros Hlen Hrun.
  destruct (interrupt_effect fuel w w' Hlen Hrun)
    as (Hl & Hcase & ws & Hws & Hn & _).
  split; [done |]. split; [| split].
  - destruct Hcase as [[Hd _] | (Hz & Hf & Hd & _)]; [by left |].
    right. repeat split; try done. lia.
  - intros Hnz. destruct Hcase as [? | (Hz & _)]; done.
  - exists ws. done.
Qed.

End InterruptProofs.

Lemma interrupt_completion_witness :
  ∃ w', bcm2708_spi_interrupt 16 (set_len w_probe 3) = Ret w'
        ∧ 0 <= len w' <= 3.
Proof.
  eexists. split; [vm_compute; reflexivity |].
  refine (proj1 (interrupt_completion 16 (set_len w_probe 3) _ _ _));
    [simpl; lia | vm_compute; reflexivity].
Defined.

(** ** One transfer *)

Lemma arm_word_flags stp :
  has_flag (arm_word stp) SPI_CS_TA = true
  ∧ has_flag (arm_word stp) SPI_CS_INTR = true
  ∧ has_flag (arm_word stp) SPI_CS_INTD = true.
Proof.
  unfold arm_word.
  change SPI_CS_TA with (2 ^ 7). change SPI_CS_INTR with (2 ^ 10).
  change SPI_CS_INTD with (2 ^ 9).
  rewrite !has_flag_u32, !has_flag_pow2, !Z.lor_spec by lia.
  rewrite !Z.pow2_bits_eqb by lia.
  repeat match goal with
         | |- context [?a =? ?b] =>
           let v := eval vm_compute in (a =? b) in
           change (a =? b) with v
         end.
  repeat split; btauto.
Qed.

Section TransferProofs.
Context {H : Type} `{Device H}.
Implicit Types w : @world H.

Lemma fifo_sent_refl w : fifo_sent w w.
Proof.
  exists []. rewrite app_nil_r, Z.sub_diag.
  split; [done |]. split; [simpl; lia |].
  intros _. split; [simpl; lia |]. intros Hno.
  repeat split; try done; destruct (tx_buf w); simpl; f_equal; lia.
Qed.

Lemma fifo_sent_trans w1 w2 w3 :
  len w3 <= len w2 <= len w1 →
  fifo_sent w1 w2 → fifo_sent w2 w3 → fifo_sent w1 w3.
Proof.
  intros Hl (ws1 & Hw1 & Hn1 & Hb1) (ws2 & Hw2 & Hn2 & Hb2).
  exists (ws1 ++ ws2). split; [by rewrite Hw2, Hw1, app_assoc |].
  split; [rewrite length_app; lia |].
  intros Hbm. destruct (Hb1 Hbm) as (He1 & Hc1).
  destruct (Hb2 Hbm) as (He2 & Hc2).
  split; [rewrite length_app; lia |].
  intros Hno. destruct (Hc1 Hno) as (E1 & Hm2 & Hr2 & Ht2).
  destruct (Hc2 Hr2) as (E2 & Hm3 & Hr3 & Ht3).
  replace (Z.to_nat (len w1 - len w3))
    with (Z.to_nat (len w1 - len w2) + Z.to_nat (len w2 - len w3))%nat
    by lia.
  rewrite tx_bytes_app, Z2Nat.id, <- E1, <- Ht2, <- Hm2, <- E2 by lia.
  split; [done |]. split; [congruence |]. split; [done |].
  rewrite Ht3, Ht2. destruct (tx_buf w1); simpl; f_equal; lia.
Qed.

(** Steps that touch neither the FIFO nor the cursors send nothing. *)
Lemma fifo_sent_same w w1 w2 :
  fifo_sent w w1 →
  writes_to SPI_FIFO (trace w2) = writes_to SPI_FIFO (trace w1) →
  len w2 = len w1 → mem w2 = mem w1 → rx_buf w2 = rx_buf w1 →
  tx_buf w2 = tx_buf w1 →
  fifo_sent w w2.
Proof.
  intros (ws & Hw & Hn & Hb) Hf Hl Hm Hr Ht. exists ws.
  rewrite Hf, Hl, Hm, Hr, Ht. done.
Qed.

Lemma wait_loop_raised fuel irqs w :
  0 < done w → wait_loop fuel irqs w = Ret (1, set_done w (done w - 1)).
Proof.
  intros Hd. destruct irqs; cbn [wait_loop];
    destruct (Z.ltb_spec 0 (done w)); done || lia.
Qed.

(** The wait of a transfer armed with the completion count at 0: it ends
    with 0 and no write of the control register, or with 1, the remaining
    length at 0 and the one write of the handler at the end of the
    transfer. *)
Lemma wait_loop_effect fuel irqs : ∀ w r w',
  0 <= len w < 2 ^ 31 → done w = 0 →
  wait_loop fuel irqs w = Ret (r, w') →
  0 <= len w' <= len w ∧ fifo_sent w w'
  ∧ ((r = 0
      ∧ writes_to SPI_CS (trace w') = writes_to SPI_CS (trace w))
     ∨ (r = 1 ∧ len w' = 0
        ∧ ∃ c0,
            writes_to SPI_CS (trace w') = writes_to SPI_CS (trace w) ++ [c0]
            ∧ has_flag c0 SPI_CS_INTR = false
            ∧ has_flag c0 SPI_CS_INTD = false)).
Proof.
  induction irqs as [| irqs IH]; intros w r w' Hlen Hd; cbn [wait_loop];
    rewrite Hd; change (0 <? 0) with false; cbv iota.
  - intros [= <- <-]. split; [lia |]. split; [apply fifo_sent_refl |].
    by left.
  - destruct (bcm2708_spi_interrupt fuel w) as [w1 | |] eqn:Ei; try done.
    simpl.
    destruct (interrupt_effect fuel w w1 Hlen Ei)
      as (Hl1 & [[Hd1 Hc1] | (Hz & _ & Hd1 & c0 & Hc1 & Hf)] & Hs1).
    + intros Hw.
      destruct (IH w1 r w' ltac:(lia) ltac:(congruence) Hw)
        as (Hl' & Hs' & Hcase).
      split; [lia |].
      split; [apply (fifo_sent_trans w w1 w'); [lia | done | done] |].
      rewrite Hc1 in Hcase. exact Hcase.
    + rewrite wait_loop_raised by (rewrite Hd1, Hd; done).
      intros [= <- <-].
      change (len (set_done w1 (done w1 - 1))) with (len w1).
      split; [lia |]. split; [exact Hs1 |].
      right. split; [done |]. split; [lia |]. exists c0. done.
Qed.

Lemma arm_regs w stp xfer :
  let w' := arm w stp xfer in
  writes_to SPI_CS (trace w') = writes_to SPI_CS (trace w) ++ [arm_word stp]
  ∧ writes_to SPI_FIFO (trace w') = writes_to SPI_FIFO (trace w)
  ∧ mem w' = mem w.
Proof.
  unfold arm, arm_word. simpl. rewrite !writes_to_app. simpl.
  rewrite !app_nil_r. done.
Qed.

(** What a transfer that was armed has done, whether it ended in time or
    not. *)
Lemma process_transfer_effect fuel w msg xfer last st msg' w' :
  0 <= xfer_len xfer < 2 ^ 31 →
  bcm2708_process_transfer fuel w msg xfer last = Ret (st, msg', w') →
  st = 0 ∨ st = - ETIMEDOUT →
  ∃ stp,
    transfer_state w (msg_spi msg) xfer = Ret (inr stp)
    ∧ stopping w = false
    ∧ writes_to SPI_CLK (trace w') =
        writes_to SPI_CLK (trace w) ++ [u32 (cdiv stp)]
    ∧ 0 <= len w' <= xfer_len xfer
    ∧ fifo_sent (arm w stp xfer) w'
    ∧ ((st = - ETIMEDOUT ∧ msg' = msg
        ∧ writes_to SPI_CS (trace w') =
            writes_to SPI_CS (trace w) ++ [arm_word stp]
        ∧ ∃ t, trace w' = t ++ [EvLog "transfer timed out"])
       ∨ (st = 0 ∧ len w' = 0
          ∧ msg' =
              set_actual_length msg
                (u32 (actual_length msg + xfer_len xfer))
          ∧ ∃ c0,
              writes_to SPI_CS (trace w') =
                writes_to SPI_CS (trace w)
                ++ arm_word stp :: c0
                   :: (if last || xfer_cs_change xfer
                       then [u32 (cs stp)] else [])
              ∧ has_flag c0 SPI_CS_INTR = false
              ∧ has_flag c0 SPI_CS_INTD = false)).
Proof.
  intros Hx Hrun Hst.
  pose proof (process_transfer_ret _ _ _ _ _ _ _ _ Hrun) as (_ & _ & Hcase).
  assert (Hs : stopping w = false).
  { destruct Hcase as [(-> & _) | [(-> & _) | [(_ & ? & _) | (_ & ? & _)]]];
      try done; by destruct Hst. }
  assert (Hne : st ≠ - EINVAL) by (by destruct Hst as [-> | ->]).
  revert Hrun. unfold bcm2708_process_transfer. rewrite Hs.
  destruct (transfer_state w (msg_spi msg) xfer) as [[e | stp] | |] eqn:Et;
    try done; simpl.
  { intros [= <- <- <-].
    destruct Hcase
      as [(_ & ? & _) | [(? & _) | [(_ & _ & _ & Ha) | (_ & _ & _ & Ha)]]];
      [congruence | done | lia | lia]. }
  clear Hcase.
  destruct (arm_spec w stp xfer)
    as (_ & _ & _ & _ & Hclk & Hd0 & Htx0 & Hrx0 & Hl0).
  destruct (arm_regs w stp xfer) as (Hcs0 & Hf0 & Hm0).
  rewrite int32_small in Hl0 by lia.
  unfold wait_for_completion_timeout.
  destruct (wait_loop fuel _ (arm w stp xfer)) as [[r wt] | |] eqn:Ew;
    try done; simpl.
  pose proof (wait_loop_ret _ _ _ _ _ Ew) as [(_ & _ & _ & _ & Hclk1) _].
  assert (Hl0' : 0 <= len (arm w stp xfer) < 2 ^ 31) by lia.
  destruct (wait_loop_effect _ _ _ _ _ Hl0' Hd0 Ew)
    as (Hl1 & Hs1 & Hcase).
  destruct Hcase as [[-> Hcs1] | (-> & Hz & c0 & Hcs1 & Hf)].
  - change (0 =? 0) with true. cbv iota. intros [= <- <- <-].
    exists stp. split; [done |]. split; [done |].
    split.
    { simpl. rewrite writes_to_app, Hclk1, Hclk. simpl.
      by rewrite app_nil_r. }
    split; [simpl; lia |]. split.
    { apply (fifo_sent_same _ wt); try done.
      simpl. rewrite writes_to_app. simpl. by rewrite app_nil_r. }
    left. split; [done |]. split; [done |]. split; [| by eexists].
    simpl. rewrite writes_to_app, Hcs1, Hcs0. simpl. by rewrite app_nil_r.
  - change (1 =? 0) with false. cbv iota.
    set (wd := if negb (xfer_delay_usecs xfer =? 0)
               then emit wt (EvDelay (xfer_delay_usecs xfer)) else wt).
    assert (Hwd : writes_to SPI_CLK (trace wd) = writes_to SPI_CLK (trace wt)
                  ∧ writes_to SPI_CS (trace wd) = writes_to SPI_CS (trace wt)
                  ∧ writes_to SPI_FIFO (trace wd)
                    = writes_to SPI_FIFO (trace wt)
                  ∧ len wd = len wt ∧ mem wd = mem wt
                  ∧ rx_buf wd = rx_buf wt ∧ tx_buf wd = tx_buf wt).
    { unfold wd. destruct (negb _); [| done]. simpl.
      rewrite !writes_to_app. simpl. rewrite !app_nil_r. done. }
    destruct Hwd as (Hk2 & Hc2 & Hf2 & Hl2 & Hm2 & Hr2 & Ht2).
    set (wc := if last || xfer_cs_change xfer
               then bcm2708_wr wd SPI_CS (cs stp) else wd).
    assert (Hwc : writes_to SPI_CLK (trace wc) = writes_to SPI_CLK (trace wd)
                  ∧ writes_to SPI_CS (trace wc)
                    = writes_to SPI_CS (trace wd)
                      ++ (if last || xfer_cs_change xfer
                          then [u32 (cs stp)] else [])
                  ∧ writes_to SPI_FIFO (trace wc)
                    = writes_to SPI_FIFO (trace wd)
                  ∧ len wc = len wd ∧ mem wc = mem wd
                  ∧ rx_buf wc = rx_buf wd ∧ tx_buf wc = tx_buf wd).
    { unfold wc. destruct (_ || _); [| by rewrite app_nil_r]. simpl.
      rewrite !writes_to_app. simpl. rewrite !app_nil_r. done. }
    destruct Hwc as (Hk3 & Hc3 & Hf3 & Hl3 & Hm3 & Hr3 & Ht3).
    intros [= <- <- <-].
    exists stp. split; [done |]. split; [done |].
    split; [rewrite Hk3, Hk2, Hclk1, Hclk; done |].
    split; [lia |]. split.
    { apply (fifo_sent_same _ wt); congruence. }
    right. split; [done |]. split; [lia |]. split.
    { f_equal. f_equal. lia. }
    exists c0. split; [| done].
    rewrite Hc3, Hc2, Hcs1, Hcs0, <- !app_assoc. done.
Qed.

(** X9. A transfer of a length within the non-negative range of an [int]
    that [bcm2708_process_transfer] ends with status 0 has used up its
    whole length: the remaining length is 0, the actual length of the
    message has grown by the length of the transfer (modulo 2^32), and at
    most that many values were written to the FIFO. *)
Theorem transfer_full_length fuel w msg xfer last msg' w' :
  0 <= xfer_len xfer < 2 ^ 31 →
  bcm2708_process_transfer fuel w msg xfer last = Ret (0, msg', w') →
  len w' = 0
  ∧ actual_length msg' = u32 (actual_length msg + xfer_len xfer)
  ∧ ∃ ws,
      writes_to SPI_FIFO (trace w') = writes_to SPI_FIFO (trace w) ++ ws
      ∧ Z.of_nat (length ws) <= xfer_len xfer.
Proof.
  intros Hx Hrun.
  destruct (process_transfer_effect _ _ _ _ _ _ _ _ Hx Hrun ltac:(by left))
    as (stp & _ & _ & _ & _ & (ws & Hws & Hn & _) & Hcase).
  destruct Hcase as [(? & _) | (_ & Hz & -> & _)]; [done |].
  destruct (arm_spec w stp xfer) as (_ & _ & _ & _ & _ & _ & _ & _ & Hl0).
  destruct (arm_regs w stp xfer) as (_ & Hf0 & _).
  rewrite int32_small in Hl0 by lia.
  split; [done |]. split; [done |].
  exists ws. rewrite <- Hf0. split; [done | lia].
Qed.

(** X10. On a device that never shows the wide-mode flag, a transfer that
    ends with status 0 has written exactly as many values to the FIFO as
    its length; if it has no rx buffer these are the bytes of its tx
    buffer in order (zeros without a tx buffer), and memory is as it
    was. *)
Theorem transfer_byte_mode fuel w msg xfer last msg' w' :
  byte_mode →
  0 <= xfer_len xfer < 2 ^ 31 →
  bcm2708_process_transfer fuel w msg xfer last = Ret (0, msg', w') →
  ∃ ws,
    writes_to SPI_FIFO (trace w') = writes_to SPI_FIFO (trace w) ++ ws
    ∧ Z.of_nat (length ws) = xfer_len xfer
    ∧ (xfer_rx_buf xfer = None →
       ws = tx_bytes (mem w) (xfer_tx_buf xfer) (Z.to_nat (xfer_len xfer))
       ∧ mem w' = mem w).
Proof.
  intros Hbm Hx Hrun.
  destruct (process_transfer_effect _ _ _ _ _ _ _ _ Hx Hrun ltac:(by left))
    as (stp & _ & _ & _ & _ & (ws & Hws & _ & Hb) & Hcase).
  destruct Hcase as [(? & _) | (_ & Hz & _)]; [done |].
  destruct (arm_spec w stp xfer)
    as (_ & _ & _ & _ & _ & _ & Htx0 & Hrx0 & Hl0).
  destruct (arm_regs w stp xfer) as (_ & Hf0 & Hm0).
  rewrite int32_small in Hl0 by lia.
  destruct (Hb Hbm) as (Hn & Hc). rewrite Hl0, Hz, Z.sub_0_r in Hn, Hc.
  exists ws. rewrite <- Hf0. split; [done |]. split; [done |].
  intros Hno. rewrite Hrx0, Htx0, Hm0 in Hc.
  destruct (Hc Hno) as (-> & Hm & _). done.
Qed.

(** X11. The register protocol of a transfer that ends with status 0:
    the divisor of the state it runs with is written once to the clock
    register; the control register is written first the arming word (the
    state's control word with "transfer active" and both interrupt
    enables set), then the word with which the handler disabled the
    interrupts at the end of the transfer, and then, only for the last
    transfer of a message or one with [cs_change], the state's control
    word itself. *)
Theorem transfer_register_protocol fuel w msg xfer last msg' w' :
  0 <= xfer_len xfer < 2 ^ 31 →
  bcm2708_process_transfer fuel w msg xfer last = Ret (0, msg', w') →
  ∃ stp c0,
    transfer_state w (msg_spi msg) xfer = Ret (inr stp)
    ∧ writes_to SPI_CLK (trace w') =
        writes_to SPI_CLK (trace w) ++ [u32 (cdiv stp)]
    ∧ writes_to SPI_CS (trace w') =
        writes_to SPI_CS (trace w)
        ++ arm_word stp :: c0
           :: (if last || xfer_cs_change xfer then [u32 (cs stp)] else [])
    ∧ has_flag (arm_word stp) SPI_CS_TA = true
    ∧ has_flag (arm_word stp) SPI_CS_INTR = true
    ∧ has_flag (arm_word stp) SPI_CS_INTD = true
    ∧ has_flag c0 SPI_CS_INTR = false
    ∧ has_flag c0 SPI_CS_INTD = false.
Proof.
  intros Hx Hrun.
  destruct (process_transfer_effect _ _ _ _ _ _ _ _ Hx Hrun ltac:(by left))
    as (stp & Hst & _ & Hclk & _ & _ & Hcase).
  destruct Hcase as [(? & _) | (_ & _ & _ & c0 & Hcs & Hr & Hd)]; [done |].
  destruct (arm_word_flags stp) as (Hta & Hir & Hid).
  exists stp, c0. done.
Qed.

(** X12. A transfer that times out is not wound down: the only write to
    the control register is the arming word, which has "transfer active"
    and both interrupt enables set, so neither is cleared afterwards; the
    actual length of the message is not updated; and the last event is
    the log line of the timeout. *)
Theorem transfer_timeout_stays_armed fuel w msg xfer last msg' w' :
  0 <= xfer_len xfer < 2 ^ 31 →
  bcm2708_process_transfer fuel w msg xfer last
  = Ret (- ETIMEDOUT, msg', w') →
  msg' = msg
  ∧ (∃ t, trace w' = t ++ [EvLog "transfer timed out"])
  ∧ ∃ stp,
      transfer_state w (msg_spi msg) xfer = Ret (inr stp)
      ∧ writes_to SPI_CS (trace w') =
          writes_to SPI_CS (trace w) ++ [arm_word stp]
      ∧ has_flag (arm_word stp) SPI_CS_TA = true
      ∧ has_flag (arm_word stp) SPI_CS_INTR = true
      ∧ has_flag (arm_word stp) SPI_CS_INTD = true.
Proof.
  intros Hx Hrun.
  destruct (process_transfer_effect _ _ _ _ _ _ _ _ Hx Hrun ltac:(by right))
    as (stp & Hst & _ & _ & _ & _ & Hcase).
  destruct Hcase as [(_ & -> & Hcs & t & Ht) | (? & _)]; [| done].
  split; [done |]. split; [by exists t |].
  destruct (arm_word_flags stp) as (Hta & Hir & Hid).
  exists stp. done.
Qed.

End TransferProofs.

Lemma byte_dev_byte_mode : @byte_mode byte_dev _.
Proof.
  intros h. simpl. destruct (take 16 (bd_rx h)); reflexivity.
Qed.

Lemma transfer_full_length_witness :
  ∃ msg' w',
    bcm2708_process_transfer 16 w_probe msg3 xfer3 true = Ret (0, msg', w')
    ∧ len w' = 0.
Proof.
  do 2 eexists. split; [vm_compute; reflexivity |].
  refine (proj1 (transfer_full_length 16 w_probe msg3 xfer3 true _ _ _ _));
    [simpl; lia | vm_compute; reflexivity].
Defined.

Lemma transfer_byte_mode_witness :
  ∃ msg' w',
    bcm2708_process_transfer 16 w_byte msg_tx3 xfer_tx3 true
    = Ret (0, msg', w')
    ∧ ∃ ws,
        writes_to SPI_FIFO (trace w') = writes_to SPI_FIFO (trace w_byte) ++ ws
        ∧ Z.of_nat (length ws) = 3
        ∧ (xfer_rx_buf xfer_tx3 = None →
           ws = tx_bytes (mem w_byte) (xfer_tx_buf xfer_tx3) 3
           ∧ mem w' = mem w_byte).
Proof.
  do 2 eexists. split; [vm_compute; reflexivity |].
  refine (transfer_byte_mode 16 w_byte msg_tx3 xfer_tx3 true _ _
            byte_dev_byte_mode _ _);
    [simpl; lia | vm_compute; reflexivity].
Defined.

Lemma transfer_register_protocol_witness :
  ∃ msg' w',
    bcm2708_process_transfer 16 w_probe msg3 xfer3 true = Ret (0, msg', w')
    ∧ ∃ stp c0,
        transfer_state w_probe (msg_spi msg3) xfer3 = Ret (inr stp)
        ∧ writes_to SPI_CLK (trace w') =
            writes_to SPI_CLK (trace w_probe) ++ [u32 (cdiv stp)]
        ∧ writes_to SPI_CS (trace w') =
            writes_to SPI_CS (trace w_probe)
            ++ arm_word stp :: c0
               :: (if true || xfer_cs_change xfer3
                   then [u32 (cs stp)] else [])
        ∧ has_flag (arm_word stp) SPI_CS_TA = true
        ∧ has_flag (arm_word stp) SPI_CS_INTR = true
        ∧ has_flag (arm_word stp) SPI_CS_INTD = true
        ∧ has_flag c0 SPI_CS_INTR = false
        ∧ has_flag c0 SPI_CS_INTD = false.
Proof.
  do 2 eexists. split; [vm_compute; reflexivity |].
  refine (transfer_register_protocol 16 w_probe msg3 xfer3 true _ _ _ _);
    [simpl; lia | vm_compute; reflexivity].
Defined.

Lemma transfer_timeout_stays_armed_witness :
  ∃ msg' w',
    bcm2708_process_transfer 0 w_silent msg3 xfer3 true
    = Ret (- ETIMEDOUT, msg', w')
    ∧ msg' = msg3.
Proof.
  do 2 eexists. split; [vm_compute; reflexivity |].
  refine (proj1 (transfer_timeout_stays_armed 0 w_silent msg3 xfer3 true
                   _ _ _ _));
    [simpl; lia | vm_compute; reflexivity].
Defined.

(** ** Messages *)

Lemma sum_len_app xs ys : sum_len (xs ++ ys) = sum_len xs + sum_len ys.
Proof. induction xs as [| x xs IH]; simpl; [done |]. rewrite IH. lia. Qed.

Lemma u32_add_l a b : u32 (u32 a + b) = u32 (a + b).
Proof. unfold u32. apply Zplus_mod_idemp_l. Qed.

Lemma u32_range x : 0 <= u32 x < 2 ^ 32.
Proof. unfold u32. apply Z.mod_pos_bound. lia. Qed.

Section MessageProofs.
Context {H : Type} `{Device H}.
Implicit Types w : @world H.

(** The status a loop over at least one transfer starts with does not
    matter. *)
Lemma transfers_loop_fresh fuel w msg xs st0 st1 :
  xs ≠ [] →
  transfers_loop fuel w msg xs st0 = transfers_loop fuel w msg xs st1.
Proof. by destruct xs. Qed.

(** The transfers that passed have each added their length to the actual
    length of the message. *)
Lemma spec_passed_lengths fuel w m pre mx wx :
  spec_passed fuel w m pre mx wx →
  Forall (λ x, 0 <= xfer_len x < 2 ^ 31) pre →
  0 <= actual_length m < 2 ^ 32 →
  actual_length mx = u32 (actual_length m + sum_len pre).
Proof.
  induction 1 as [w m | w m x pre m1 w1 mx wx Hp _ IH]; intros Hall Hal.
  { simpl. by rewrite Z.add_0_r, u32_small. }
  inversion Hall as [| ? ? Hx Hrest]; subst.
  assert (Hm1 : actual_length m1 = u32 (actual_length m + xfer_len x)).
  { destruct (process_transfer_effect _ _ _ _ _ _ _ _ Hx Hp ltac:(by left))
      as (stp & _ & _ & _ & _ & _ & [(? & _) | (_ & _ & -> & _)]); done. }
  rewrite IH, Hm1, u32_add_l; [| done | rewrite Hm1; apply u32_range].
  f_equal. simpl. lia.
Qed.

(** X13. The actual length a message is completed with. A loop over at
    least one transfer, of lengths within the non-negative range of an
    [int], that returns has stopped at one transfer [x] of the list: the
    transfers before [x] all passed, in list order, and the result of the
    loop is the result of [x]. At that point the actual length had grown
    by the lengths of the transfers before [x] (modulo 2^32). If the loop
    ends with status 0, [x] is the last transfer and the actual length
    has grown by the lengths of all transfers; if it ends with another
    status, the failing transfer leaves the message as it found it, so
    the actual length counts the transfers before [x] and nothing of
    [x]. *)
Theorem message_accounting fuel xs : ∀ w msg st0 st msg' w',
  Forall (λ x, 0 <= xfer_len x < 2 ^ 31) xs → xs ≠ [] →
  0 <= actual_length msg < 2 ^ 32 →
  transfers_loop fuel w msg xs st0 = Ret (st, msg', w') →
  ∃ pre x post mx wx,
    xs = pre ++ x :: post
    ∧ spec_passed fuel w msg pre mx wx
    ∧ bcm2708_process_transfer fuel wx mx x
        (match post with [] => true | _ => false end)
      = Ret (st, msg', w')
    ∧ actual_length mx = u32 (actual_length msg + sum_len pre)
    ∧ (st = 0 →
       post = []
       ∧ actual_length msg' = u32 (actual_length msg + sum_len xs))
    ∧ (st ≠ 0 →
       msg' = mx
       ∧ actual_length msg' = u32 (actual_length msg + sum_len pre)).
Proof.
  intros w msg st0 st msg' w' Hxs Hne Hal Hrun.
  apply transfers_loop_attempts in Hrun; [| done].
  destruct Hrun as (pre & x & post & mx & wx & E & Hp & Hx & Hz).
  simpl in Hz. subst xs.
  apply Forall_app in Hxs as [Hpre Hrest].
  inversion Hrest as [| ? ? Hlen _]; subst.
  pose proof (spec_passed_lengths _ _ _ _ _ _ Hp Hpre Hal) as Hmx.
  exists pre, x, post, mx, wx. do 4 (split; [done |]). split.
  - intros ->. specialize (Hz eq_refl). subst post. split; [done |].
    destruct (process_transfer_effect _ _ _ _ _ _ _ _ Hlen Hx ltac:(by left))
      as (stp & _ & _ & _ & _ & _ & [(? & _) | (_ & _ & -> & _)]);
      [done |].
    simpl. rewrite Hmx, u32_add_l, sum_len_app. f_equal. simpl. lia.
  - intros Hst.
    pose proof (process_transfer_ret _ _ _ _ _ _ _ _ Hx) as (_ & _ & Hcase).
    assert (msg' = mx) as ->; [| done].
    destruct Hcase as [(_ & _ & _ & ?) | [(_ & _ & _ & ?) |
      [(_ & _ & ? & _) | (? & _)]]]; done.
Qed.

(** X14. The local [status] of [bcm2708_work] is carried from one
    message to the next, but for a queue of messages that have a transfer
    each, as [bcm2708_spi_transfer] lets in, the value the loop starts
    with has no influence on what the worker does. *)
Theorem work_status_fresh fuel q : ∀ w st0 st1,
  Forall (λ m, transfers m ≠ []) q →
  work_loop fuel q st0 w = work_loop fuel q st1 w.
Proof.
  destruct q as [| m q]; intros w st0 st1 Hq; [done |].
  inversion Hq as [| ? ? Hm _]; subst. cbn [work_loop].
  by rewrite (transfers_loop_fresh fuel _ m (transfers m) st0 st1 Hm).
Qed.

End MessageProofs.

Lemma message_accounting_witness :
  ∃ st msg' w',
    transfers_loop 16 w_probe msg_mixed (transfers msg_mixed) 0
    = Ret (st, msg', w')
    ∧ ∃ pre x post mx wx,
        transfers msg_mixed = pre ++ x :: post
        ∧ spec_passed 16 w_probe msg_mixed pre mx wx
        ∧ bcm2708_process_transfer 16 wx mx x
            (match post with [] => true | _ => false end)
          = Ret (st, msg', w')
        ∧ actual_length mx = u32 (actual_length msg_mixed + sum_len pre)
        ∧ (st = 0 →
           post = []
           ∧ actual_length msg' =
               u32 (actual_length msg_mixed
                    + sum_len (transfers msg_mixed)))
        ∧ (st ≠ 0 →
           msg' = mx
           ∧ actual_length msg' =
               u32 (actual_length msg_mixed + sum_len pre)).
Proof.
  do 3 eexists. split; [vm_compute; reflexivity |].
  refine (message_accounting 16 (transfers msg_mixed) w_probe msg_mixed 0
            _ _ _ _ _ _ _);
    [repeat constructor; simpl; lia | discriminate | simpl; lia
    | vm_compute; reflexivity].
Defined.

Lemma work_status_fresh_witness :
  work_loop 16 [msg3] 0 w_probe = work_loop 16 [msg3] (- EINVAL) w_probe.
Proof.
  apply (work_status_fresh 16 [msg3] w_probe 0 (- EINVAL)).
  repeat constructor. discriminate.
Defined.

(** ** Submit, setup and cleanup *)

(** Every failure of the resolver is -EINVAL. *)
Lemma setup_state_inl bus_hz hz csel mode bpw e :
  bcm2708_setup_state bus_hz hz csel mode bpw = inl e → e = - EINVAL.
Proof.
  unfold bcm2708_setup_state. destruct (setup_cdiv _ _); [| congruence].
  repeat destruct (_ =? _); congruence.
Qed.

(** The resolver reads its [u8] parameters modulo 2^8. *)
Lemma setup_state_u8_bpw bus_hz hz csel mode bpw bpw' :
  u8 bpw = u8 bpw' →
  bcm2708_setup_state bus_hz hz csel mode bpw
  = bcm2708_setup_state bus_hz hz csel mode bpw'.
Proof. unfold bcm2708_setup_state. by intros ->. Qed.

(** Closes the cases of a statement about an outcome of setup once the
    outcome is known. *)
Ltac setup_case :=
  solve [ simpl; repeat split; try done;
          try (by intros [? | ?]);
          try match goal with
              | Hs : is_Some None ∨ _ |- _ => by destruct Hs as [[? ?] | ?]
              end;
          auto ].

Section EntryProofs.
Context {H : Type} `{Device H}.
Implicit Types w : @world H.

Lemma check_transfers_result w spi xs :
  (check_transfers w spi xs = 0 ∧ Forall xfer_checked xs)
  ∨ check_transfers w spi xs = - EINVAL.
Proof.
  induction xs as [| x xs IH]; cbn [check_transfers]; [by left |].
  destruct (bool_decide (is_Some (xfer_tx_buf x))) eqn:Etx;
    destruct (bool_decide (is_Some (xfer_rx_buf x))) eqn:Erx;
    destruct (Z.eqb_spec (xfer_len x) 0) as [Hl | Hl]; simpl;
    try (by right).
  all: assert (Hbuf : is_Some (xfer_tx_buf x) ∨ is_Some (xfer_rx_buf x)
                      ∨ xfer_len x = 0)
    by (first [ apply bool_decide_eq_true in Etx; by left
              | apply bool_decide_eq_true in Erx; by right; left
              | by right; right ]).
  all: destruct (Z.eqb_spec (xfer_bits_per_word x) 0) as [Hb | Hb];
    destruct (Z.eqb_spec (xfer_speed_hz x) 0) as [Hs | Hs]; simpl.
  all: try (destruct IH as [[-> Hall] | ->]; [left | by right];
            split; [done |]; constructor; [| done];
            split; [done |]; intros; done).
  all: destruct (bcm2708_setup_state _ _ _ _ _) as [e | st] eqn:Er;
    [right; by apply setup_state_inl in Er |].
  all: apply setup_state_inr_bpw in Er.
  all: destruct IH as [[-> Hall] | ->]; [left | by right].
  all: split; [done |]; constructor; [| done]; split; done.
Qed.

(** X15. What [bcm2708_spi_transfer] does with a message: a rejected
    message changes nothing and is rejected with -EINVAL or -ESHUTDOWN;
    an accepted message has a transfer, each of its transfers has a
    buffer unless its length is 0 and a width of 8 or 9 bits if it
    overrides the width alone, and the message enters the queue with
    status -EINPROGRESS and actual length 0 whatever it held before, with
    one request for the worker. *)
Theorem submit_checks w spi msg :
  let r := bcm2708_spi_transfer w spi msg in
  (fst r ≠ 0 →
   snd r = w ∧ (fst r = - EINVAL ∨ fst r = - ESHUTDOWN))
  ∧ (fst r = 0 →
     stopping w = false ∧ transfers msg ≠ []
     ∧ Forall xfer_checked (transfers msg)
     ∧ trace (snd r) = trace w ++ [EvQueueWork]
     ∧ ∃ m,
         queue (snd r) = queue w ++ [m]
         ∧ msg_status m = - EINPROGRESS ∧ actual_length m = 0
         ∧ transfers m = transfers msg ∧ msg_context m = msg_context msg
         ∧ msg_spi m = msg_spi msg).
Proof.
  cbv zeta. unfold bcm2708_spi_transfer.
  destruct (transfers msg) as [| x xs] eqn:Et.
  { simpl. split; [intros _; split; [done | by left] | done]. }
  destruct (stopping w) eqn:Es.
  { simpl. split; [intros _; split; [done | by right] | done]. }
  destruct (check_transfers_result w spi (x :: xs)) as [[E Hall] | E];
    rewrite E; simpl.
  - split; [done |]. intros _. do 4 (split; [done |]).
    eexists. split; [done |]. simpl. by rewrite Et.
  - split; [intros _; split; [done | by left] | done].
Qed.

(** X16. A message is accepted whatever speeds its transfers ask for:
    while the controller is not stopping, a message with a transfer in
    which every transfer has a buffer or length 0, and none overrides the
    width alone, is queued. *)
Theorem submit_accepts w spi msg :
  stopping w = false → transfers msg ≠ [] →
  Forall (λ x,
            (is_Some (xfer_tx_buf x) ∨ is_Some (xfer_rx_buf x)
             ∨ xfer_len x = 0)
            ∧ (xfer_bits_per_word x = 0 ∨ xfer_speed_hz x ≠ 0))
    (transfers msg) →
  bcm2708_spi_transfer w spi msg
  = (0, emit (set_queue w
                (queue w
                 ++ [set_actual_length (set_status msg (- EINPROGRESS)) 0]))
          EvQueueWork).
Proof.
  intros Hs Hne Hall. unfold bcm2708_spi_transfer. rewrite Hs.
  assert (Hc : check_transfers w spi (transfers msg) = 0).
  { clear Hne. induction Hall as [| x xs [Hbuf Hov] _ IH];
      cbn [check_transfers]; [done |].
    assert (negb (bool_decide (is_Some (xfer_tx_buf x))
                  || bool_decide (is_Some (xfer_rx_buf x)))
            && negb (xfer_len x =? 0) = false) as ->.
    { destruct Hbuf as [Hb | [Hb | Hb]].
      - by rewrite (bool_decide_eq_true_2 _ Hb).
      - rewrite (bool_decide_eq_true_2 _ Hb). by rewrite orb_true_r.
      - rewrite Hb. simpl. by rewrite andb_false_r. }
    assert ((xfer_bits_per_word x =? 0) || negb (xfer_speed_hz x =? 0)
            = true) as ->; [| done].
    destruct Hov as [-> | Hov]; [done |].
    destruct (Z.eqb_spec (xfer_speed_hz x) 0); [done |].
    by rewrite orb_true_r. }
  rewrite Hc. destruct (transfers msg); done.
Qed.

(** A setup that returns 0 has passed the checks and stored the resolved
    state. *)
Lemma setup_ok_inv w spi (alloc_ok : bool) spi' :
  bcm2708_spi_setup w spi alloc_ok = (0, spi') →
  stopping w = false
  ∧ negb (has_flag (mode spi) SPI_NO_CS)
    && (num_chipselect <? chip_select spi) = false
  ∧ ∃ st, spi' = set_controller_state spi (Some st)
          ∧ bcm2708_setup_state (clk w) (max_speed_hz spi)
              (chip_select spi) (mode spi) (bits_per_word spi)
            = inr st.
Proof.
  unfold bcm2708_spi_setup.
  destruct (stopping w) eqn:Es; [done |].
  destruct (negb (has_flag (mode spi) SPI_NO_CS)
            && (num_chipselect <? chip_select spi)) eqn:Ecs; [done |].
  assert (Hgo : ∀ st0,
            (let spi0 := set_controller_state spi (Some st0) in
             match bcm2708_setup_state (clk w) (max_speed_hz spi0)
                     (chip_select spi0) (mode spi0) (bits_per_word spi0) with
             | inl ret => (ret, set_controller_state spi0 None)
             | inr st => (0, set_controller_state spi0 (Some st))
             end) = (0, spi') →
            ∃ st, spi' = set_controller_state spi (Some st)
                  ∧ bcm2708_setup_state (clk w) (max_speed_hz spi)
                      (chip_select spi) (mode spi) (bits_per_word spi)
                    = inr st).
  { intros st0. cbv zeta. simpl.
    destruct (bcm2708_setup_state _ _ _ _ _) as [e | st] eqn:Er.
    - apply setup_state_inl in Er as ->. done.
    - intros [= <-]. by exists st. }
  intros Hrun. split; [done |]. split; [done |].
  destruct (controller_state spi) as [st0 |].
  - by apply (Hgo st0).
  - destruct alloc_ok; [by apply (Hgo (mk_state 0 0)) | done].
Qed.

(** X17. What [bcm2708_spi_setup] returns and leaves behind: 0,
    -ESHUTDOWN, -EINVAL or -ENOMEM; the settings of the peer are never
    changed; -ESHUTDOWN exactly when the controller is stopping; -ENOMEM
    only for a peer without state when the allocation fails, and then, as
    with -ESHUTDOWN, the peer is as it was; and whenever the resolver
    rejects the settings of a peer that passed the chip-select check and
    has or gets a state record, the result is -EINVAL and the peer is
    left without state, also when it had one before. *)
Theorem setup_outcomes w spi (alloc_ok : bool) :
  let r := bcm2708_spi_setup w spi alloc_ok in
  (fst r = 0 ∨ fst r = - ESHUTDOWN ∨ fst r = - EINVAL ∨ fst r = - ENOMEM)
  ∧ (max_speed_hz (snd r) = max_speed_hz spi
     ∧ chip_select (snd r) = chip_select spi
     ∧ mode (snd r) = mode spi
     ∧ bits_per_word (snd r) = bits_per_word spi)
  ∧ (fst r = - ESHUTDOWN ↔ stopping w = true)
  ∧ (fst r = - ESHUTDOWN ∨ fst r = - ENOMEM → snd r = spi)
  ∧ (fst r = - ENOMEM → controller_state spi = None ∧ alloc_ok = false)
  ∧ (stopping w = false →
     negb (has_flag (mode spi) SPI_NO_CS)
     && (num_chipselect <? chip_select spi) = false →
     is_Some (controller_state spi) ∨ alloc_ok = true →
     ∀ e,
       bcm2708_setup_state (clk w) (max_speed_hz spi) (chip_select spi)
         (mode spi) (bits_per_word spi) = inl e →
       fst r = - EINVAL ∧ controller_state (snd r) = None).
Proof.
  cbv zeta. unfold bcm2708_spi_setup.
  destruct (stopping w) eqn:Es; [setup_case |].
  destruct (negb (has_flag (mode spi) SPI_NO_CS)
            && (num_chipselect <? chip_select spi)) eqn:Ecs; [setup_case |].
  destruct (controller_state spi) as [st0 |] eqn:Est; simpl.
  - destruct (bcm2708_setup_state _ _ _ _ _) as [e | st] eqn:Er; simpl.
    + apply setup_state_inl in Er as ->. setup_case.
    + setup_case.
  - destruct alloc_ok; simpl.
    + destruct (bcm2708_setup_state _ _ _ _ _) as [e | st] eqn:Er; simpl.
      * apply setup_state_inl in Er as ->. setup_case.
      * setup_case.
    + setup_case.
Qed.

(** X18. Setup and cleanup fit together: once [bcm2708_spi_setup] has
    returned 0, running it again on the peer it left, whether or not an
    allocation could succeed, returns 0 and changes nothing; cleanup
    removes the state and nothing else, and is idempotent; and setup after
    cleanup brings back the same peer. *)
Theorem setup_cleanup_round_trip w spi (alloc_ok : bool) spi' :
  bcm2708_spi_setup w spi alloc_ok = (0, spi') →
  (∀ alloc_ok', bcm2708_spi_setup w spi' alloc_ok' = (0, spi'))
  ∧ bcm2708_spi_cleanup spi' = set_controller_state spi' None
  ∧ bcm2708_spi_cleanup (bcm2708_spi_cleanup spi')
    = bcm2708_spi_cleanup spi'
  ∧ bcm2708_spi_setup w (bcm2708_spi_cleanup spi') true = (0, spi').
Proof.
  intros Hrun.
  destruct (setup_ok_inv _ _ _ _ Hrun) as (Es & Ecs & st & -> & Er).
  unfold bcm2708_spi_setup, bcm2708_spi_cleanup. simpl.
  rewrite Es, Ecs. simpl. rewrite Er. done.
Qed.

(** X19. The state [bcm2708_spi_setup] caches is the one a transfer would
    resolve: on a controller with the same clock rate, a transfer of that
    peer runs with the cached state if it overrides nothing, and also if
    what it overrides equals the peer's own speed and width (the width
    modulo 2^8). *)
Theorem setup_state_coherent w spi (alloc_ok : bool) spi' w2 xfer :
  bcm2708_spi_setup w spi alloc_ok = (0, spi') →
  clk w2 = clk w →
  xfer_bits_per_word xfer = 0
  ∨ u8 (xfer_bits_per_word xfer) = u8 (bits_per_word spi) →
  xfer_speed_hz xfer = 0 ∨ xfer_speed_hz xfer = max_speed_hz spi →
  ∃ st,
    controller_state spi' = Some st
    ∧ transfer_state w2 spi' xfer = Ret (inr st).
Proof.
  intros Hrun Hclk Hb Hs.
  destruct (setup_ok_inv _ _ _ _ Hrun) as (_ & _ & st & -> & Er).
  exists st. split; [done |].
  unfold transfer_state. simpl. rewrite Hclk.
  destruct (Z.eqb_spec (xfer_bits_per_word xfer) 0) as [E0 | N0];
    destruct (Z.eqb_spec (xfer_speed_hz xfer) 0) as [E1 | N1]; simpl;
    [done | | |].
  - destruct Hs as [? | ->]; [done |]. by rewrite Er.
  - destruct Hb as [? | Hb]; [done |].
    by rewrite (setup_state_u8_bpw _ _ _ _ _ _ Hb), Er.
  - destruct Hs as [? | ->]; [done |]. destruct Hb as [? | Hb]; [done |].
    by rewrite (setup_state_u8_bpw _ _ _ _ _ _ Hb), Er.
Qed.

End EntryProofs.

Lemma submit_accepts_witness :
  bcm2708_spi_transfer w_probe peer0 msg_slow
  = (0, emit (set_queue w_probe
                (queue w_probe
                 ++ [set_actual_length (set_status msg_slow (- EINPROGRESS))
                       0]))
          EvQueueWork).
Proof.
  apply (submit_accepts w_probe peer0 msg_slow); [done | done |].
  constructor; [| constructor].
  split; [left; by eexists | right; discriminate].
Defined.

Lemma setup_cleanup_round_trip_witness :
  bcm2708_spi_setup w_probe
    (bcm2708_spi_cleanup (mk_spi 4000000 3 0 8 (Some (mk_state 3 2)))) true
  = (0, mk_spi 4000000 3 0 8 (Some (mk_state 3 2))).
Proof.
  apply (setup_cleanup_round_trip w_probe (mk_spi 4000000 3 0 8 None) true
           (mk_spi 4000000 3 0 8 (Some (mk_state 3 2))) eq_refl).
Defined.

Lemma setup_state_coherent_witness :
  ∃ st,
    controller_state (mk_spi 4000000 3 0 8 (Some (mk_state 3 2))) = Some st
    ∧ transfer_state w_probe (mk_spi 4000000 3 0 8 (Some (mk_state 3 2)))
        (mk_xfer (Some 0x1000) None 1 false 8 0 4000000)
      = Ret (inr st).
Proof.
  apply (setup_state_coherent w_probe (mk_spi 4000000 3 0 8 None) true
           (mk_spi 4000000 3 0 8 (Some (mk_state 3 2))) w_probe
           (mk_xfer (Some 0x1000) None 1 false 8 0 4000000)
           eq_refl eq_refl);
    right; reflexivity.
Defined.

Lemma submit_checks_witness :
  snd (bcm2708_spi_transfer w_probe peer0 msg_empty) = w_probe
  ∧ (fst (bcm2708_spi_transfer w_probe peer0 msg_empty) = - EINVAL
     ∨ fst (bcm2708_spi_transfer w_probe peer0 msg_empty) = - ESHUTDOWN).
Proof.
  apply (proj1 (submit_checks w_probe peer0 msg_empty)). discriminate.
Defined.

Lemma setup_outcomes_witness :
  fst (bcm2708_spi_setup w_probe (mk_spi 1 0 0 8 (Some (mk_state 0 2))) true)
  = - EINVAL
  ∧ controller_state
      (snd (bcm2708_spi_setup w_probe
              (mk_spi 1 0 0 8 (Some (mk_state 0 2))) true))
    = None.
Proof.
  apply (proj2 (proj2 (proj2 (proj2 (proj2
           (setup_outcomes w_probe (mk_spi 1 0 0 8 (Some (mk_state 0 2)))
              true)))))
         eq_refl eq_refl ltac:(left; by eexists) (- EINVAL) eq_refl).
Defined.

(** ** Pin multiplexing *)

Lemma testbit_7 k : Z.testbit 7 k = (0 <=? k) && (k <? 3).
Proof. change 7 with (Z.ones 3). apply Z.testbit_ones. lia. Qed.

Lemma testbit_4 k : Z.testbit 4 k = (2 =? k).
Proof.
  destruct (Z.leb_spec 0 k).
  - change 4 with (2 ^ 2). apply Z.pow2_bits_eqb. lia.
  - rewrite Z.testbit_neg_r by lia. symmetry. apply Z.eqb_neq. lia.
Qed.

Lemma testbit_u32 x n : 0 <= n < 32 → Z.testbit (u32 x) n = Z.testbit x n.
Proof. intros Hn. unfold u32. apply Z.mod_pow2_bits_low. lia. Qed.

Lemma fsel_bits gpio g i :
  0 <= g → 0 <= i →
  Z.testbit (fsel gpio g) i
  = Z.testbit (gpio_word gpio (g / 10)) (i + g mod 10 * 3) && (i <? 3).
Proof.
  intros Hg Hi. unfold fsel.
  rewrite Z.land_spec, Z.shiftr_spec, testbit_7 by lia.
  destruct (Z.leb_spec 0 i); [done | lia].
Qed.

(** One round of the loop of [bcm2708_init_pinmode] sets the field of its
    pin to 4 and leaves the fields of all other pins as they are. *)
Lemma fsel_init_pin gpio pin g :
  0 <= pin → 0 <= g →
  fsel (init_pin gpio pin) g = if g =? pin then 4 else fsel gpio g.
Proof.
  intros Hpin Hg.
  pose proof (Z.mod_pos_bound pin 10 ltac:(lia)) as Hpm.
  pose proof (Z.mod_pos_bound g 10 ltac:(lia)) as Hgm.
  apply Z.bits_inj'. intros i Hi.
  rewrite fsel_bits by done.
  unfold init_pin, SET_GPIO_ALT, INP_GPIO.
  rewrite Z.quot_div_nonneg, Z.rem_mod_nonneg by lia.
  change (if 0 <=? 3 then 0 + 4 else if 0 =? 4 then 3 else 2) with 4.
  set (q := pin / 10). set (s := pin mod 10 * 3).
  destruct (Z.ltb_spec i 3) as [Hi3 | Hi3].
  2:{ rewrite andb_false_r. destruct (g =? pin).
      - rewrite testbit_4. symmetry. apply Z.eqb_neq. lia.
      - rewrite fsel_bits by done.
        destruct (Z.ltb_spec i 3); [lia |]. by rewrite andb_false_r. }
  rewrite andb_true_r.
  destruct (Z.eq_dec (g / 10) q) as [Eq | Nq].
  - rewrite Eq. unfold gpio_word at 1. rewrite lookup_insert_eq. simpl.
    unfold gpio_word at 1. rewrite lookup_insert_eq. simpl.
    rewrite !testbit_u32, Z.lor_spec, !testbit_u32, Z.land_spec,
      Z.lnot_spec, !Z.shiftl_spec, testbit_7, testbit_4 by lia.
    destruct (Z.eqb_spec g pin) as [-> | Ng].
    + fold s. replace (i + s - s) with i by lia.
      rewrite testbit_4.
      destruct (Z.leb_spec 0 i); [| lia].
      destruct (Z.ltb_spec i 3); [| lia]. simpl.
      by rewrite andb_false_r.
    + assert (g mod 10 ≠ pin mod 10).
      { intros E. apply Ng.
        rewrite (Z.div_mod g 10), (Z.div_mod pin 10) by lia.
        fold q. rewrite Eq, E. done. }
      rewrite fsel_bits by done. rewrite Eq.
      destruct (Z.ltb_spec i 3); [| lia]. rewrite andb_true_r.
      assert (i + g mod 10 * 3 - s < 0 ∨ 3 <= i + g mod 10 * 3 - s)
        as [Hk | Hk] by (unfold s; lia).
      * destruct (Z.leb_spec 0 (i + g mod 10 * 3 - s)); [lia |].
        destruct (Z.eqb_spec 2 (i + g mod 10 * 3 - s)); [lia |]. simpl.
        by rewrite orb_false_r, andb_true_r.
      * destruct (Z.ltb_spec (i + g mod 10 * 3 - s) 3); [lia |].
        destruct (Z.eqb_spec 2 (i + g mod 10 * 3 - s)); [lia |].
        rewrite andb_false_r. simpl.
        by rewrite orb_false_r, andb_true_r.
  - assert (g ≠ pin) by (intros ->; done).
    destruct (Z.eqb_spec g pin); [done |].
    rewrite fsel_bits by done.
    destruct (Z.ltb_spec i 3); [| lia]. rewrite andb_true_r.
    unfold gpio_word. rewrite !lookup_insert_ne by done. done.
Qed.

(** X20. After [bcm2708_init_pinmode] the function-select field of each
    of the pins 7 to 11 is 4, the encoding of ALT0, whatever it was
    before, and the field of every other pin is as it was. *)
Theorem init_pinmode_alt0 gpio g :
  0 <= g →
  fsel (bcm2708_init_pinmode gpio) g
  = if (7 <=? g) && (g <=? 11) then 4 else fsel gpio g.
Proof.
  intros Hg. unfold bcm2708_init_pinmode. simpl.
  rewrite !fsel_init_pin by lia.
  destruct (Z.leb_spec 7 g); destruct (Z.leb_spec g 11); simpl;
    destruct (Z.eqb_spec g 11); try done; try lia;
    destruct (Z.eqb_spec g 10); try done; try lia;
    destruct (Z.eqb_spec g 9); try done; try lia;
    destruct (Z.eqb_spec g 8); try done; try lia;
    destruct (Z.eqb_spec g 7); try done; lia.
Qed.

(** ** Probe and remove *)

Section PlatformProofs.
Context {H : Type} `{Device H}.
Implicit Types w : @world H.

(** X21. [bcm2708_spi_probe] unwinds completely: on every path on which
    it does not hand out a controller, each service that acquired
    something has been answered by the service that gives it back, in
    reverse order; a probe that hands out a controller returns 0 and
    holds the clock, the master, the mapping, the workqueue, the
    interrupt, the enabled clock and the registration; and, when the
    platform reports an unavailable clock by a negative errno, the probe
    returns 0 only if it hands out a controller. *)
Theorem probe_unwinds (p : platform) (h : H) (m : gmap Z Z) :
  let r := bcm2708_spi_probe_pdev p h m in
  match snd r with
  | None => outstanding (snd (fst r)) = []
  | Some w =>
    fst (fst r) = 0
    ∧ plat_clk p = inr (clk w)
    ∧ w = bcm2708_spi_probe h (clk w) m
    ∧ outstanding (snd (fst r))
      = [spi_register_master; clk_prepare_enable; request_irq;
         create_singlethread_workqueue; ioremap; spi_alloc_master; clk_get]
  end
  ∧ ((∀ e, plat_clk p = inl e → e < 0) →
     fst (fst r) = 0 → is_Some (snd r)).
Proof.
  cbv zeta. unfold bcm2708_spi_probe_pdev.
  destruct (plat_regs p); simpl; [| split; [done |]; intros _; done].
  destruct (Z.ltb_spec (plat_irq p) 0); simpl;
    [split; [done |]; intros _; lia |].
  destruct (plat_clk p) as [e | rate] eqn:Eclk; simpl.
  { split; [done |]. intros He E0. specialize (He e eq_refl). lia. }
  destruct (plat_master p); simpl; [| split; [done |]; intros _; done].
  destruct (plat_ioremap p); simpl; [| split; [done |]; intros _; done].
  destruct (plat_workq p); simpl; [| split; [done |]; intros _; done].
  destruct (Z.eqb_spec (plat_request_irq p) 0); simpl;
    [| split; [done |]; intros _; done].
  destruct (Z.eqb_spec (plat_register p) 0); simpl;
    [| split; [done |]; intros _; done].
  split; [| intros _ _; by eexists]. done.
Qed.

(** The worker on a stopping controller, whatever the queue holds: the
    world it leaves is the one it found, with the queue empty and the
    callbacks added to the trace. *)
Lemma work_loop_stopping fuel q : ∀ st0 w,
  stopping w = true →
  work_loop fuel q st0 w
  = Ret (mk_world (base w) (clk w) true
           (match q with [] => queue w | _ :: _ => [] end)
           (done w) (tx_buf w) (rx_buf w) (len w) (mem w)
           (trace w ++ shutdown_callbacks st0 q)).
Proof.
  induction q as [| m q IH]; intros st0 w Hs.
  { destruct w. simpl in *. subst. by rewrite app_nil_r. }
  cbn [work_loop shutdown_callbacks]. cbv zeta.
  set (st := match transfers m with [] => st0 | _ :: _ => - ESHUTDOWN end).
  assert (transfers_loop fuel (set_queue w q) m (transfers m) st0
          = Ret (st, m, set_queue w q)) as ->.
  { unfold st. destruct (transfers m) as [| x rest]; cbn [transfers_loop];
      [done |].
    unfold bcm2708_process_transfer. simpl. rewrite Hs. done. }
  simpl. rewrite IH by done. simpl. rewrite <- app_assoc. simpl.
  by destruct q.
Qed.

(** X22. [bcm2708_spi_remove], with [flush_work_sync] taken as the worker
    running to its end after the flag is set, returns 0 with any fuel and
    whatever the queue holds, and what it leaves is fully determined: the
    calls are those of the function in their order; the device has seen
    the one write that clears the FIFOs and nothing else, no read and no
    other write; the trace continues with that write and then exactly
    one completion callback per queued message, in queue order, with the
    context and the unchanged actual length of the message and the status
    -ESHUTDOWN (a message without transfers gets the status the message
    before it left, 0 at the start); memory, the cursors, the remaining
    length and the completion are as they were; the queue is empty and
    the flag is set, so that every later setup returns -ESHUTDOWN and
    every later submit is rejected without effect. *)
Theorem remove_returns (fuel : nat) w :
  ∃ w',
    bcm2708_spi_remove_pdev fuel w
    = Ret (0,
           [(flush_work_sync, true); (clk_disable_unprepare, true);
            (clk_put, true); (free_irq, true); (iounmap, true);
            (spi_unregister_master, true)],
           w')
    ∧ w' = mk_world
             (writel (base w) SPI_CS
                (u32 (Z.lor SPI_CS_CLEAR_RX SPI_CS_CLEAR_TX)))
             (clk w) true [] (done w) (tx_buf w) (rx_buf w) (len w) (mem w)
             (trace w
              ++ EvWr SPI_CS (u32 (Z.lor SPI_CS_CLEAR_RX SPI_CS_CLEAR_TX))
                 :: shutdown_callbacks 0 (queue w))
    ∧ (Forall (λ m, transfers m ≠ []) (queue w) →
       shutdown_callbacks 0 (queue w)
       = (λ m, EvComplete (msg_context m) (- ESHUTDOWN) (actual_length m))
           <$> queue w)
    ∧ (∀ spi alloc_ok,
         bcm2708_spi_setup w' spi alloc_ok = (- ESHUTDOWN, spi))
    ∧ (∀ spi msg,
         snd (bcm2708_spi_transfer w' spi msg) = w'
         ∧ (fst (bcm2708_spi_transfer w' spi msg) = - EINVAL
            ∨ fst (bcm2708_spi_transfer w' spi msg) = - ESHUTDOWN)).
Proof.
  unfold bcm2708_spi_remove_pdev, bcm2708_spi_remove, bcm2708_work.
  rewrite (work_loop_stopping fuel (queue (remove_block w)) 0
             (remove_block w) eq_refl).
  eexists. split; [reflexivity |]. split.
  { simpl. rewrite <- app_assoc. simpl. by destruct (queue w). }
  split.
  { generalize 0 as st0. induction (queue w) as [| m q IH]; intros st0 Hq;
      [done |].
    inversion Hq as [| ? ? Hm Hq']; subst. simpl.
    destruct (transfers m); [done |]. by rewrite IH. }
  split.
  - intros spi ok. done.
  - intros spi msg. unfold bcm2708_spi_transfer. simpl.
    destruct (transfers msg); auto.
Qed.

(** X23. What probe acquires and remove does not give back: after a probe
    that hands out a controller and a remove of that controller, no call
    of [destroy_workqueue] and none of [spi_master_put] has been made, so
    that of the acquisitions of probe exactly the workqueue and the
    allocation of the master have not been handed to the service that
    gives them back. *)
Theorem probe_remove_outstanding (p : platform) (h : H) (m : gmap Z Z)
    (fuel : nat) r calls w r' calls' w' :
  bcm2708_spi_probe_pdev p h m = (r, calls, Some w) →
  bcm2708_spi_remove_pdev fuel w = Ret (r', calls', w') →
  outstanding (calls ++ calls')
  = [create_singlethread_workqueue; spi_alloc_master]
  ∧ ((destroy_workqueue, true) ∉ (calls ++ calls'))
  ∧ ((spi_master_put, true) ∉ (calls ++ calls')).
Proof.
  unfold bcm2708_spi_probe_pdev, bcm2708_spi_remove_pdev.
  destruct (bcm2708_spi_remove fuel w) as [w1 | |]; [| done | done].
  simpl. intros Hp [= <- <- <-]. revert Hp.
  destruct (plat_regs p); simpl; [| done].
  destruct (plat_irq p <? 0); simpl; [done |].
  destruct (plat_clk p) as [e | rate]; simpl; [done |].
  destruct (plat_master p); simpl; [| done].
  destruct (plat_ioremap p); simpl; [| done].
  destruct (plat_workq p); simpl; [| done].
  destruct (plat_request_irq p =? 0); simpl; [| done].
  destruct (plat_register p =? 0); simpl; [| done].
  intros [= <- <- <-]. split; [done |].
  split; intros Hin; repeat (apply elem_of_cons in Hin as [Hin | Hin];
    [done |]); by apply elem_of_nil in Hin.
Qed.

End PlatformProofs.

Lemma init_pinmode_alt0_witness : fsel (bcm2708_init_pinmode ∅) 9 = 4.
Proof. apply (init_pinmode_alt0 ∅ 9). lia. Defined.

Lemma probe_unwinds_witness :
  is_Some (snd (bcm2708_spi_probe_pdev plat_ok (mk_loop false [] 4) mem3)).
Proof.
  apply (proj2 (probe_unwinds plat_ok (mk_loop false [] 4) mem3));
    [intros e [=] | reflexivity].
Defined.

Lemma probe_remove_outstanding_witness :
  ∃ r calls w r' calls' w',
    bcm2708_spi_probe_pdev plat_ok (mk_loop false [] 4) mem3
    = (r, calls, Some w)
    ∧ bcm2708_spi_remove_pdev 0 w = Ret (r', calls', w')
    ∧ outstanding (calls ++ calls')
      = [create_singlethread_workqueue; spi_alloc_master].
Proof.
  do 6 eexists. split; [vm_compute; reflexivity |].
  split; [vm_compute; reflexivity |].
  refine (proj1 (probe_remove_outstanding plat_ok (mk_loop false [] 4) mem3
                   0 _ _ _ _ _ _ _ _)).
  - vm_compute; reflexivity.
  - vm_compute; reflexivity.
Defined.

Lemma remove_returns_witness :
  shutdown_callbacks 0 (queue (snd (bcm2708_spi_transfer w_probe peer0 msg3)))
  = (λ m, EvComplete (msg_context m) (- ESHUTDOWN) (actual_length m))
      <$> queue (snd (bcm2708_spi_transfer w_probe peer0 msg3)).
Proof.
  destruct (remove_returns 0 (snd (bcm2708_spi_transfer w_probe peer0 msg3)))
    as (w' & _ & _ & Hcb & _).
  apply Hcb. repeat constructor. discriminate.
Defined.

(** ** Memory *)

Section MemoryProofs.
Context {H : Type} `{Device H}.
Implicit Types w : @world H.

(** Without an rx cursor the handler leaves memory alone. *)
Lemma interrupt_mem fuel w w' :
  rx_buf w = None →
  bcm2708_spi_interrupt fuel w = Ret w' →
  mem w' = mem w ∧ rx_buf w' = None.
Proof.
  intros Hno. rewrite interrupt_unfold. cbv zeta.
  destruct (bcm2708_rd_spec w SPI_CS) as (_ & _ & _ & Hm1 & Hr1 & _).
  set (w1 := snd (bcm2708_rd w SPI_CS)) in *.
  set (c := u32 (fst (readl (base w) SPI_CS))).
  destruct (has_flag c SPI_CS_DONE).
  - destruct (negb (len w =? 0)).
    + intros [= <-].
      destruct (wr_fifo_frame w1 16) as (_ & Hm & Hr & _).
      split; congruence.
    + set (c0 := Z.land c _). set (w2 := bcm2708_wr w1 SPI_CS c0).
      destruct (drain_rx fuel c0 w2) as [w3 | |] eqn:Ed; try done.
      simpl. intros [= <-].
      destruct (drain_rx_frame _ _ _ _ Ed) as (_ & _ & _ & _ & _ & Hrx).
      destruct (Hrx ltac:(unfold w2; simpl; congruence)) as [Hm3 Hr3].
      change (mem (complete w3)) with (mem w3).
      change (rx_buf (complete w3)) with (rx_buf w3).
      rewrite Hm3, Hr3. unfold w2. simpl. done.
  - destruct (has_flag c SPI_CS_RXR); intros [= <-].
    + destruct (rd_fifo_frame w1 12) as (_ & _ & _ & _ & _ & Hrx).
      destruct (Hrx ltac:(congruence)) as [Hm2 Hr2].
      destruct (wr_fifo_frame (bcm2708_rd_fifo w1 12) 12)
        as (_ & Hm & Hr & _).
      split; congruence.
    + split; congruence.
Qed.

Lemma wait_loop_mem fuel irqs : ∀ w r w',
  rx_buf w = None →
  wait_loop fuel irqs w = Ret (r, w') →
  mem w' = mem w.
Proof.
  induction irqs as [| irqs IH]; intros w r w' Hno; cbn [wait_loop];
    destruct (0 <? done w); try (by intros [= <- <-]).
  destruct (bcm2708_spi_interrupt fuel w) as [w1 | |] eqn:Ei; try done.
  simpl. intros Hw.
  destruct (interrupt_mem _ _ _ Hno Ei) as [Hm1 Hr1].
  rewrite (IH _ _ _ Hr1 Hw). done.
Qed.

Lemma process_transfer_mem fuel w msg xfer last st msg' w' :
  xfer_rx_buf xfer = None →
  bcm2708_process_transfer fuel w msg xfer last = Ret (st, msg', w') →
  mem w' = mem w.
Proof.
  intros Hno. unfold bcm2708_process_transfer.
  destruct (stopping w); [by intros [= <- <- <-] |].
  destruct (transfer_state w (msg_spi msg) xfer) as [[e | stp] | |];
    try done; simpl; [by intros [= <- <- <-] |].
  unfold wait_for_completion_timeout.
  destruct (wait_loop fuel _ (arm w stp xfer)) as [[r wt] | |] eqn:Ew;
    try done; simpl.
  apply wait_loop_mem in Ew; [| done].
  change (mem (arm w stp xfer)) with (mem w) in Ew.
  destruct (r =? 0); [by intros [= <- <- <-] |].
  intros [= <- <- <-].
  destruct (negb (xfer_delay_usecs xfer =? 0));
    destruct (last || xfer_cs_change xfer); done.
Qed.

Lemma transfers_loop_mem fuel xs : ∀ w msg st0 st msg' w',
  Forall (λ x, xfer_rx_buf x = None) xs →
  transfers_loop fuel w msg xs st0 = Ret (st, msg', w') →
  mem w' = mem w.
Proof.
  induction xs as [| x rest IH]; intros w msg st0 st msg' w' Hxs;
    cbn [transfers_loop]; [by intros [= <- <- <-] |].
  inversion Hxs as [| ? ? Hx Hrest]; subst.
  destruct (bcm2708_process_transfer fuel w msg x _)
    as [[[s1 m1] w1] | |] eqn:Ep; try done. simpl.
  apply process_transfer_mem in Ep; [| done].
  destruct (negb (s1 =? 0)); [intros [= <- <- <-]; done |].
  intros Hl. apply IH in Hl; [| done]. congruence.
Qed.

(** X24. The driver stores to memory only through the rx cursor: when no
    transfer of any queued message has an rx buffer, a run of the worker
    leaves memory exactly as it was, whatever the device answers, in
    every word mode and whether the transfers end in time or not. *)
Theorem work_transmit_only_memory fuel w w' :
  Forall (λ m, Forall (λ x, xfer_rx_buf x = None) (transfers m)) (queue w) →
  bcm2708_work fuel w = Ret w' →
  mem w' = mem w.
Proof.
  unfold bcm2708_work. generalize 0 as st0. generalize (queue w) as q.
  intros q. revert w. induction q as [| m q IH]; intros w st0 Hq;
    cbn [work_loop]; [by intros [= <-] |].
  inversion Hq as [| ? ? Hm Hq']; subst.
  destruct (transfers_loop fuel (set_queue w q) m (transfers m) st0)
    as [[[st m'] w1] | |] eqn:Et; try done. simpl.
  apply transfers_loop_mem in Et; [| done].
  intros Hrun. apply IH in Hrun; [| done].
  rewrite Hrun. exact Et.
Qed.

End MemoryProofs.

Lemma work_transmit_only_memory_witness :
  ∃ w',
    bcm2708_work 16 (snd (bcm2708_spi_transfer w_probe peer0 msg_tx3))
    = Ret w'
    ∧ mem w' = mem (snd (bcm2708_spi_transfer w_probe peer0 msg_tx3)).
Proof.
  eexists. split; [vm_compute; reflexivity |].
  refine (work_transmit_only_memory 16
            (snd (bcm2708_spi_transfer w_probe peer0 msg_tx3)) _ _ _).
  - repeat constructor.
  - vm_compute; reflexivity.
Defined.

(** ** The idle control word *)

(** The control word resolved for a peer that passes the chip-select check
    of [bcm2708_spi_setup] drives none of the bits that run a transfer. *)
Lemma checked_state_idle bus_hz hz csel md bpw st :
  0 <= csel < 2 ^ 8 → 0 <= md < 2 ^ 8 →
  negb (has_flag md SPI_NO_CS) && (num_chipselect <? csel) = false →
  bcm2708_setup_state bus_hz hz csel md bpw = inr st →
  has_flag (cs st) SPI_CS_TA = false
  ∧ has_flag (cs st) SPI_CS_INTR = false
  ∧ has_flag (cs st) SPI_CS_INTD = false.
Proof.
  intros Hcsel Hmd Hchk Hst.
  rewrite (has_flag_pow2 _ 7), (has_flag_pow2 _ 10), (has_flag_pow2 _ 9)
    by lia.
  rewrite !(setup_state_free_bit _ _ _ _ _ _ _ Hst) by lia.
  rewrite (u8_small md), (u8_small csel) by lia.
  destruct (has_flag md SPI_NO_CS); [done |]. simpl in Hchk.
  unfold num_chipselect in Hchk. apply Z.ltb_ge in Hchk.
  rewrite !(testbit_small csel 2) by lia. done.
Qed.

Section IdleProofs.
Context {H : Type} `{Device H}.
Implicit Types w : @world H.

(** X25. Every state [bcm2708_spi_setup] stores is an idle control word:
    for a peer whose chip select and mode are in the range of their [u8]
    fields, a setup that returns 0 leaves a state whose control word has
    "transfer active" and both interrupt enables clear, because the
    chip-select check keeps the index away from these bits. *)
Theorem setup_stores_idle_word w spi (alloc_ok : bool) spi' :
  0 <= chip_select spi < 2 ^ 8 → 0 <= mode spi < 2 ^ 8 →
  bcm2708_spi_setup w spi alloc_ok = (0, spi') →
  ∃ st,
    controller_state spi' = Some st
    ∧ has_flag (cs st) SPI_CS_TA = false
    ∧ has_flag (cs st) SPI_CS_INTR = false
    ∧ has_flag (cs st) SPI_CS_INTD = false.
Proof.
  intros Hcsel Hmd Hrun.
  destruct (setup_ok_inv _ _ _ _ Hrun) as (_ & Hchk & st & -> & Er).
  exists st. split; [done |].
  by apply (checked_state_idle _ _ _ _ _ _ Hcsel Hmd Hchk Er).
Qed.

(** X26. A transfer that ends a message, or asks for [cs_change], leaves
    the controller idle: for a peer that went through
    [bcm2708_spi_setup], when such a transfer ends with status 0 the last
    value written to the control register has "transfer active" and both
    interrupt enables clear, whether the transfer ran with the cached
    state or with overrides. *)
Theorem transfer_ends_idle fuel w msg xfer last msg' w'
    (w0 : @world H) spi0 (alloc_ok : bool) :
  0 <= chip_select spi0 < 2 ^ 8 → 0 <= mode spi0 < 2 ^ 8 →
  bcm2708_spi_setup w0 spi0 alloc_ok = (0, msg_spi msg) →
  0 <= xfer_len xfer < 2 ^ 31 →
  last || xfer_cs_change xfer = true →
  bcm2708_process_transfer fuel w msg xfer last = Ret (0, msg', w') →
  ∃ pre c,
    writes_to SPI_CS (trace w') = pre ++ [c]
    ∧ has_flag c SPI_CS_TA = false
    ∧ has_flag c SPI_CS_INTR = false
    ∧ has_flag c SPI_CS_INTD = false.
Proof.
  intros Hcsel Hmd Hsetup Hx Hlast Hrun.
  destruct (setup_ok_inv _ _ _ _ Hsetup) as (_ & Hchk & st & Hspi & Er).
  destruct (process_transfer_effect _ _ _ _ _ _ _ _ Hx Hrun ltac:(by left))
    as (stp & Hst & _ & _ & _ & _ & Hcase).
  destruct Hcase as [(? & _) | (_ & _ & _ & c0 & Hcs & _)]; [done |].
  rewrite Hlast in Hcs.
  exists (writes_to SPI_CS (trace w) ++ [arm_word stp; c0]), (u32 (cs stp)).
  split; [by rewrite Hcs, <- app_assoc |].
  assert (Hidle : has_flag (cs stp) SPI_CS_TA = false
                  ∧ has_flag (cs stp) SPI_CS_INTR = false
                  ∧ has_flag (cs stp) SPI_CS_INTD = false).
  { revert Hst. unfold transfer_state. rewrite Hspi. simpl.
    destruct (negb (xfer_bits_per_word xfer =? 0)
              || negb (xfer_speed_hz xfer =? 0)).
    - intros [= Hr].
      by apply (checked_state_idle _ _ _ _ _ _ Hcsel Hmd Hchk Hr).
    - intros [= <-].
      by apply (checked_state_idle _ _ _ _ _ _ Hcsel Hmd Hchk Er). }
  change SPI_CS_TA with (2 ^ 7) in *. change SPI_CS_INTR with (2 ^ 10) in *.
  change SPI_CS_INTD with (2 ^ 9) in *.
  rewrite !has_flag_u32 by lia. exact Hidle.
Qed.

End IdleProofs.

Lemma setup_stores_idle_word_witness :
  ∃ st,
    controller_state (mk_spi 4000000 3 0 8 (Some (mk_state 3 2))) = Some st
    ∧ has_flag (cs st) SPI_CS_TA = false
    ∧ has_flag (cs st) SPI_CS_INTR = false
    ∧ has_flag (cs st) SPI_CS_INTD = false.
Proof.
  apply (setup_stores_idle_word w_probe (mk_spi 4000000 3 0 8 None) true
           (mk_spi 4000000 3 0 8 (Some (mk_state 3 2))));
    [simpl; lia | simpl; lia | reflexivity].
Defined.

Lemma transfer_ends_idle_witness :
  ∃ msg' w',
    bcm2708_process_transfer 16 w_probe msg3 xfer3 true = Ret (0, msg', w')
    ∧ ∃ pre c,
        writes_to SPI_CS (trace w') = pre ++ [c]
        ∧ has_flag c SPI_CS_TA = false
        ∧ has_flag c SPI_CS_INTR = false
        ∧ has_flag c SPI_CS_INTD = false.
Proof.
  do 2 eexists. split; [vm_compute; reflexivity |].
  refine (transfer_ends_idle 16 w_probe msg3 xfer3 true _ _
            w_probe (mk_spi 4000000 0 0 8 None) true _ _ _ _ _ _).
  - simpl; lia.
  - simpl; lia.
  - reflexivity.
  - simpl; lia.
  - reflexivity.
  - vm_compute; reflexivity.
Defined.
